(** * LabExT: the SmarAct MCS2 stage driver (Stage6DSmarActMCS2)

    A shallow embedding of [LabExT/Movement/Stages/Stage6DSmarActMCS2.py]:
    the unit converters, the [_Channel] class, the [Stage6DSmarActMCS2]
    life cycle ([connect], [disconnect]), the multi-axis moves with their
    polling wait, and the device discovery.

    The vendor module [smaract.ctl] is outside the repository.  It is a
    parameter of the development: a record of oracles that answer every
    call from the history of calls made so far.  Every method runs in a
    state monad over the Python object it mutates and the trace of vendor
    calls, in which an exception keeps the state written before it was
    raised, as in Python. *)

From Stdlib Require Import ZArith QArith Qround String Ascii Bool Lia DecimalString.
From Stdlib Require Import Floats.PrimFloat Floats.SpecFloat Floats.FloatOps.
From Stdlib Require Floats.FloatAxioms.
From Stdlib Require Import Sorted Permutation.
From Stdlib Require OrderedTypeEx.
From stdpp Require Import base tactics option list strings.

Local Open Scope string_scope.
Local Open Scope Z_scope.

(** ** Python outcomes *)

(** The exceptions the driver can raise or let through.  [StageError] is
    LabExT's own exception class; [CtlError] stands for [smaract.ctl.Error],
    which every vendor call may raise with a result code. *)
Inductive exn : Type :=
  | StageError (msg : string)
  | ValueError (msg : string)
  | TypeError (msg : string)
  | KeyError (key : string)
  | OverflowError (msg : string)
  | NotImplementedError
  | CtlError (code : Z).

(** What a call does: it returns, it raises, or (for the polling loop only)
    it is still running when the fuel given to the model is used up. *)
Inductive outcome (A : Type) : Type :=
  | Ret (a : A)
  | Raise (e : exn)
  | Running.
Arguments Ret {A} a.
Arguments Raise {A} e.
Arguments Running {A}.

Definition is_Raise {A} (o : outcome A) : bool :=
  match o with Raise _ => true | _ => false end.

Definition is_Ret {A} (o : outcome A) : bool :=
  match o with Ret _ => true | _ => false end.

(** ** Python values *)

(** Python's numbers as the driver meets them: [int] is unbounded, [float]
    is IEEE 754 binary64. *)
Inductive pynum : Type :=
  | PyInt (z : Z)
  | PyFloat (f : float).

(** [float(z)]: the nearest binary64 value, ties to even; an [int] beyond
    the range of [float] raises. *)
Definition float_of_Z (z : Z) : float :=
  SF2Prim (binary_normalize prec emax z 0 false).

Definition float_of_int (z : Z) : exn + float :=
  let f := float_of_Z z in
  if PrimFloat.is_infinity f
  then inl (OverflowError "int too large to convert to float")
  else inr f.

(** [a * k] for a float [k]: an [int] operand is converted first. *)
Definition mul_float (a : pynum) (k : float) : exn + float :=
  match a with
  | PyInt z => match float_of_int z with
               | inl e => inl e
               | inr f => inr (PrimFloat.mul f k)
               end
  | PyFloat f => inr (PrimFloat.mul f k)
  end.

(** [int(f)]: the integral part of [f], towards zero. *)
Definition int_of_float (f : float) : exn + Z :=
  match Prim2SF f with
  | S754_zero _ => inr 0
  | S754_finite s m e =>
      let a := Z.shiftl (Z.pos m) e in inr (if s then - a else a)
  | S754_infinity _ => inl (OverflowError "cannot convert float infinity to integer")
  | S754_nan => inl (ValueError "cannot convert float NaN to integer")
  end.

(** [round(f)]: the nearest integer, ties to the even one. *)
Definition nearest_even (m e : Z) : Z :=
  if 0 <=? e then Z.shiftl m e
  else
    let d := 2 ^ (- e) in
    let q := m / d in
    match 2 * (m mod d) ?= d with
    | Lt => q
    | Gt => q + 1
    | Eq => if Z.even q then q else q + 1
    end.

Definition round_float (f : float) : exn + Z :=
  match Prim2SF f with
  | S754_zero _ => inr 0
  | S754_finite s m e =>
      let a := nearest_even (Z.pos m) e in inr (if s then - a else a)
  | S754_infinity _ => inl (OverflowError "cannot convert float infinity to integer")
  | S754_nan => inl (ValueError "cannot convert float NaN to integer")
  end.

(** The exact value of a finite float, as a fraction. *)
Definition float_value (f : float) : option Q :=
  match Prim2SF f with
  | S754_zero _ => Some 0%Q
  | S754_finite s m e =>
      let n := if s then Z.neg m else Z.pos m in
      Some (if 0 <=? e then inject_Z (n * 2 ^ e)
            else Qmake n (Z.to_pos (2 ^ (- e))))
  | _ => None
  end.

(** [sub in s] on strings. *)
Fixpoint contains (sub s : string) : bool :=
  String.prefix sub s
  || match s with
     | EmptyString => false
     | String _ s' => contains sub s'
     end.

(** [s.removesuffix(suffix)]. *)
Fixpoint removesuffix (s suffix : string) : string :=
  if String.eqb s suffix then EmptyString
  else match s with
       | EmptyString => EmptyString
       | String c s' => String c (removesuffix s' suffix)
       end.

(** [s.split(sep)] for a separator of one character. *)
Fixpoint str_split (sep : ascii) (s : string) : list string :=
  match s with
  | EmptyString => [EmptyString]
  | String c s' =>
      if Ascii.eqb c sep then EmptyString :: str_split sep s'
      else match str_split sep s' with
           | x :: xs => String c x :: xs
           | [] => [String c EmptyString]
           end
  end.

Definition newline : ascii := Ascii.ascii_of_nat 10.

(** [str(z)] for an [int], as an f-string prints it. *)
Definition str_of_int (z : Z) : string :=
  DecimalString.NilZero.string_of_int (Z.to_int z).

(** ** [sorted] on a list that holds strings and empty lists

    [find_stage_addresses] sorts a list in which it has put strings and
    [[]].  Python orders two strings by code point and two lists
    element-wise; [<] between a string and a list raises [TypeError].
    [sorted] is stable and uses [<] only; it is modelled by the insertion
    of every element, from the left, before the first element it is less
    than.  Strings are byte strings here (UTF-8 keeps the order of code
    points). *)
Inductive entry : Type :=
  | entry_str (s : string)
  | entry_empty_list.

Definition entry_lt (a b : entry) : exn + bool :=
  match a, b with
  | entry_str x, entry_str y => inr (String.ltb x y)
  | entry_empty_list, entry_empty_list => inr false
  | entry_str _, entry_empty_list =>
      inl (TypeError "'<' not supported between instances of 'str' and 'list'")
  | entry_empty_list, entry_str _ =>
      inl (TypeError "'<' not supported between instances of 'list' and 'str'")
  end.

Fixpoint insert_sorted (x : entry) (l : list entry) : exn + list entry :=
  match l with
  | [] => inr [x]
  | y :: l' =>
      match entry_lt x y with
      | inl e => inl e
      | inr true => inr (x :: y :: l')
      | inr false =>
          match insert_sorted x l' with
          | inl e => inl e
          | inr r => inr (y :: r)
          end
      end
  end.

Definition sorted (l : list entry) : exn + list entry :=
  fold_left
    (fun acc x => match acc with inl e => inl e | inr r => insert_sorted x r end)
    l (inr []).

(** ** The vendor module [smaract.ctl]

    [smaract.ctl] is SmarAct's binding to the MCS2 controller library; it
    is not part of the repository.  Its enumerations are written out as far
    as the driver names them, and its functions are oracles. *)
Module ctl.

(** [ctl.MoveMode]: the move modes of the MCS2 interface.  The driver
    names the two closed-loop ones; the vendor enumeration has three
    more. *)
Inductive MoveMode : Type :=
  | CL_ABSOLUTE | CL_RELATIVE | SCAN_ABSOLUTE | SCAN_RELATIVE | STEP.

Definition MoveMode_value (m : MoveMode) : Z :=
  match m with
  | CL_ABSOLUTE => 0 | CL_RELATIVE => 1
  | SCAN_ABSOLUTE => 2 | SCAN_RELATIVE => 3 | STEP => 4
  end.

Definition MoveMode_name (m : MoveMode) : string :=
  match m with
  | CL_ABSOLUTE => "CL_ABSOLUTE" | CL_RELATIVE => "CL_RELATIVE"
  | SCAN_ABSOLUTE => "SCAN_ABSOLUTE" | SCAN_RELATIVE => "SCAN_RELATIVE"
  | STEP => "STEP"
  end.

(** The members of [ctl.Property] that the driver reads or writes. *)
Inductive Property : Type :=
  | NUMBER_OF_BUS_MODULES
  | CHANNEL_STATE
  | POSITIONER_TYPE_NAME
  | POSITION
  | MOVE_VELOCITY
  | MOVE_ACCELERATION
  | MOVE_MODE.

(** One call into the outside world, with its arguments.  A handle
    argument is whatever the caller holds: an integer or [None].
    [time.sleep] is recorded in the same trace. *)
Inductive call : Type :=
  | call_FindDevices
  | call_Open (locator : string)
  | call_Close (handle : option Z)
  | call_GetProperty_i32 (handle : option Z) (idx : Z) (p : Property)
  | call_GetProperty_i64 (handle : option Z) (idx : Z) (p : Property)
  | call_GetProperty_s (handle : option Z) (idx : Z) (p : Property)
  | call_SetProperty_i32 (handle : option Z) (idx : Z) (p : Property) (v : Z)
  | call_SetProperty_i64 (handle : option Z) (idx : Z) (p : Property) (v : Z)
  | call_Move (handle : option Z) (idx : Z) (v : Z)
  | call_Stop (handle : option Z) (idx : Z)
  | call_sleep (delay : pynum).

Definition is_Open (c : call) : bool :=
  match c with call_Open _ => true | _ => false end.
Definition is_Move (c : call) : bool :=
  match c with call_Move _ _ _ => true | _ => false end.
Definition is_sleep (c : call) : bool :=
  match c with call_sleep _ => true | _ => false end.

(** The controller and its library, as the driver sees them: the flag
    table [ctl.ChannelState] (name and bit of every member, in the order
    of definition), and for every function what it answers after a given
    history of calls ([inl e]: it raises [e]).  [sleep_reply] is the
    answer of [time.sleep] of Python's library, which is outside the
    repository as well: it raises for a delay that it does not accept, a
    negative one or NaN. *)
Record vendor : Type := Vendor {
  ChannelState : list (string * Z);
  FindDevices_reply : list call -> exn + string;
  Open_reply : list call -> string -> exn + Z;
  Close_reply : list call -> option Z -> exn + unit;
  GetProperty_i32_reply : list call -> option Z -> Z -> Property -> exn + Z;
  GetProperty_i64_reply : list call -> option Z -> Z -> Property -> exn + Z;
  GetProperty_s_reply : list call -> option Z -> Z -> Property -> exn + string;
  SetProperty_i32_reply : list call -> option Z -> Z -> Property -> Z -> exn + unit;
  SetProperty_i64_reply : list call -> option Z -> Z -> Property -> Z -> exn + unit;
  Move_reply : list call -> option Z -> Z -> Z -> exn + unit;
  Stop_reply : list call -> option Z -> Z -> exn + unit;
  sleep_reply : list call -> pynum -> exn + unit
}.

End ctl.

(** The values a caller may pass where the driver expects a move mode:
    [None], a [bool], an [int], a [str], or a member of [ctl.MoveMode]. *)
Inductive pyobj : Type :=
  | PyNone
  | PyBool (b : bool)
  | PyLong (z : Z)
  | PyStr (s : string)
  | PyMoveMode (m : ctl.MoveMode).

(** [str(o)], as an f-string prints [o]. *)
Definition str_of (o : pyobj) : string :=
  match o with
  | PyNone => "None"
  | PyBool true => "True"
  | PyBool false => "False"
  | PyLong z => str_of_int z
  | PyStr s => s
  | PyMoveMode m => "MoveMode." ++ ctl.MoveMode_name m
  end.

(** ** The monad of methods *)

(** The result of running a method: its outcome, the object it worked on
    and the trace of outside calls, both as they are when it stops. *)
Record run (S A : Type) : Type := Run {
  out : outcome A;
  obj : S;
  log : list ctl.call
}.
Arguments Run {S A} out obj log.
Arguments out {S A} r.
Arguments obj {S A} r.
Arguments log {S A} r.

Definition M (S A : Type) : Type := S -> list ctl.call -> run S A.

Definition ret {S A} (a : A) : M S A := fun s t => Run (Ret a) s t.

Definition bind {S A B} (m : M S A) (k : A -> M S B) : M S B :=
  fun s t =>
    match m s t with
    | Run (Ret a) s' t' => k a s' t'
    | Run (Raise e) s' t' => Run (Raise e) s' t'
    | Run Running s' t' => Run Running s' t'
    end.

Declare Scope py_scope.
Delimit Scope py_scope with py.
Notation "x <- m ;; k" := (bind m (fun x => k))
  (at level 100, m at next level, k at level 200, right associativity) : py_scope.
Notation "m ;; k" := (bind m (fun _ => k))
  (at level 100, k at level 200, right associativity) : py_scope.
Local Open Scope py_scope.

Definition raise {S A} (e : exn) : M S A := fun s t => Run (Raise e) s t.

Definition running {S A} : M S A := fun s t => Run Running s t.

Definition get {S} : M S S := fun s t => Run (Ret s) s t.

Definition modify {S} (f : S -> S) : M S unit := fun s t => Run (Ret tt) (f s) t.

(** [try: m except Exception as e: h e]. *)
Definition try_except {S A} (m : M S A) (h : exn -> M S A) : M S A :=
  fun s t =>
    match m s t with
    | Run (Raise e) s' t' => h e s' t'
    | r => r
    end.

(** One outside call: it is appended to the trace and answered from the
    history before it. *)
Definition perform {S A} (c : ctl.call) (reply : list ctl.call -> exn + A) : M S A :=
  fun s t =>
    Run (match reply t with inl e => Raise e | inr a => Ret a end) s (t ++ [c]).

(** Run a method of a part of the object: [part] finds it ([None]: the
    lookup raises [missing]), [store] writes it back in place. *)
Definition zoom {S T A} (part : S -> option T) (store : T -> S -> S)
    (missing : exn) (m : M T A) : M S A :=
  fun s t =>
    match part s with
    | None => Run (Raise missing) s t
    | Some c => let r := m c t in Run (out r) (store (obj r) s) (log r)
    end.

(** A class method has no object. *)
Definition classmethod (A : Type) : Type := M unit A.

Definition lift {S A} (r : exn + A) : M S A :=
  fun s t => Run (match r with inl e => Raise e | inr a => Ret a end) s t.

(** [for x in l: body x]. *)
Fixpoint for_each {S A} (l : list A) (body : A -> M S unit) : M S unit :=
  match l with
  | [] => ret tt
  | x :: l' => body x ;; for_each l' body
  end.

(** [[f x for x in l]], evaluated from the left. *)
Fixpoint for_list {S A B} (l : list A) (f : A -> M S B) : M S (list B) :=
  match l with
  | [] => ret []
  | x :: l' => y <- f x ;; ys <- for_list l' f ;; ret (y :: ys)
  end.

(** *** The functions of [ctl] and [time.sleep] *)
Section Calls.
Context {S : Type} (v : ctl.vendor).

Definition ctl_FindDevices : M S string :=
  perform ctl.call_FindDevices (ctl.FindDevices_reply v).

Definition ctl_Open (locator : string) : M S Z :=
  perform (ctl.call_Open locator) (fun t => ctl.Open_reply v t locator).

Definition ctl_Close (h : option Z) : M S unit :=
  perform (ctl.call_Close h) (fun t => ctl.Close_reply v t h).

Definition ctl_GetProperty_i32 (h : option Z) (idx : Z) (p : ctl.Property) : M S Z :=
  perform (ctl.call_GetProperty_i32 h idx p)
          (fun t => ctl.GetProperty_i32_reply v t h idx p).

Definition ctl_GetProperty_i64 (h : option Z) (idx : Z) (p : ctl.Property) : M S Z :=
  perform (ctl.call_GetProperty_i64 h idx p)
          (fun t => ctl.GetProperty_i64_reply v t h idx p).

Definition ctl_GetProperty_s (h : option Z) (idx : Z) (p : ctl.Property) : M S string :=
  perform (ctl.call_GetProperty_s h idx p)
          (fun t => ctl.GetProperty_s_reply v t h idx p).

Definition ctl_SetProperty_i32 (h : option Z) (idx : Z) (p : ctl.Property) (x : Z)
  : M S unit :=
  perform (ctl.call_SetProperty_i32 h idx p x)
          (fun t => ctl.SetProperty_i32_reply v t h idx p x).

Definition ctl_SetProperty_i64 (h : option Z) (idx : Z) (p : ctl.Property) (x : Z)
  : M S unit :=
  perform (ctl.call_SetProperty_i64 h idx p x)
          (fun t => ctl.SetProperty_i64_reply v t h idx p x).

Definition ctl_Move (h : option Z) (idx : Z) (x : Z) : M S unit :=
  perform (ctl.call_Move h idx x) (fun t => ctl.Move_reply v t h idx x).

Definition ctl_Stop (h : option Z) (idx : Z) : M S unit :=
  perform (ctl.call_Stop h idx) (fun t => ctl.Stop_reply v t h idx).

Definition time_sleep (delay : pynum) : M S unit :=
  perform (ctl.call_sleep delay) (fun t => ctl.sleep_reply v t delay).
End Calls.

(** ** [Stage6DSmarActMCS2._Channel]: one axis *)
Module _Channel.

(** The attributes of a channel object.  [_stage] is a reference to the
    stage; the methods read the stage's handle through it at every call,
    so they take the handle the stage holds at that moment. *)
Record t : Type := Build {
  name : string;
  _handle : Z;
  _status : option Z;
  _movement_mode : ctl.MoveMode;
  _position : option float;
  _sensor : option string;
  _speed : pynum;
  _acceleration : pynum
}.

Definition set__status (x : Z) (c : t) : t :=
  Build (name c) (_handle c) (Some x) (_movement_mode c) (_position c)
        (_sensor c) (_speed c) (_acceleration c).
Definition set__movement_mode (x : ctl.MoveMode) (c : t) : t :=
  Build (name c) (_handle c) (_status c) x (_position c)
        (_sensor c) (_speed c) (_acceleration c).
Definition set__position (x : float) (c : t) : t :=
  Build (name c) (_handle c) (_status c) (_movement_mode c) (Some x)
        (_sensor c) (_speed c) (_acceleration c).
Definition set__sensor (x : string) (c : t) : t :=
  Build (name c) (_handle c) (_status c) (_movement_mode c) (_position c)
        (Some x) (_speed c) (_acceleration c).
Definition set__speed (x : pynum) (c : t) : t :=
  Build (name c) (_handle c) (_status c) (_movement_mode c) (_position c)
        (_sensor c) x (_acceleration c).
Definition set__acceleration (x : pynum) (c : t) : t :=
  Build (name c) (_handle c) (_status c) (_movement_mode c) (_position c)
        (_sensor c) (_speed c) x.

Definition LINEAR_SENSORS (MCS_LOADED : bool) : list string :=
  if MCS_LOADED then
    [ "SL...S1SS"; "SL...S1ME"; "SL...S1SC1"; "SL...T1SS"; "SL...D1SS";
      "SL...D1SC2"; "SL...D1SC1"; "SL...D1ME"; "CT002/AT002" ]
  else [].

Definition __init__ (index : Z) (name : string) : t :=
  Build name index None ctl.CL_RELATIVE None None (PyInt 0) (PyInt 0).

(** The two unit converters.  [1e-6] is not a binary64 value; Python
    reads it as the nearest one, written here in full. *)
Definition _to_micrometer (picometer : pynum) : exn + float :=
  mul_float picometer 0x1.0c6f7a0b5ed8dp-20%float.

Definition _to_picometer (micrometer : pynum) : exn + Z :=
  match mul_float micrometer 1e6%float with
  | inl e => inl e
  | inr f => int_of_float f
  end.

(** The body of [humanized_status], from the status code on. *)
Definition humanize (ChannelState : list (string * Z)) (status_code : Z)
  : list string :=
  let states :=
    map fst
        (List.filter (fun state => negb (Z.land status_code (snd state) =? 0))
                     ChannelState) in
  match states with
  | [] => ["Unknown status code: " ++ str_of_int status_code]
  | _ => states
  end.

Section Methods.
Context (MCS_LOADED : bool) (v : ctl.vendor).
(** [self._stage.handle] *)
Context (stage_handle : option Z).

Definition status : M t Z :=
  self <- get ;;
  code <- ctl_GetProperty_i32 v stage_handle (_handle self) ctl.CHANNEL_STATE ;;
  modify (set__status code) ;;
  ret code.

Definition humanized_status : M t (list string) :=
  status_code <- status ;;
  ret (humanize (ctl.ChannelState v) status_code).

Definition sensor : M t string :=
  self <- get ;;
  x <- ctl_GetProperty_s v stage_handle (_handle self) ctl.POSITIONER_TYPE_NAME ;;
  modify (set__sensor x) ;;
  ret x.

Definition is_sensor_linear : M t bool :=
  x <- sensor ;;
  ret (existsb (String.eqb x) (LINEAR_SENSORS MCS_LOADED)).

Definition position : M t float :=
  self <- get ;;
  position_pm <- ctl_GetProperty_i64 v stage_handle (_handle self) ctl.POSITION ;;
  x <- lift (_to_micrometer (PyInt position_pm)) ;;
  modify (set__position x) ;;
  ret x.

Definition speed : M t pynum :=
  self <- get ;;
  velocity_pmps <-
    ctl_GetProperty_i64 v stage_handle (_handle self) ctl.MOVE_VELOCITY ;;
  x <- lift (_to_micrometer (PyInt velocity_pmps)) ;;
  modify (set__speed (PyFloat x)) ;;
  ret (PyFloat x).

Definition speed_setter (umps : pynum) : M t unit :=
  self <- get ;;
  velocity_pmps <- lift (_to_picometer umps) ;;
  ctl_SetProperty_i64 v stage_handle (_handle self) ctl.MOVE_VELOCITY velocity_pmps ;;
  modify (set__speed umps).

Definition acceleration : M t pynum :=
  self <- get ;;
  acceleration_pmps2 <-
    ctl_GetProperty_i64 v stage_handle (_handle self) ctl.MOVE_ACCELERATION ;;
  x <- lift (_to_micrometer (PyInt acceleration_pmps2)) ;;
  modify (set__acceleration (PyFloat x)) ;;
  ret (PyFloat x).

Definition acceleration_setter (umps2 : pynum) : M t unit :=
  self <- get ;;
  acceleration_pmps2 <- lift (_to_picometer umps2) ;;
  ctl_SetProperty_i64 v stage_handle (_handle self) ctl.MOVE_ACCELERATION
                      acceleration_pmps2 ;;
  modify (set__acceleration umps2).

Definition movement_mode : M t ctl.MoveMode :=
  self <- get ;; ret (_movement_mode self).

Definition movement_mode_setter (mode : pyobj) : M t unit :=
  match mode with
  | PyMoveMode m =>
      self <- get ;;
      ctl_SetProperty_i32 v stage_handle (_handle self) ctl.MOVE_MODE
                          (ctl.MoveMode_value m) ;;
      modify (set__movement_mode m)
  | _ => raise (ValueError ("Invalid movement mode " ++ str_of mode))
  end.

Definition stop : M t unit :=
  self <- get ;; ctl_Stop v stage_handle (_handle self).

Definition move (value : pynum) (mode : pyobj) : M t unit :=
  movement_mode_setter mode ;;
  self <- get ;;
  x <- lift (_to_picometer value) ;;
  ctl_Move v stage_handle (_handle self) x.

Definition find_reference_mark : M t unit :=
  raise NotImplementedError.
End Methods.

End _Channel.

(** ** The axis enumerations of [LabExT.Movement.config] *)

(** The members of an axis enumeration. *)
Module Axis.
Inductive t : Type := X | Y | Z.

Definition name (a : t) : string :=
  match a with X => "X" | Y => "Y" | Z => "Z" end.

Definition eqb (a b : t) : bool :=
  match a, b with
  | X, X | Y, Y | Z, Z => true
  | _, _ => false
  end.

(** Iterating over the enumeration gives its members in this order. *)
Definition members : list t := [X; Y; Z].
End Axis.

(** Modelled from the spec: [Axis_Ch123] and [Axis_Ch456] are declared in
    [LabExT/Movement/config.py], which is not among the sources.  The spec
    has them as "an enumeration of logical axis roles (X, Y, Z) to physical
    channel indices; chosen at construction time based on the address
    suffix".  The indices are taken zero-based, 0 to 2 for the first group
    and 3 to 5 for the second; no theorem below depends on them. *)
Record AxisEnum : Type := { value : Axis.t -> Z }.

Definition Axis_Ch123 : AxisEnum :=
  {| value := fun a => match a with Axis.X => 0 | Axis.Y => 1 | Axis.Z => 2 end |}.

Definition Axis_Ch456 : AxisEnum :=
  {| value := fun a => match a with Axis.X => 3 | Axis.Y => 4 | Axis.Z => 5 end |}.

(** ** Python's [dict], in insertion order *)
Section Dict.
Context {V : Type}.

Fixpoint dict_get (k : Axis.t) (d : list (Axis.t * V)) : option V :=
  match d with
  | [] => None
  | (k', x) :: d' => if Axis.eqb k k' then Some x else dict_get k d'
  end.

(** [d[k] = x]: a present key keeps its place, a new one goes last. *)
Fixpoint dict_set (k : Axis.t) (x : V) (d : list (Axis.t * V)) : list (Axis.t * V) :=
  match d with
  | [] => [(k, x)]
  | (k', y) :: d' =>
      if Axis.eqb k k' then (k, x) :: d' else (k', y) :: dict_set k x d'
  end.
End Dict.

(** ** [Stage6DSmarActMCS2] *)
Module Stage6DSmarActMCS2.

(** The attributes of a stage object.  [address] and [connected] are
    those of the base class [Stage]. *)
Record t : Type := Build {
  address : string;
  connected : bool;
  handle : option Z;
  channels : list (Axis.t * _Channel.t);
  Axis : AxisEnum;
  open_new_connection : bool
}.

Definition set_connected (x : bool) (s : t) : t :=
  Build (address s) x (handle s) (channels s) (Axis s) (open_new_connection s).
Definition set_handle (x : option Z) (s : t) : t :=
  Build (address s) (connected s) x (channels s) (Axis s) (open_new_connection s).
Definition set_channels (x : list (Axis.t * _Channel.t)) (s : t) : t :=
  Build (address s) (connected s) (handle s) x (Axis s) (open_new_connection s).

(** Modelled from the spec: the base class [Stage] and the decorators
    [assert_driver_loaded] and [assert_stage_connected] are declared in
    [LabExT/Movement/Stage.py], which is not among the sources.  From the
    spec: a stage has an "address" and a "connected flag" and starts
    DISCONNECTED; "All public Stage operations except construction
    require: (a) the driver/capability layer is available, (b) the stage
    is currently connected -- violating either fails fast with a distinct
    error (DriverUnavailable vs NotConnected) before any hardware access
    is attempted."  Both errors are [StageError]s with distinct
    messages. *)
Definition DriverUnavailable : exn := StageError "DriverUnavailable".
Definition NotConnected : exn := StageError "NotConnected".

Definition assert_driver_loaded {S A} (driver_loaded : bool) (m : M S A) : M S A :=
  if driver_loaded then m else raise DriverUnavailable.

Definition assert_stage_connected {A} (m : M t A) : M t A :=
  self <- get ;;
  if connected self then m else raise NotConnected.

(** [__init__]: the role of the stage is read off its address. *)
Definition __init__ (address : string) : exn + t :=
  if contains "Ch1-3" address then
    inr (Build address false None [] Axis_Ch123 true)
  else if contains "Ch4-6" address then
    inr (Build address false None [] Axis_Ch456 false)
  else inl (StageError "Stage address does not contain channel suffix.").

Definition address_string (s : t) : string := address s.
Definition identifier (s : t) : string := address_string s.

Section Methods.
(** The module-level flag [MCS_LOADED] (the class attribute
    [driver_loaded]) and the vendor module. *)
Context (MCS_LOADED : bool) (v : ctl.vendor).

(** [self.channels[key].method(...)]: a missing key raises [KeyError];
    the method runs on the channel object, with the handle the stage
    holds. *)
Definition on_channel {A} (key : Axis.t) (m : option Z -> M _Channel.t A)
  : M t A :=
  self <- get ;;
  zoom (fun s => dict_get key (channels s))
       (fun c s => set_channels (dict_set key c (channels s)) s)
       (KeyError (Axis.name key))
       (m (handle self)).

(** *** Helper methods *)

Definition _open_system : M t (option Z) :=
  self <- get ;;
  handle <- ctl_Open v (removesuffix (address self) "_Ch1-3") ;;
  if handle =? 0 then ret None else ret (Some handle).

Definition _raise_if_sensor_non_linear : M t unit :=
  self <- get ;;
  for_each (map fst (channels self)) (fun index =>
    linear <- on_channel index (_Channel.is_sensor_linear MCS_LOADED v) ;;
    if linear then (ret tt : M t unit)
    else raise (StageError ("Channel " ++ Axis.name index ++ " of stage "
                            ++ address self
                            ++ " has no supported linear sensor!"))).

(** *** Stage settings *)

Definition find_reference_mark : M t unit :=
  assert_driver_loaded MCS_LOADED (assert_stage_connected (
    self <- get ;;
    for_each (map fst (channels self)) (fun key =>
      on_channel key (fun _ => _Channel.find_reference_mark)))).

Definition set_speed_xy (umps : pynum) : M t unit :=
  assert_driver_loaded MCS_LOADED (assert_stage_connected (
    on_channel Axis.X (fun h => _Channel.speed_setter v h umps) ;;
    on_channel Axis.Y (fun h => _Channel.speed_setter v h umps))).

Definition get_speed_xy : M t pynum :=
  assert_driver_loaded MCS_LOADED (assert_stage_connected (
    x_speed <- on_channel Axis.X (_Channel.speed v) ;;
    y_speed <- on_channel Axis.Y (_Channel.speed v) ;;
    ret x_speed)).

Definition set_speed_z (umps : pynum) : M t unit :=
  assert_driver_loaded MCS_LOADED (assert_stage_connected (
    on_channel Axis.Z (fun h => _Channel.speed_setter v h umps))).

Definition get_speed_z : M t pynum :=
  assert_driver_loaded MCS_LOADED (assert_stage_connected (
    on_channel Axis.Z (_Channel.speed v))).

Definition set_acceleration_xy (umps2 : pynum) : M t unit :=
  assert_driver_loaded MCS_LOADED (assert_stage_connected (
    on_channel Axis.X (fun h => _Channel.acceleration_setter v h umps2) ;;
    on_channel Axis.Y (fun h => _Channel.acceleration_setter v h umps2))).

Definition get_acceleration_xy : M t pynum :=
  assert_driver_loaded MCS_LOADED (assert_stage_connected (
    x_acceleration <- on_channel Axis.X (_Channel.acceleration v) ;;
    y_acceleration <- on_channel Axis.Y (_Channel.acceleration v) ;;
    ret x_acceleration)).

Definition get_status : M t (list (list string)) :=
  assert_driver_loaded MCS_LOADED (assert_stage_connected (
    self <- get ;;
    for_list (map fst (channels self)) (fun key =>
      on_channel key (_Channel.humanized_status v)))).

Definition is_stopped : M t bool :=
  assert_driver_loaded MCS_LOADED (assert_stage_connected (
    statuses <- get_status ;;
    ret (negb (existsb (fun status =>
                           existsb (String.eqb "ACTIVELY_MOVING") status)
                        statuses)))).

(** *** Setup *)

Definition connect : M t bool :=
  assert_driver_loaded MCS_LOADED (
    self <- get ;;
    if connected self then ret true
    else
      (if open_new_connection self then
         h <- _open_system ;;
         modify (set_handle h) ;;
         match h with
         | Some 1 => ret tt
         | _ => raise (StageError "Expected the handle to be 1.")
         end
       else modify (set_handle (Some 1))) ;;
      self <- get ;;
      match handle self with
      | Some _ =>
          for_each Axis.members (fun ch =>
            modify (fun s =>
              set_channels
                (dict_set ch (_Channel.__init__ (value (Axis s) ch) (Axis.name ch))
                          (channels s)) s)) ;;
          try_except
            (_raise_if_sensor_non_linear ;;
             modify (set_connected true) ;;
             set_speed_xy (PyInt 300) ;;
             set_speed_z (PyInt 20) ;;
             set_acceleration_xy (PyInt 0))
            (fun e =>
               modify (set_connected false) ;;
               modify (set_handle None) ;;
               modify (set_channels []) ;;
               raise e)
      | None => modify (set_connected false)
      end ;;
      self <- get ;;
      ret (connected self)).

Definition disconnect : M t unit :=
  assert_driver_loaded MCS_LOADED (assert_stage_connected (
    self <- get ;;
    (if open_new_connection self then ctl_Close v (handle self) else ret tt) ;;
    modify (set_connected false) ;;
    modify (set_handle None))).

(** *** Movement *)

Definition get_position : M t (list float) :=
  assert_driver_loaded MCS_LOADED (assert_stage_connected (
    x <- on_channel Axis.X (_Channel.position v) ;;
    y <- on_channel Axis.Y (_Channel.position v) ;;
    z <- on_channel Axis.Z (_Channel.position v) ;;
    ret [x; y; z])).

(** [while True: time.sleep(delay); if self.is_stopped: break].  The
    loop has no bound of its own; [fuel] is the number of rounds the
    model follows it for, after which it is still [Running]. *)
Fixpoint _wait_for_stopping (fuel : nat) (delay : pynum) : M t unit :=
  match fuel with
  | O => running
  | S fuel' =>
      time_sleep v delay ;;
      stopped <- is_stopped ;;
      if stopped then ret tt else _wait_for_stopping fuel' delay
  end.

(** The default of [delay], 0.05 as Python reads it. *)
Definition default_delay : pynum := PyFloat 0x1.999999999999ap-5%float.

Definition move_relative (fuel : nat) (x y z : pynum) (wait_for_stopping : bool)
  : M t unit :=
  assert_driver_loaded MCS_LOADED (assert_stage_connected (
    on_channel Axis.X (fun h => _Channel.move v h x (PyMoveMode ctl.CL_RELATIVE)) ;;
    on_channel Axis.Y (fun h => _Channel.move v h y (PyMoveMode ctl.CL_RELATIVE)) ;;
    on_channel Axis.Z (fun h => _Channel.move v h z (PyMoveMode ctl.CL_RELATIVE)) ;;
    if wait_for_stopping then _wait_for_stopping fuel default_delay else ret tt)).

(** [if target is not None: self.channels[key].move(...)] *)
Definition move_if_given (key : Axis.t) (target : option pynum) : M t unit :=
  match target with
  | Some x =>
      on_channel key (fun h => _Channel.move v h x (PyMoveMode ctl.CL_ABSOLUTE))
  | None => ret tt
  end.

Definition move_absolute (fuel : nat) (x y z : option pynum)
    (wait_for_stopping : bool) : M t unit :=
  assert_driver_loaded MCS_LOADED (assert_stage_connected (
    move_if_given Axis.X x ;;
    move_if_given Axis.Y y ;;
    move_if_given Axis.Z z ;;
    if wait_for_stopping then _wait_for_stopping fuel default_delay else ret tt)).

(** *** Discovery *)

Definition is_two_modules (locator : string) : classmethod bool :=
  d_handle <- ctl_Open v locator ;;
  n <- ctl_GetProperty_i32 v (Some d_handle) 0 ctl.NUMBER_OF_BUS_MODULES ;;
  ctl_Close v (Some d_handle) ;;
  ret (n =? 2).

(** The loop over [enumerate(locators.copy())]: [todo] is what is left
    of the copy, [ii] the index of its head, [locators] the list that
    is written to. *)
Fixpoint split_locators (ii : nat) (todo : list string) (locators : list entry)
  : classmethod (list entry) :=
  match todo with
  | [] => ret locators
  | locator :: todo' =>
      two <- is_two_modules locator ;;
      if two then
        split_locators (S ii) todo'
          (<[ii := entry_str (locator ++ "_Ch1-3")]> locators
           ++ [entry_str (locator ++ "_Ch4-6")])
      else
        split_locators (S ii) todo' (<[ii := entry_empty_list]> locators)
  end.

Definition find_stage_addresses : classmethod (list entry) :=
  assert_driver_loaded MCS_LOADED (
    buffer <- ctl_FindDevices v ;;
    if String.eqb buffer "" then ret []
    else
      let locators := str_split newline buffer in
      locators <- split_locators 0 locators (map entry_str locators) ;;
      lift (sorted locators)).
End Methods.

End Stage6DSmarActMCS2.

(** ** A controller on the bench

    Concrete vendors, on which the methods are run in the examples.
    [SmarAct_ChannelState] is the flag table of the MCS2 interface. *)
Definition SmarAct_ChannelState : list (string * Z) :=
  [ ("ACTIVELY_MOVING", 0x1); ("CLOSED_LOOP_ACTIVE", 0x2); ("CALIBRATING", 0x4);
    ("REFERENCING", 0x8); ("MOVE_DELAYED", 0x10); ("SENSOR_PRESENT", 0x20);
    ("IS_CALIBRATED", 0x40); ("IS_REFERENCED", 0x80); ("END_STOP_REACHED", 0x100);
    ("RANGE_LIMIT_REACHED", 0x200); ("FOLLOWING_LIMIT_REACHED", 0x400);
    ("MOVEMENT_FAILED", 0x800); ("IS_STREAMING", 0x1000);
    ("POSITIONER_OVERLOAD", 0x2000); ("OVER_TEMPERATURE", 0x4000);
    ("REFERENCE_MARK", 0x8000); ("IS_PHASED", 0x10000);
    ("POSITIONER_FAULT", 0x20000); ("AMPLIFIER_ENABLED", 0x40000);
    ("IN_POSITION", 0x80000); ("BRAKE_ENABLED", 0x100000) ].

(** A controller that accepts every command.  [session] is the handle
    [Open] hands out, [sensor_of] the positioner type of a channel and
    [state_of] the state of a channel after a given history. *)
Definition bench (session : Z)
    (sensor_of : Z -> string) (state_of : list ctl.call -> Z -> Z) : ctl.vendor :=
  {| ctl.ChannelState := SmarAct_ChannelState;
     ctl.FindDevices_reply := fun _ => inr "";
     ctl.Open_reply := fun _ _ => inr session;
     ctl.Close_reply := fun _ _ => inr tt;
     ctl.GetProperty_i32_reply := fun t _ idx p =>
       match p with
       | ctl.CHANNEL_STATE => inr (state_of t idx)
       | _ => inr 0
       end;
     ctl.GetProperty_i64_reply := fun _ _ _ _ => inr 0;
     ctl.GetProperty_s_reply := fun _ _ idx _ => inr (sensor_of idx);
     ctl.SetProperty_i32_reply := fun _ _ _ _ _ => inr tt;
     ctl.SetProperty_i64_reply := fun _ _ _ _ _ => inr tt;
     ctl.Move_reply := fun _ _ _ _ => inr tt;
     ctl.Stop_reply := fun _ _ _ => inr tt;
     ctl.sleep_reply := fun _ _ => inr tt |}.

(** The same controller during discovery: the module count is asked of the
    session that the last [Open] in the history started. *)
Fixpoint last_opened (t : list ctl.call) (acc : string) : string :=
  match t with
  | [] => acc
  | ctl.call_Open locator :: t' => last_opened t' locator
  | _ :: t' => last_opened t' acc
  end.

Definition rack (buffer : string) (modules : string -> Z) : ctl.vendor :=
  {| ctl.ChannelState := SmarAct_ChannelState;
     ctl.FindDevices_reply := fun _ => inr buffer;
     ctl.Open_reply := fun _ _ => inr 1;
     ctl.Close_reply := fun _ _ => inr tt;
     ctl.GetProperty_i32_reply := fun t _ _ _ => inr (modules (last_opened t ""));
     ctl.GetProperty_i64_reply := fun _ _ _ _ => inr 0;
     ctl.GetProperty_s_reply := fun _ _ _ _ => inr "";
     ctl.SetProperty_i32_reply := fun _ _ _ _ _ => inr tt;
     ctl.SetProperty_i64_reply := fun _ _ _ _ _ => inr tt;
     ctl.Move_reply := fun _ _ _ _ => inr tt;
     ctl.Stop_reply := fun _ _ _ => inr tt;
     ctl.sleep_reply := fun _ _ => inr tt |}.

(** * Vocabulary of the properties

    The definitions that the statements below use: example objects,
    the contract of the spec in its words, predicates on traces and
    on stages, and the parts of the longer methods. *)

Import Stage6DSmarActMCS2.

(** The two logical stages of the controller LOC1, as [__init__] builds
    them. *)
Definition LOC1_Ch1_3 : t := Build "LOC1_Ch1-3" false None [] Axis_Ch123 true.

Definition LOC1_Ch4_6 : t := Build "LOC1_Ch4-6" false None [] Axis_Ch456 false.

(** The integral part of a fraction, towards zero. *)
Definition truncate (q : Q) : Z :=
  if Qle_bool 0 q then Qfloor q else Qceiling q.

(** The contract of the spec, in its words: "to_native(x_um) =
    round(x_um * 1e6)". *)
Definition to_native_spec (x_um : pynum) : exn + Z :=
  match mul_float x_um 1e6%float with
  | inl e => inl e
  | inr p => round_float p
  end.

(** [to_si(to_native(v))] *)
Definition round_trip (v : pynum) : exn + float :=
  match _Channel._to_picometer v with
  | inl e => inl e
  | inr n => _Channel._to_micrometer (PyInt n)
  end.

(** [f == z] for a float and an integer: Python compares the exact
    values. *)
Definition float_eq_int (f : float) (z : Z) : bool :=
  match float_value f with
  | Some q => Qeq_bool q (inject_Z z)
  | None => false
  end.

(** The round trip of the [int] [z] gives back a float of the value
    [z]. *)
Definition round_trip_exact (z : Z) : bool :=
  match round_trip (PyInt z) with
  | inr f => float_eq_int f z
  | inl _ => false
  end.

(** [signed s a]: the integer of the magnitude [a] with the sign bit
    [s]. *)
Definition signed (s : bool) (a : Z) : Z := if s then - a else a.

(** [shr_inv m k r]: the record [r] is [m] shifted right by [k] bits: the
    quotient, the bit shifted out last, and whether anything below it was
    set. *)
Definition shr_inv (m k : Z) (r : shr_record) : Prop :=
  0 <= shr_m r
  /\ exists t, 0 <= t < 2 ^ k
               /\ 2 * m = 2 ^ k * (2 * shr_m r + Z.b2z (shr_r r)) + t
               /\ shr_s r = negb (t =? 0).

(** [extends C t t']: the trace [t'] is [t] followed by calls that all
    satisfy [C]. *)
Definition extends (C : ctl.call -> Prop) (t t' : list ctl.call) : Prop :=
  exists new, t' = (t ++ new)%list /\ Forall C new.

(** [hoare P C m Q]: from an object that satisfies [P], the method [m]
    only adds calls to the trace, every call it adds satisfies [C], and
    its outcome and the object it leaves satisfy [Q]. *)
Definition hoare {S A} (P : S -> Prop) (C : ctl.call -> Prop) (m : M S A)
    (Q : outcome A -> S -> Prop) : Prop :=
  forall s t, P s ->
    extends C t (log (m s t)) /\ Q (out (m s t)) (obj (m s t)).

(** A call on a channel, made with the handle [h]. *)
Definition uses_handle (h : option Z) (c : ctl.call) : Prop :=
  match c with
  | ctl.call_GetProperty_i32 h' _ _ | ctl.call_GetProperty_i64 h' _ _
  | ctl.call_GetProperty_s h' _ _
  | ctl.call_SetProperty_i32 h' _ _ _ | ctl.call_SetProperty_i64 h' _ _ _
  | ctl.call_Move h' _ _ | ctl.call_Stop h' _ => h' = h
  | _ => False
  end.

(** What every method of a channel keeps: the index and the name; and no
    method of a channel loops. *)
Definition channel_kept {A} (c : _Channel.t) (o : outcome A) (c' : _Channel.t) : Prop :=
  _Channel._handle c' = _Channel._handle c
  /\ _Channel.name c' = _Channel.name c
  /\ o <> Running.

(** The axis and the index of every channel, in the order of the dict. *)
Definition indices (chs : list (Axis.t * _Channel.t)) : list (Axis.t * Z) :=
  map (fun kc => (fst kc, _Channel._handle (snd kc))) chs.

(** [same_stage s0 s]: [s] is [s0] up to the cached attributes of its
    channels. *)
Definition same_stage (s0 s : t) : Prop :=
  address s = address s0
  /\ connected s = connected s0
  /\ handle s = handle s0
  /\ Axis s = Axis s0
  /\ open_new_connection s = open_new_connection s0
  /\ indices (channels s) = indices (channels s0).

(** The stage has a channel for every axis. *)
Definition has_axes (s : t) : Prop :=
  forall key, dict_get key (channels s) <> None.

(** What a method that only works on channels keeps, and it does not
    loop. *)
Definition kept {A} (s0 : t) (o : outcome A) (s : t) : Prop :=
  same_stage s0 s /\ o <> Running.

Section ConnectParts.
Context (MCS_LOADED : bool) (v : ctl.vendor).

(** The two halves of [connect], after the test of [self.connected]:
    the stage gets its handle, then it is configured. *)
Definition acquire (self : t) : M t unit :=
  if open_new_connection self then
    h <- _open_system v ;;
    modify (set_handle h) ;;
    match h with
    | Some 1 => ret tt
    | _ => raise (StageError "Expected the handle to be 1.")
    end
  else modify (set_handle (Some 1)).

(** The body of the [try]. *)
Definition sensors_and_defaults : M t unit :=
  _raise_if_sensor_non_linear MCS_LOADED v ;;
  modify (set_connected true) ;;
  set_speed_xy MCS_LOADED v (PyInt 300) ;;
  set_speed_z MCS_LOADED v (PyInt 20) ;;
  set_acceleration_xy MCS_LOADED v (PyInt 0).

(** The [except] clause. *)
Definition roll_back (e : exn) : M t unit :=
  modify (set_connected false) ;;
  modify (set_handle None) ;;
  modify (set_channels []) ;;
  raise e.

(** From [if self.handle is not None] to the [return]. *)
Definition configure : M t bool :=
  self <- get ;;
  match handle self with
  | Some _ =>
      for_each Axis.members (fun ch =>
        modify (fun s =>
          set_channels
            (dict_set ch (_Channel.__init__ (value (Axis s) ch) (Axis.name ch))
                      (channels s)) s)) ;;
      try_except sensors_and_defaults roll_back
  | None => modify (set_connected false)
  end ;;
  self <- get ;;
  ret (connected self).

(** The stage after a roll back. *)
Definition rolled_back (s : t) : Prop :=
  connected s = false /\ handle s = None /\ channels s = [].

End ConnectParts.

(** A read of the state of a channel. *)
Definition status_read (c : ctl.call) : Prop :=
  match c with
  | ctl.call_GetProperty_i32 _ _ ctl.CHANNEL_STATE => True
  | _ => False
  end.

(** What the polling loop may call: [time.sleep] and status reads. *)
Definition poll_call (c : ctl.call) : Prop :=
  ctl.is_sleep c = true \/ status_read c.

(** One round of the loop: the sleep, then the poll. *)
Definition round (loaded : bool) (v : ctl.vendor) (delay : pynum) : M t bool :=
  time_sleep v delay ;; is_stopped loaded v.

(** [nth_poll k s t]: the round number [k] (from 0) of the loop started on
    the stage [s] after the trace [t], when the loop gets that far: every
    round before it has polled and found the stage moving. *)
Fixpoint nth_poll (loaded : bool) (v : ctl.vendor) (delay : pynum) (k : nat)
    (s : t) (tr : list ctl.call) : option (run t bool) :=
  let r := round loaded v delay s tr in
  match k with
  | O => Some r
  | S k' =>
      match out r with
      | Ret false => nth_poll loaded v delay k' (obj r) (log r)
      | _ => None
      end
  end.

(** ['ACTIVELY_MOVING' in status] *)
Definition entry_ACTIVELY_MOVING (status : list string) : bool :=
  existsb (String.eqb "ACTIVELY_MOVING") status.

(** A stage on the bench that reports the moving flag until six calls have
    been made, and the stage [LOC1_Ch1-3] connected to it. *)
Definition settling : ctl.vendor :=
  bench 1 (fun _ => "SL...S1SS")
        (fun t _ => if Z.of_nat (length t) <? 6 then 1 else 0).

Definition LOC1_connected : t :=
  Eval vm_compute in obj (connect true settling LOC1_Ch1_3 []).

(** The [Move] calls of a list of calls, in order. *)
Definition moves_of (calls : list ctl.call) : list ctl.call :=
  List.filter ctl.is_Move calls.

(** The [Move] call that [move_absolute] plans for an axis: none for the
    target [None]; for a value, the call on the channel of the axis with
    the value in picometers. *)
Definition planned_move (s : t) (key : Axis.t) (target : option pynum)
  : list ctl.call :=
  match target with
  | Some x =>
      match dict_get key (channels s), _Channel._to_picometer x with
      | Some c, inr pm => [ctl.call_Move (handle s) (_Channel._handle c) pm]
      | _, _ => []
      end
  | None => []
  end.

(** The plan of [move_absolute(x, y, z)]: X, then Y, then Z. *)
Definition planned_moves (s : t) (x y z : option pynum) : list ctl.call :=
  (planned_move s Axis.X x ++ planned_move s Axis.Y y ++ planned_move s Axis.Z z)%list.

(** [issues s0 plan m]: on a stage that is [s0] up to the caches, [m]
    keeps the stage and does not loop; the [Move] calls it makes are the
    first ones of [plan], and all of [plan] unless it raises. *)
Definition issues (s0 : t) (plan : list ctl.call) (m : M t unit) : Prop :=
  forall s t, same_stage s0 s ->
    same_stage s0 (obj (m s t))
    /\ out (m s t) <> Running
    /\ exists new, log (m s t) = (t ++ new)%list
                   /\ (exists later, plan = (moves_of new ++ later)%list)
                   /\ (is_Raise (out (m s t)) = false -> moves_of new = plan).

(** What the discovery loop leaves in [locators]: in place of a locator
    its first half or [[]], and at the end the second halves. *)
Definition first_half (modules : string -> Z) (locator : string) : entry :=
  if modules locator =? 2 then entry_str (locator ++ "_Ch1-3") else entry_empty_list.

Definition second_halves (modules : string -> Z) (locators : list string)
  : list entry :=
  map (fun locator => entry_str (locator ++ "_Ch4-6"))
      (List.filter (fun locator => modules locator =? 2) locators).

(** The two kinds of entries, and one step of [sorted]. *)
Definition is_str (e : entry) : bool :=
  match e with entry_str _ => true | entry_empty_list => false end.

Definition sort_step (acc : exn + list entry) (x : entry) : exn + list entry :=
  match acc with inl e => inl e | inr r => insert_sorted x r end.

(** The enumeration ["A\nB"]. *)
Definition A_and_B : string := String "A" (String newline "B").

(** A sensor type that the driver takes for a linear sensor
    ([self.sensor in self.LINEAR_SENSORS], with the driver loaded). *)
Definition is_linear (sensor : string) : bool :=
  existsb (String.eqb sensor) (_Channel.LINEAR_SENSORS true).

(** The calls of [connect] on the channel [idx], all with the handle 1:
    the read of the sensor type, the write of a velocity and of an
    acceleration, in picometers. *)
Definition sensor_read (idx : Z) : ctl.call :=
  ctl.call_GetProperty_s (Some 1) idx ctl.POSITIONER_TYPE_NAME.

Definition velocity_write (idx pm : Z) : ctl.call :=
  ctl.call_SetProperty_i64 (Some 1) idx ctl.MOVE_VELOCITY pm.

Definition acceleration_write (idx pm : Z) : ctl.call :=
  ctl.call_SetProperty_i64 (Some 1) idx ctl.MOVE_ACCELERATION pm.

(** The calls of a [connect] that succeeds, once the stage has its
    handle. *)
Definition configuration (ax : AxisEnum) : list ctl.call :=
  [ sensor_read (value ax Axis.X); sensor_read (value ax Axis.Y);
    sensor_read (value ax Axis.Z);
    velocity_write (value ax Axis.X) 300000000;
    velocity_write (value ax Axis.Y) 300000000;
    velocity_write (value ax Axis.Z) 20000000;
    acceleration_write (value ax Axis.X) 0;
    acceleration_write (value ax Axis.Y) 0 ].

(** The channel of the axis [a] as a [connect] that succeeds leaves it:
    the sensor type is cached, the speed and the acceleration are the
    defaults as [connect] passed them, the rest is as constructed. *)
Definition configured_channel (ax : AxisEnum) (a : Axis.t) (sensor : string)
  : _Channel.t :=
  _Channel.Build (Axis.name a) (value ax a) None ctl.CL_RELATIVE None (Some sensor)
                 (PyInt (match a with Axis.Z => 20 | _ => 300 end)) (PyInt 0).

(** The channels a stage can have when [connect] starts: none, as after
    the construction or a roll back, or those of the three axes in order,
    as an earlier [connect] left them ([disconnect] keeps them). *)
Definition fresh_or_wired (s : t) : Prop :=
  map fst (channels s) = [] \/ map fst (channels s) = Axis.members.

(** The trace once [connect] has its handle: a primary stage has called
    [Open]. *)
Definition opened (s : t) (tr : list ctl.call) : list ctl.call :=
  if open_new_connection s
  then (tr ++ [ctl.call_Open (removesuffix (address s) "_Ch1-3")])%list
  else tr.

(** A bench controller whose 64-bit properties all read [reading]. *)
Definition bench_reading (reading : Z) : ctl.vendor :=
  {| ctl.ChannelState := SmarAct_ChannelState;
     ctl.FindDevices_reply := fun _ => inr "";
     ctl.Open_reply := fun _ _ => inr 1;
     ctl.Close_reply := fun _ _ => inr tt;
     ctl.GetProperty_i32_reply := fun _ _ _ _ => inr 0;
     ctl.GetProperty_i64_reply := fun _ _ _ _ => inr reading;
     ctl.GetProperty_s_reply := fun _ _ _ _ => inr "SL...S1SS";
     ctl.SetProperty_i32_reply := fun _ _ _ _ _ => inr tt;
     ctl.SetProperty_i64_reply := fun _ _ _ _ _ => inr tt;
     ctl.Move_reply := fun _ _ _ _ => inr tt;
     ctl.Stop_reply := fun _ _ _ => inr tt;
     ctl.sleep_reply := fun _ _ => inr tt |}.

(** [keeps_stage m]: started on a stage that is [s0] up to the caches of
    its channels, [m] makes only calls on channels, with the handle of
    [s0], leaves a stage that is [s0] up to these caches, and does not
    loop.  [polls_and_keeps_stage m] allows [time.sleep] among the calls,
    and a wait that has not ended. *)
Definition keeps_stage {A} (m : M t A) : Prop :=
  forall s0, hoare (same_stage s0) (uses_handle (handle s0)) m (kept s0).

Definition polls_and_keeps_stage {A} (m : M t A) : Prop :=
  forall s0,
    hoare (same_stage s0)
          (fun c => uses_handle (handle s0) c \/ ctl.is_sleep c = true)
          m (fun _ s => same_stage s0 s).




(** The calls of one round of the wait on a stage with the handle [h]
    and the channels of indices [ix], [iy], [iz]: the sleep, then the
    read of the state of each channel. *)
Definition poll_round (delay : pynum) (h : option Z) (ix iy iz : Z) : list ctl.call :=
  [ ctl.call_sleep delay;
    ctl.call_GetProperty_i32 h ix ctl.CHANNEL_STATE;
    ctl.call_GetProperty_i32 h iy ctl.CHANNEL_STATE;
    ctl.call_GetProperty_i32 h iz ctl.CHANNEL_STATE ].


(** The target of an axis in picometers; [None] stays [None]. *)
Definition target_pm (target : option pynum) : exn + option Z :=
  match target with
  | None => inr None
  | Some x => match _Channel._to_picometer x with
              | inl e => inl e
              | inr pm => inr (Some pm)
              end
  end.

(** The calls of an absolute move of the channel [idx], with the handle
    [h]: the mode [CL_ABSOLUTE] (0) is written, then the move is sent;
    none without a target. *)
Definition absolute_move (h : option Z) (idx : Z) (target : option Z)
  : list ctl.call :=
  match target with
  | Some pm => [ctl.call_SetProperty_i32 h idx ctl.MOVE_MODE 0; ctl.call_Move h idx pm]
  | None => []
  end.

(** The controller accepts a write of a 32-bit property or a move made
    after the trace [tr], and a list of them made one after the other. *)
Definition accepted (v : ctl.vendor) (tr : list ctl.call) (c : ctl.call) : Prop :=
  match c with
  | ctl.call_SetProperty_i32 h idx p x =>
      ctl.SetProperty_i32_reply v tr h idx p x = inr tt
  | ctl.call_Move h idx pm => ctl.Move_reply v tr h idx pm = inr tt
  | _ => False
  end.

Fixpoint accepts (v : ctl.vendor) (tr : list ctl.call) (calls : list ctl.call)
  : Prop :=
  match calls with
  | [] => True
  | c :: calls' => accepted v tr c /\ accepts v (tr ++ [c])%list calls'
  end.

(** The polls of a wait with the delay [delay], on a stage with the
    handle [h] and the channels of indices [ix], [iy] and [iz], in terms
    of what the controller answers. *)
Section Polls.
Context (v : ctl.vendor) (delay : pynum) (h : option Z) (ix iy iz : Z).

(** A status code with a bit of a flag named ACTIVELY_MOVING set. *)
Definition reports_moving (code : Z) : Prop :=
  exists value, In ("ACTIVELY_MOVING", value) (ctl.ChannelState v)
                /\ Z.land code value <> 0.

(** The round that starts after the trace [tr] sleeps, and reads the
    codes [kx], [ky] and [kz] as the states of the three channels. *)
Definition polled (tr : list ctl.call) (kx ky kz : Z) : Prop :=
  let read idx := ctl.call_GetProperty_i32 h idx ctl.CHANNEL_STATE in
  let t1 := (tr ++ [ctl.call_sleep delay])%list in
  ctl.sleep_reply v tr delay = inr tt
  /\ ctl.GetProperty_i32_reply v t1 h ix ctl.CHANNEL_STATE = inr kx
  /\ ctl.GetProperty_i32_reply v (t1 ++ [read ix])%list h iy ctl.CHANNEL_STATE = inr ky
  /\ ctl.GetProperty_i32_reply v (t1 ++ [read ix; read iy])%list h iz ctl.CHANNEL_STATE
     = inr kz.

(** The poll of that round observes a channel that reports the flag, or
    no channel reporting it. *)
Definition observes_moving (tr : list ctl.call) : Prop :=
  exists kx ky kz,
    polled tr kx ky kz
    /\ (reports_moving kx \/ reports_moving ky \/ reports_moving kz).

Definition observes_stopped (tr : list ctl.call) : Prop :=
  exists kx ky kz,
    polled tr kx ky kz
    /\ ~ reports_moving kx /\ ~ reports_moving ky /\ ~ reports_moving kz.

(** The trace when the round [j] (from 0) of a wait begins that started
    after [tr], every round before it having polled. *)
Definition round_start (tr : list ctl.call) (j : nat) : list ctl.call :=
  (tr ++ concat (repeat (poll_round delay h ix iy iz) j))%list.

(** The round [k] is the first one whose poll observes no channel
    reporting the flag. *)
Definition stops_in_round (tr : list ctl.call) (k : nat) : Prop :=
  (forall j, (j < k)%nat -> observes_moving (round_start tr j))
  /\ observes_stopped (round_start tr k).
End Polls.

(** * Properties *)

(** ** The channel status *)

Lemma filter_no_flag (table : list (string * Z)) :
  List.filter (fun state : string * Z => negb (Z.land 0 (snd state) =? 0)) table = [].
Proof.
  induction table as [|state table IH]; simpl; auto.
Qed.

Lemma humanize_nonempty (table : list (string * Z)) (code : Z) :
  _Channel.humanize table code <> [].
Proof.
  unfold _Channel.humanize.
  destruct (map fst _) as [|name names] eqn:E; discriminate.
Qed.

(** C9: for every status code the humanized status is a non-empty list;
    for the code 0, which has no flag set, it is the single placeholder
    entry ["Unknown status code: 0"], whatever the flag table; and the
    property [humanized_status] returns that list for the code the
    controller reports (it raises what the read raises). *)
Theorem humanized_status_nonempty :
  (forall table code, _Channel.humanize table code <> [])
  /\ (forall table, _Channel.humanize table 0 = ["Unknown status code: 0"])
  /\ (forall v h c t,
         out (_Channel.humanized_status v h c t)
         = match ctl.GetProperty_i32_reply v t h (_Channel._handle c) ctl.CHANNEL_STATE with
           | inl e => Raise e
           | inr code => Ret (_Channel.humanize (ctl.ChannelState v) code)
           end).
Proof.
  split; [exact humanize_nonempty|]. split.
  - intros table. unfold _Channel.humanize. now rewrite filter_no_flag.
  - intros v h c t.
    unfold _Channel.humanized_status, _Channel.status, ctl_GetProperty_i32,
      bind, get, perform, modify, ret; simpl.
    now destruct (ctl.GetProperty_i32_reply v t h (_Channel._handle c) ctl.CHANNEL_STATE).
Qed.

(** ** The movement mode *)

(** C8, as the code has it: a value that is not a member of [ctl.MoveMode]
    is rejected with [ValueError] before any call is made, and the channel
    is left as it was; every member of [ctl.MoveMode], closed-loop or not,
    is written to the controller. *)
Theorem movement_mode_rejects_non_members :
  (forall v h mode c t,
      (forall m, mode <> PyMoveMode m) ->
      _Channel.movement_mode_setter v h mode c t
      = Run (Raise (ValueError ("Invalid movement mode " ++ str_of mode))) c t)
  /\ (forall v h m c t,
         log (_Channel.movement_mode_setter v h (PyMoveMode m) c t)
         = (t ++ [ctl.call_SetProperty_i32 h (_Channel._handle c) ctl.MOVE_MODE
                                           (ctl.MoveMode_value m)])%list).
Proof.
  split.
  - intros v h mode c t Hmode.
    destruct mode; try reflexivity. now destruct (Hmode m).
  - intros v h m c t.
    unfold _Channel.movement_mode_setter, ctl_SetProperty_i32, bind, get,
      perform, modify; simpl.
    now destruct (ctl.SetProperty_i32_reply _ _ _ _ _ _).
Qed.

Lemma movement_mode_rejects_non_members_witness :
  (forall m, PyStr "fast" <> PyMoveMode m)
  /\ _Channel.movement_mode_setter (bench 1 (fun _ => "") (fun _ _ => 0)) (Some 1)
       (PyStr "fast") (_Channel.__init__ 0 "X") []
     = Run (Raise (ValueError "Invalid movement mode fast")) (_Channel.__init__ 0 "X") [].
Proof.
  split; [discriminate|].
  apply (proj1 movement_mode_rejects_non_members); discriminate.
Defined.

(** The claim C8 as the spec words it fails: [STEP] is neither RELATIVE
    nor ABSOLUTE, and the setter accepts it and writes it to the
    controller. *)
Lemma movement_mode_accepts_STEP :
  let r := _Channel.movement_mode_setter (bench 1 (fun _ => "") (fun _ _ => 0)) (Some 1)
             (PyMoveMode ctl.STEP) (_Channel.__init__ 0 "X") [] in
  PyMoveMode ctl.STEP <> PyMoveMode ctl.CL_RELATIVE
  /\ PyMoveMode ctl.STEP <> PyMoveMode ctl.CL_ABSOLUTE
  /\ out r = Ret tt
  /\ log r = [ctl.call_SetProperty_i32 (Some 1) 0 ctl.MOVE_MODE 4]
  /\ _Channel._movement_mode (obj r) = ctl.STEP.
Proof. repeat split; discriminate. Qed.

(** ** Disconnecting *)

(** C7: [disconnect] on a secondary stage makes no call at all, so no
    [Close]; on a connected one it returns with the stage marked
    disconnected and the handle dropped.  A connected primary stage makes
    exactly one call, the [Close] of its handle. *)
Theorem disconnect_secondary_never_closes :
  forall MCS_LOADED v s t,
    open_new_connection s = false ->
    log (disconnect MCS_LOADED v s t) = t
    /\ (MCS_LOADED = true -> connected s = true ->
        disconnect MCS_LOADED v s t
        = Run (Ret tt) (set_handle None (set_connected false s)) t)
    /\ (forall s', MCS_LOADED = true -> connected s' = true ->
        open_new_connection s' = true ->
        log (disconnect MCS_LOADED v s' t) = (t ++ [ctl.call_Close (handle s')])%list).
Proof.
  intros loaded v s t Hsec. repeat split.
  - unfold disconnect, assert_driver_loaded, assert_stage_connected, bind, get,
      raise, modify, ret.
    destruct loaded; [|reflexivity].
    destruct (connected s); [|reflexivity].
    now rewrite Hsec.
  - intros -> Hcon.
    unfold disconnect, assert_driver_loaded, assert_stage_connected, bind, get,
      raise, modify, ret.
    now rewrite Hcon, Hsec.
  - intros s' -> Hcon Hprim.
    unfold disconnect, assert_driver_loaded, assert_stage_connected, bind, get,
      raise, modify, ret, ctl_Close, perform.
    rewrite Hcon, Hprim.
    now destruct (ctl.Close_reply v t (handle s')).
Qed.

Lemma disconnect_secondary_never_closes_witness :
  let v := bench 1 (fun _ => "SL...S1SS") (fun _ _ => 0) in
  let s := set_connected true (set_handle (Some 1) LOC1_Ch4_6) in
  let s' := set_connected true (set_handle (Some 1) LOC1_Ch1_3) in
  open_new_connection s = false
  /\ log (disconnect true v s []) = []
  /\ disconnect true v s [] = Run (Ret tt) LOC1_Ch4_6 []
  /\ log (disconnect true v s' []) = [ctl.call_Close (Some 1)].
Proof.
  intros v s s'.
  destruct (disconnect_secondary_never_closes true v s [] eq_refl) as (H1 & H2 & H3).
  split; [reflexivity|]. split; [exact H1|]. split.
  - exact (H2 eq_refl eq_refl).
  - exact (H3 s' eq_refl eq_refl eq_refl).
Defined.

(** ** The unit converters *)

Lemma int_of_float_truncates (f : float) (q : Q) :
  float_value f = Some q -> int_of_float f = inr (truncate q).
Proof.
  unfold float_value, int_of_float, truncate.
  destruct (Prim2SF f) as [s| s | |s m e]; try discriminate.
  - intros [= <-]. reflexivity.
  - intros [= <-]. f_equal.
    destruct (Z.leb_spec 0 e) as [He|He].
    + rewrite Z.shiftl_mul_pow2 by assumption.
      destruct s.
      * assert (Hq : Qle_bool 0 (inject_Z (Z.neg m * 2 ^ e)) = false).
        { unfold Qle_bool, inject_Z; simpl. apply Z.leb_gt.
          assert (0 < 2 ^ e) by (apply Z.pow_pos_nonneg; lia). nia. }
        rewrite Hq, Qceiling_Z. change (Z.neg m) with (- Z.pos m). lia.
      * assert (Hq : Qle_bool 0 (inject_Z (Z.pos m * 2 ^ e)) = true).
        { unfold Qle_bool, inject_Z; simpl. apply Z.leb_le.
          assert (0 < 2 ^ e) by (apply Z.pow_pos_nonneg; lia). nia. }
        now rewrite Hq, Qfloor_Z.
    + assert (Hd : 0 < 2 ^ (- e)) by (apply Z.pow_pos_nonneg; lia).
      replace (Z.shiftl (Z.pos m) e) with (Z.pos m / 2 ^ (- e))
        by (rewrite <- (Z.opp_involutive e) at 2;
            rewrite Z.shiftl_opp_r, Z.shiftr_div_pow2 by lia; reflexivity).
      destruct s.
      * cbn [Qle_bool Qnum Qden]. unfold Qceiling, Qfloor, Qopp.
        cbn [Qnum Qden]. rewrite Z2Pos.id by assumption.
        reflexivity.
      * cbn [Qle_bool Qnum Qden]. unfold Qfloor.
        cbn [Qnum Qden]. rewrite Z2Pos.id by assumption.
        reflexivity.
Qed.

(** The claim C4 as the spec words it fails at 2^-20 micrometer (0.95...
    picometer): the code gives 0, rounding gives 1. *)
Lemma to_picometer_is_not_round :
  _Channel._to_picometer (PyFloat 0x1p-20%float) = inr 0
  /\ to_native_spec (PyFloat 0x1p-20%float) = inr 1.
Proof. split; vm_compute; reflexivity. Qed.

(** C4, as the code has it: [_to_picometer x] is the integral part,
    towards zero, of the float product [x * 1e6]. *)
Theorem to_picometer_truncates (x : pynum) (p : float) (q : Q) :
  mul_float x 1e6%float = inr p ->
  float_value p = Some q ->
  _Channel._to_picometer x = inr (truncate q).
Proof.
  intros Hp Hq. unfold _Channel._to_picometer. rewrite Hp.
  now apply int_of_float_truncates.
Qed.

Lemma to_picometer_truncates_witness :
  mul_float (PyFloat 0x1p-20%float) 1e6%float = inr 0x1.e848p-1%float
  /\ float_value 0x1.e848p-1%float = Some (8589934592000000 # 9007199254740992)
  /\ _Channel._to_picometer (PyFloat 0x1p-20%float)
     = inr (truncate (8589934592000000 # 9007199254740992)).
Proof.
  split; [vm_compute; reflexivity|]. split; [vm_compute; reflexivity|].
  apply (to_picometer_truncates (PyFloat 0x1p-20%float) 0x1.e848p-1%float);
    vm_compute; reflexivity.
Defined.

(** The claim C5 as the spec words it fails at the integral value
    576460752305: the product with [1e6] needs more than 53 bits, and the
    round trip ends one step below the value. *)
Lemma round_trip_not_exact :
  _Channel._to_picometer (PyInt 576460752305) = inr 576460752304999936
  /\ round_trip (PyInt 576460752305) = inr 0x1.0c6f7a0b61fffp+39%float
  /\ float_value 0x1.0c6f7a0b61fffp+39%float = Some (4722366482882559 # 8192)
  /\ round_trip_exact 576460752305 = false.
Proof. repeat split; vm_compute; reflexivity. Qed.

(** An integral value passed as a [float] takes the same round trip as
    the [int]: Python converts the [int] to that [float] first. *)
Lemma round_trip_float_of_int (z : Z) (f : float) :
  round_trip (PyInt z) = inr f ->
  round_trip (PyFloat (float_of_Z z)) = inr f.
Proof.
  unfold round_trip, _Channel._to_picometer, mul_float, float_of_int.
  now destruct (PrimFloat.is_infinity (float_of_Z z)).
Qed.

Lemma round_trip_exact_spec (z : Z) :
  round_trip_exact z = true ->
  exists f, round_trip (PyInt z) = inr f
            /\ round_trip (PyFloat (float_of_Z z)) = inr f
            /\ float_eq_int f z = true.
Proof.
  unfold round_trip_exact. intros H.
  destruct (round_trip (PyInt z)) as [e|f] eqn:Hf; [discriminate|].
  exists f. split; [reflexivity|]. split; [|assumption].
  now apply round_trip_float_of_int.
Qed.

(** ** Binary64 arithmetic on integers *)

Lemma digits2_pos_size p : digits2_pos p = Pos.size p.
Proof. induction p; cbn; congruence. Qed.

Lemma digits_spec (p : positive) :
  2 ^ (Z.pos (digits2_pos p) - 1) <= Z.pos p < 2 ^ Z.pos (digits2_pos p).
Proof.
  rewrite digits2_pos_size.
  pose proof (Pos.size_gt p) as Hgt. pose proof (Pos.size_le p) as Hle.
  apply Pos2Z.pos_lt_pos in Hgt. apply Pos2Z.pos_le_pos in Hle.
  rewrite Pos2Z.inj_pow in Hgt, Hle. pose proof (Pos2Z.inj_xO p) as Hp.
  replace (Z.pos (Pos.size p)) with (Z.succ (Z.pos (Pos.size p) - 1)) in Hle by lia.
  rewrite Z.pow_succ_r in Hle by lia. lia.
Qed.

Lemma digits_unique (p : positive) (d : Z) :
  2 ^ (d - 1) <= Z.pos p < 2 ^ d -> Z.pos (digits2_pos p) = d.
Proof.
  intros [Hlo Hhi]. pose proof (digits_spec p) as [Hlo' Hhi'].
  set (n := Z.pos (digits2_pos p)) in *.
  assert (Hd : 0 < d).
  { destruct (Z.lt_trichotomy d 0) as [H|[H|H]]; [|subst d; cbn in Hhi; lia|assumption].
    rewrite Z.pow_neg_r in Hhi by assumption. lia. }
  destruct (Z.lt_trichotomy n d) as [H|[H|H]]; [|assumption|].
  - assert (2 ^ n <= 2 ^ (d - 1)) by (apply Z.pow_le_mono_r; lia). lia.
  - assert (2 ^ d <= 2 ^ (n - 1)) by (apply Z.pow_le_mono_r; lia). lia.
Qed.

Lemma shr_inv_start m : 0 <= m -> shr_inv m 0 (Build_shr_record m false false).
Proof. intros Hm. split; [assumption|]. exists 0. cbn. lia. Qed.

Lemma shr_inv_step m k r :
  0 <= k -> shr_inv m k r -> shr_inv m (k + 1) (shr_1 r).
Proof.
  intros Hk (Hq & t & Ht & Hm & Hs). destruct r as [q b s]. unfold shr_inv. cbn in *.
  assert (HX : 0 < 2 ^ k) by (apply Z.pow_pos_nonneg; lia).
  rewrite Z.pow_add_r, Z.pow_1_r by lia.
  set (X := 2 ^ k) in *.
  assert (Hsticky : (b || s) = negb (X * Z.b2z b + t =? 0)).
  { subst s. destruct b; cbn.
    - symmetry. apply negb_true_iff, Z.eqb_neq. lia.
    - now rewrite Z.mul_0_r. }
  destruct q as [|[p|p|]|p]; cbn; try lia;
    (split; [lia|]; exists (X * Z.b2z b + t);
     split; [destruct b; cbn; lia|]; split; [|exact Hsticky]).
  - lia.
  - rewrite Pos2Z.inj_xI in Hm. cbn. lia.
  - rewrite Pos2Z.inj_xO in Hm. cbn. lia.
  - cbn. lia.
Qed.

Lemma shr_inv_iter m p : forall k r,
  0 <= k -> shr_inv m k r -> shr_inv m (k + Z.pos p) (SpecFloat.iter_pos shr_1 p r).
Proof.
  induction p as [p IH|p IH|]; intros k r Hk Hr; cbn [SpecFloat.iter_pos].
  - replace (k + Z.pos p~1) with (k + 1 + Z.pos p + Z.pos p) by lia.
    apply IH; [lia|]. apply IH; [lia|]. now apply shr_inv_step.
  - replace (k + Z.pos p~0) with (k + Z.pos p + Z.pos p) by lia.
    apply IH; [lia|]. now apply IH.
  - now apply shr_inv_step.
Qed.

(** Rounding to nearest: a record of [P] shifted by [k] bits rounds to
    [T] when [P] is less than half a unit away from [T * 2 ^ k]. *)
Lemma round_nearest (P k T : Z) (r : shr_record) :
  0 <= k -> shr_inv P k r ->
  2 ^ k * (2 * T - 1) < 2 * P < 2 ^ k * (2 * T + 1) ->
  round_nearest_even (shr_m r) (loc_of_shr_record r) = T.
Proof.
  intros Hk (Hq & t & Ht & Hm & Hs) HT. destruct r as [q b s]. cbn in *.
  assert (HX : 0 < 2 ^ k) by (apply Z.pow_pos_nonneg; lia).
  set (X := 2 ^ k) in *. clearbody X.
  assert (Hhi : 2 * q + Z.b2z b <= 2 * T) by nia.
  assert (Hlo : 2 * T - 1 <= 2 * q + Z.b2z b) by nia.
  destruct b; cbn in *.
  - assert (q = T - 1) by lia. subst q.
    assert (t <> 0) by lia.
    assert (Hset : negb (t =? 0) = true) by now apply negb_true_iff, Z.eqb_neq.
    rewrite Hset in Hs. subst s. unfold round_nearest_even. lia.
  - assert (q = T) by lia. subst q. now destruct s.
Qed.

Lemma fexp_normal (x : Z) : -1021 <= x -> fexp prec emax x = x - 53.
Proof. intros Hx. unfold fexp, emin, prec, emax. lia. Qed.

(** [binary_round_aux] on an exact mantissa [P] of [53 + k] bits that is
    less than half a unit away from [T * 2 ^ k], in the normal range. *)
Lemma binary_round_aux_nearest (s : bool) (P : positive) (e k T : Z) :
  Z.pos (digits2_pos P) = 53 + k -> 0 <= k ->
  -1074 <= e + k <= 971 ->
  2 ^ 52 <= T < 2 ^ 53 ->
  2 ^ k * (2 * T - 1) < 2 * Z.pos P < 2 ^ k * (2 * T + 1) ->
  binary_round_aux prec emax s (Z.pos P) e loc_Exact
  = S754_finite s (Z.to_pos T) (e + k).
Proof.
  intros Hd Hk He HT Hnear.
  assert (Hpos : 0 < T) by (assert (0 < 2 ^ 52) by reflexivity; lia).
  assert (HdT : Z.pos (digits2_pos (Z.to_pos T)) = 53).
  { apply digits_unique. rewrite Z2Pos.id by assumption. exact HT. }
  assert (Hsecond : shr_fexp prec emax T (e + k) loc_Exact
                    = (Build_shr_record T false false, e + k)).
  { unfold shr_fexp. destruct T as [|t|t]; try lia.
    cbn [Zdigits2]. cbn [Z.to_pos] in HdT. rewrite HdT, fexp_normal by lia.
    replace (53 + (e + k) - 53 - (e + k)) with 0 by lia. reflexivity. }
  unfold binary_round_aux.
  assert (Hfirst : exists r, shr_fexp prec emax (Z.pos P) e loc_Exact = (r, e + k)
                             /\ round_nearest_even (shr_m r) (loc_of_shr_record r) = T).
  { unfold shr_fexp. cbn [Zdigits2]. rewrite Hd, fexp_normal by lia.
    replace (53 + k + e - 53 - e) with k by lia.
    cbn [shr_record_of_loc]. destruct k as [|pk|pk]; [| |lia].
    - eexists. split; [cbn [shr]; now rewrite Z.add_0_r|].
      cbn. cbn in Hnear. lia.
    - eexists. split; [reflexivity|].
      apply (round_nearest (Z.pos P) (Z.pos pk)); [lia| |assumption].
      apply (shr_inv_iter (Z.pos P) pk 0); [lia|]. now apply shr_inv_start. }
  destruct Hfirst as (r & -> & Hround). rewrite Hround.
  rewrite Hsecond. cbn [shr_m].
  destruct T as [|t|t]; try lia. cbn [Z.to_pos].
  replace (e + k <=? emax - prec) with true; [reflexivity|].
  symmetry. apply Z.leb_le. unfold emax, prec. lia.
Qed.

(** [float(N)] for an integer [N] that fits in 53 bits, up to a power of
    two: the mantissa [T] is [N] with its leading bit moved to bit 52. *)
Lemma binary_round_exact (s : bool) (N : positive) (d T : Z) :
  Z.pos (digits2_pos N) = d -> d <= 1024 ->
  2 ^ 52 <= T < 2 ^ 53 ->
  (d <= 53 -> T = Z.pos N * 2 ^ (53 - d)) ->
  (53 < d -> Z.pos N = T * 2 ^ (d - 53)) ->
  binary_round prec emax s N 0 = S754_finite s (Z.to_pos T) (d - 53).
Proof.
  intros Hd Hmax HT Hsmall Hlarge.
  assert (Hpos : 0 < d) by lia.
  unfold binary_round. rewrite Hd, Z.add_0_r, fexp_normal by lia.
  unfold shl_align. rewrite Z.sub_0_r.
  destruct (d - 53) as [|p|p] eqn:Hshift.
  - rewrite (binary_round_aux_nearest s N 0 0 T); try lia; [reflexivity|].
    rewrite Hsmall by lia. replace (53 - d) with 0 by lia.
    rewrite Z.pow_0_r. lia.
  - rewrite (binary_round_aux_nearest s N 0 (Z.pos p) T); try lia. reflexivity.
  - assert (HP : Z.pos (Pos.iter xO N p) = T).
    { change (Pos.iter xO N p) with (shift_pos p N).
      rewrite shift_pos_correct, Zpower_pos_nat, Zpower_nat_Z, positive_nat_Z.
      rewrite Hsmall by lia. replace (53 - d) with (Z.pos p) by lia. lia. }
    rewrite (binary_round_aux_nearest s _ (Z.neg p) 0 T); try lia.
    + now rewrite Z.add_0_r.
    + apply digits_unique. now rewrite HP.
Qed.

(** A value built by [SF2Prim] from a normal number is that number. *)
Lemma Prim2SF_normal (s : bool) (T e : Z) :
  2 ^ 52 <= T < 2 ^ 53 -> -1074 <= e <= 971 ->
  Prim2SF (SF2Prim (S754_finite s (Z.to_pos T) e)) = S754_finite s (Z.to_pos T) e.
Proof.
  intros HT He. apply FloatAxioms.Prim2SF_SF2Prim.
  unfold valid_binary, bounded, canonical_mantissa.
  assert (Hpos : 0 < T) by (assert (0 < 2 ^ 52) by reflexivity; lia).
  rewrite (digits_unique (Z.to_pos T) 53) by (now rewrite Z2Pos.id).
  rewrite fexp_normal by lia. unfold emax, prec.
  apply andb_true_iff. split; [apply Z.eqb_eq|apply Z.leb_le]; lia.
Qed.

Lemma finite_is_not_infinity (f : float) s m e :
  Prim2SF f = S754_finite s m e -> PrimFloat.is_infinity f = false.
Proof.
  intros Hf. unfold PrimFloat.is_infinity.
  rewrite FloatAxioms.eqb_spec, FloatAxioms.abs_spec, Hf. reflexivity.
Qed.

(** ** The round trip of an integral value *)

Lemma Prim2SF_1e6 : Prim2SF 1e6%float = S754_finite false 8589934592000000 (-33).
Proof. reflexivity. Qed.

Lemma Prim2SF_1em6 :
  Prim2SF 0x1.0c6f7a0b5ed8dp-20%float = S754_finite false 4722366482869645 (-72).
Proof. reflexivity. Qed.

(** [float(z)] for an integer of at most 53 bits, up to a power of two. *)
Lemma float_of_int_exact (s : bool) (N : positive) (d T : Z) :
  Z.pos (digits2_pos N) = d -> d <= 1024 ->
  2 ^ 52 <= T < 2 ^ 53 ->
  (d <= 53 -> T = Z.pos N * 2 ^ (53 - d)) ->
  (53 < d -> Z.pos N = T * 2 ^ (d - 53)) ->
  exists f, float_of_int (signed s (Z.pos N)) = inr f
            /\ Prim2SF f = S754_finite s (Z.to_pos T) (d - 53).
Proof.
  intros Hd Hmax HT Hsmall Hlarge.
  assert (Hpos : 0 < d) by lia.
  assert (Hf : Prim2SF (float_of_Z (signed s (Z.pos N)))
               = S754_finite s (Z.to_pos T) (d - 53)).
  { unfold float_of_Z.
    replace (binary_normalize prec emax (signed s (Z.pos N)) 0 false)
      with (binary_round prec emax s N 0) by now destruct s.
    rewrite (binary_round_exact s N d T) by assumption.
    apply Prim2SF_normal; [assumption|lia]. }
  exists (float_of_Z (signed s (Z.pos N))). split; [|exact Hf].
  unfold float_of_int. now rewrite (finite_is_not_infinity _ _ _ _ Hf).
Qed.

(** The product of two normal numbers whose exact product [P] is less
    than half a unit away from [T * 2 ^ k]. *)
Lemma mul_nearest (f g : float) (s : bool) (m1 m2 : positive) (e1 e2 k T : Z) :
  Prim2SF f = S754_finite s m1 e1 ->
  Prim2SF g = S754_finite false m2 e2 ->
  0 <= k -> -1074 <= e1 + e2 + k <= 971 ->
  2 ^ 52 <= T < 2 ^ 53 ->
  2 ^ (52 + k) <= Z.pos m1 * Z.pos m2 < 2 ^ (53 + k) ->
  2 ^ k * (2 * T - 1) < 2 * (Z.pos m1 * Z.pos m2) < 2 ^ k * (2 * T + 1) ->
  Prim2SF (f * g) = S754_finite s (Z.to_pos T) (e1 + e2 + k).
Proof.
  intros Hf Hg Hk He HT Hdigits Hnear.
  rewrite FloatAxioms.mul_spec, Hf, Hg. unfold FloatAxioms.SF64mul, SFmul.
  rewrite xorb_false_r.
  apply binary_round_aux_nearest; try assumption.
  apply digits_unique. rewrite Pos2Z.inj_mul.
  now replace (53 + k - 1) with (52 + k) by lia.
Qed.

Lemma int_of_float_exact (f : float) (s : bool) (T e n : Z) :
  Prim2SF f = S754_finite s (Z.to_pos T) e -> 0 < T ->
  (e <= 0 -> T = n * 2 ^ (- e)) -> (0 <= e -> n = T * 2 ^ e) ->
  int_of_float f = inr (signed s n).
Proof.
  intros Hf HT Hneg Hpos. unfold int_of_float. rewrite Hf. cbn zeta.
  rewrite Z2Pos.id by assumption. unfold signed.
  replace (Z.shiftl T e) with n; [reflexivity|].
  destruct (Z.le_gt_cases 0 e) as [He|He].
  - rewrite Z.shiftl_mul_pow2 by assumption. now apply Hpos.
  - rewrite <- (Z.opp_involutive e) at 1.
    rewrite Z.shiftl_opp_r, Z.shiftr_div_pow2, Hneg by lia.
    symmetry. apply Z.div_mul.
    assert (0 < 2 ^ (- e)) by (apply Z.pow_pos_nonneg; lia). lia.
Qed.

Section RoundTrip.
(** An integral value of the magnitude [a], of [d] bits, and of the sign
    [s], whose product with 15625 has [d2] bits, at most 53.  [U] and
    [T2] are the mantissas of [a] and of [a * 1e6]; the hypotheses are
    inequalities on integers that [lia] decides once [d] and [d2] are
    numbers. *)
Variables (s : bool) (a : positive) (d d2 U T2 : Z).
Hypothesis HU : U = Z.pos a * 2 ^ (53 - d).
Hypothesis HT2 : T2 = 15625 * Z.pos a * 2 ^ (53 - d2).
Hypothesis Hd : 1 <= d <= 52.
Hypothesis Hd2 : 1 <= d2 <= 53.
Hypothesis Ha : 2 ^ (d - 1) <= Z.pos a < 2 ^ d.
Hypothesis Hpm : 2 ^ (d2 + 5) <= Z.pos a * 1000000 < 2 ^ (d2 + 6).
Hypothesis HU53 : 2 ^ 52 <= U < 2 ^ 53.
Hypothesis HT53 : 2 ^ 52 <= T2 < 2 ^ 53.
Hypothesis Hsmall : d2 - 47 <= 0 -> T2 = Z.pos a * 1000000 * 2 ^ (- (d2 - 47)).
Hypothesis Hlarge : 0 <= d2 - 47 -> Z.pos a * 1000000 = T2 * 2 ^ (d2 - 47).
Hypothesis Hk1 : 0 <= d2 + 39 - d.
Hypothesis Hmul1 : U * 8589934592000000 = T2 * 2 ^ (d2 + 39 - d).
Hypothesis Hk2 : 0 <= d - d2 + 66.
Hypothesis Hdigits2 :
  2 ^ (52 + (d - d2 + 66)) <= T2 * 4722366482869645 < 2 ^ (53 + (d - d2 + 66)).
Hypothesis Hnear2 :
  2 ^ (d - d2 + 66) * (2 * U - 1) < 2 * (T2 * 4722366482869645)
  < 2 ^ (d - d2 + 66) * (2 * U + 1).

(** [to_native]: the product with [1e6] is exact. *)
Lemma to_picometer_exact :
  _Channel._to_picometer (PyInt (signed s (Z.pos a)))
  = inr (signed s (Z.pos a * 1000000)).
Proof.
  assert (HposT : 0 < T2) by (assert (0 < 2 ^ 52) by reflexivity; lia).
  destruct (float_of_int_exact s a d U) as (f1 & Hf1 & Hsf1); try lia;
    [now apply digits_unique|].
  assert (Hpow : 0 < 2 ^ (d2 + 39 - d)) by (apply Z.pow_pos_nonneg; lia).
  assert (Hf2 : Prim2SF (f1 * 1e6) = S754_finite s (Z.to_pos T2) (d2 - 47)).
  { replace (d2 - 47) with (d - 53 + -33 + (d2 + 39 - d)) by lia.
    apply (mul_nearest f1 1e6%float s _ _ _ _ _ _ Hsf1 Prim2SF_1e6);
      try assumption; try lia; rewrite Z2Pos.id by lia.
    rewrite Hmul1, !Z.pow_add_r by lia. split.
    - apply Z.mul_le_mono_nonneg_r; lia.
    - apply Z.mul_lt_mono_pos_r; lia. }
  unfold _Channel._to_picometer, mul_float. rewrite Hf1.
  now apply (int_of_float_exact _ s T2 (d2 - 47) (Z.pos a * 1000000)).
Qed.

(** [to_si] of that: the product with the [float] next to [1e-6] is less
    than half a unit below [a], and is rounded to it. *)
Lemma round_trip_exact_normal : round_trip_exact (signed s (Z.pos a)) = true.
Proof.
  assert (HposU : 0 < U) by (assert (0 < 2 ^ 52) by reflexivity; lia).
  assert (HposT : 0 < T2) by (assert (0 < 2 ^ 52) by reflexivity; lia).
  unfold round_trip_exact, round_trip. rewrite to_picometer_exact.
  unfold _Channel._to_micrometer, mul_float.
  change (Z.pos a * 1000000) with (Z.pos (a * 1000000)) in *.
  destruct (float_of_int_exact s (a * 1000000) (d2 + 6) T2) as (f3 & Hf3 & Hsf3);
    try lia.
  { apply digits_unique. now replace (d2 + 6 - 1) with (d2 + 5) by lia. }
  { intros H. rewrite Hsmall by lia. f_equal. f_equal. lia. }
  { intros H. rewrite (Hlarge ltac:(lia)) at 1. f_equal. f_equal. lia. }
  rewrite Hf3.
  assert (Hf4 : Prim2SF (f3 * 0x1.0c6f7a0b5ed8dp-20)
                = S754_finite s (Z.to_pos U) (d - 53)).
  { replace (d - 53) with (d2 + 6 - 53 + -72 + (d - d2 + 66)) by lia.
    apply (mul_nearest f3 _ s _ _ _ _ _ _ Hsf3 Prim2SF_1em6);
      try assumption; try lia; rewrite Z2Pos.id by assumption; assumption. }
  unfold float_eq_int, float_value. rewrite Hf4.
  replace (0 <=? d - 53) with false by (symmetry; apply Z.leb_gt; lia).
  replace (- (d - 53)) with (53 - d) by lia.
  assert (Hpow : 0 < 2 ^ (53 - d)) by (apply Z.pow_pos_nonneg; lia).
  unfold Qeq_bool. cbn [Qnum Qden inject_Z]. apply Z.eqb_eq.
  unfold signed. destruct s.
  - change (Z.neg (Z.to_pos U)) with (- Z.pos (Z.to_pos U)).
    rewrite !Z2Pos.id by assumption. lia.
  - rewrite !Z2Pos.id by assumption. lia.
Qed.
End RoundTrip.

Ltac pow_consts :=
  repeat match goal with
    | |- context [Z.pow 2 ?e] =>
        let v := eval vm_compute in (Z.pow 2 e) in change (Z.pow 2 e) with v
    end.

(** The values of [d] bits: the power of two is computed; for the others
    the product with 15625 has [d + 13] or [d + 14] bits. *)
Ltac in_binade s a d :=
  let lo := eval vm_compute in (2 ^ (d - 1)) in
  let mid := eval vm_compute in (2 ^ (d + 13)) in
  let d13 := eval vm_compute in (d + 13) in
  let d14 := eval vm_compute in (d + 14) in
  destruct (Z.eq_dec (Z.pos a) lo);
  [ replace a with (Z.to_pos lo) by lia; destruct s; vm_compute; reflexivity
  | destruct (Z_lt_le_dec (15625 * Z.pos a) mid);
    [ eapply (round_trip_exact_normal s a d d13);
      [reflexivity|reflexivity|..]; pow_consts; lia
    | first [ exfalso; lia
            | eapply (round_trip_exact_normal s a d d14);
              [reflexivity|reflexivity|..]; pow_consts; lia ] ] ].

Ltac binades s a d Hhi :=
  let lo := eval vm_compute in (2 ^ (d - 1)) in
  let Hlt := fresh "Hlt" in
  destruct (Z_lt_le_dec (Z.pos a) lo) as [Hlt|?];
  [ clear Hhi;
    lazymatch d with
    | 1 => lia
    | _ => let d' := eval vm_compute in (d - 1) in binades s a d' Hlt
    end
  | in_binade s a d ].

Lemma round_trip_exact_signed (s : bool) (a : positive) :
  Z.pos a <= 576460752304 -> round_trip_exact (signed s (Z.pos a)) = true.
Proof.
  intros Ha.
  destruct (Z.eq_dec (Z.pos a) 576460752304) as [Hmax|Hmax].
  { replace a with 576460752304%positive by lia. destruct s; vm_compute; reflexivity. }
  assert (Hhi : Z.pos a < 576460752304) by lia. clear Ha Hmax.
  binades s a 40 Hhi.
Qed.

(** C5, as the code has it: for every integral micrometer value [z] of
    at most 576460752304 in magnitude, given as an [int] or as a [float],
    the round trip [to_si(to_native(z))] returns a float whose value is
    exactly [z].  The next integral value is the one of
    [round_trip_not_exact]. *)
Theorem round_trip_integral (z : Z) :
  -576460752304 <= z <= 576460752304 ->
  exists f, round_trip (PyInt z) = inr f
            /\ round_trip (PyFloat (float_of_Z z)) = inr f
            /\ float_eq_int f z = true.
Proof.
  intros Hz. apply round_trip_exact_spec.
  destruct z as [|a|a].
  - vm_compute. reflexivity.
  - apply (round_trip_exact_signed false a). lia.
  - apply (round_trip_exact_signed true a). lia.
Qed.

Lemma round_trip_integral_witness :
  -576460752304 <= 576460752304 <= 576460752304
  /\ exists f, round_trip (PyInt 576460752304) = inr f
               /\ round_trip (PyFloat (float_of_Z 576460752304)) = inr f
               /\ float_eq_int f 576460752304 = true.
Proof.
  split; [lia|]. apply (round_trip_integral 576460752304). lia.
Defined.

(** ** A program logic for methods *)

Lemma extends_refl C t : extends C t t.
Proof. exists []. now rewrite app_nil_r. Qed.

Lemma extends_snoc C t t' c : extends C t t' -> C c -> extends C t (t' ++ [c])%list.
Proof.
  intros (new & -> & Hnew) Hc. exists (new ++ [c])%list.
  rewrite app_assoc. split; [reflexivity|].
  apply Forall_app. split; [assumption|]. now constructor.
Qed.

Lemma extends_trans C t1 t2 t3 :
  extends C t1 t2 -> extends C t2 t3 -> extends C t1 t3.
Proof.
  intros (n1 & -> & H1) (n2 & -> & H2). exists (n1 ++ n2)%list.
  rewrite app_assoc. split; [reflexivity|]. apply Forall_app. now split.
Qed.

Lemma extends_impl (C C' : ctl.call -> Prop) t t' :
  (forall c, C c -> C' c) -> extends C t t' -> extends C' t t'.
Proof.
  intros H (new & -> & Hnew). exists new. split; [reflexivity|].
  eapply Forall_impl; eauto.
Qed.

Section Rules.
Context {S : Type}.
Implicit Types (P : S -> Prop) (C : ctl.call -> Prop).

Lemma hoare_conseq {A} P P' C C' (m : M S A) (Q Q' : outcome A -> S -> Prop) :
  hoare P' C' m Q' ->
  (forall s, P s -> P' s) ->
  (forall c, C' c -> C c) ->
  (forall o s, Q' o s -> Q o s) ->
  hoare P C m Q.
Proof.
  intros H HP HC HQ s t Hs.
  destruct (H s t (HP s Hs)) as [Hlog Hpost].
  split; [|auto]. eapply extends_impl; eauto.
Qed.

Lemma hoare_ret {A} P C (a : A) (Q : outcome A -> S -> Prop) :
  (forall s, P s -> Q (Ret a) s) -> hoare P C (ret a) Q.
Proof. intros H s t Hs. split; [apply extends_refl|cbn; auto]. Qed.

Lemma hoare_raise {A} P C (e : exn) (Q : outcome A -> S -> Prop) :
  (forall s, P s -> Q (Raise e) s) -> hoare P C (raise e) Q.
Proof. intros H s t Hs. split; [apply extends_refl|cbn; auto]. Qed.

Lemma hoare_running {A} P C (Q : outcome A -> S -> Prop) :
  (forall s, P s -> Q Running s) -> hoare P C running Q.
Proof. intros H s t Hs. split; [apply extends_refl|cbn; auto]. Qed.

Lemma hoare_modify P C (f : S -> S) (Q : outcome unit -> S -> Prop) :
  (forall s, P s -> Q (Ret tt) (f s)) -> hoare P C (modify f) Q.
Proof. intros H s t Hs. split; [apply extends_refl|cbn; auto]. Qed.

Lemma hoare_lift {A} P C (r : exn + A) (Q : outcome A -> S -> Prop) :
  (forall s a, P s -> r = inr a -> Q (Ret a) s) ->
  (forall s e, P s -> r = inl e -> Q (Raise e) s) ->
  hoare P C (lift r) Q.
Proof.
  intros Hret Hraise s t Hs. split; [apply extends_refl|].
  unfold lift; cbn. destruct r; auto.
Qed.

Lemma hoare_perform {A} P C (c : ctl.call) (reply : list ctl.call -> exn + A)
    (Q : outcome A -> S -> Prop) :
  C c ->
  (forall s a, P s -> Q (Ret a) s) ->
  (forall s e, P s -> Q (Raise e) s) ->
  hoare P C (perform c reply) Q.
Proof.
  intros Hc Hret Hraise s t Hs. split.
  - apply extends_snoc; [apply extends_refl|assumption].
  - unfold perform; cbn. destruct (reply t); auto.
Qed.

Lemma hoare_bind {A B} P C (m : M S A) (k : A -> M S B)
    (R : outcome A -> S -> Prop) (Q : outcome B -> S -> Prop) :
  hoare P C m R ->
  (forall a, hoare (R (Ret a)) C (k a) Q) ->
  (forall e s, R (Raise e) s -> Q (Raise e) s) ->
  (forall s, R Running s -> Q Running s) ->
  hoare P C (bind m k) Q.
Proof.
  intros Hm Hk Hraise Hrun s t Hs.
  destruct (Hm s t Hs) as [Hlog1 Hpost1].
  unfold bind. destruct (m s t) as [[a|e|] s1 t1]; cbn in *; auto.
  destruct (Hk a s1 t1 Hpost1) as [Hlog2 Hpost2].
  split; [|assumption]. eapply extends_trans; eauto.
Qed.

(** [self <- get ;; k self]: the continuation may use that [self] is
    the object it runs on. *)
Lemma hoare_get_bind {B} P C (k : S -> M S B) (Q : outcome B -> S -> Prop) :
  (forall self, P self -> hoare (fun s => s = self) C (k self) Q) ->
  hoare P C (bind get k) Q.
Proof.
  intros Hk s t Hs. unfold bind, get. now apply (Hk s Hs s t).
Qed.

(** The object a method starts from can be named. *)
Lemma hoare_named {A} P C (m : M S A) (Q : outcome A -> S -> Prop) :
  (forall s0, P s0 -> hoare (fun s => s = s0) C m Q) ->
  hoare P C m Q.
Proof. intros H s t Hs. exact (H s Hs s t eq_refl). Qed.

Lemma hoare_try_except {A} P C (m : M S A) (h : exn -> M S A)
    (R Q : outcome A -> S -> Prop) :
  hoare P C m R ->
  (forall e, hoare (R (Raise e)) C (h e) Q) ->
  (forall a s, R (Ret a) s -> Q (Ret a) s) ->
  (forall s, R Running s -> Q Running s) ->
  hoare P C (try_except m h) Q.
Proof.
  intros Hm Hh Hret Hrun s t Hs.
  destruct (Hm s t Hs) as [Hlog1 Hpost1].
  unfold try_except. destruct (m s t) as [[a|e|] s1 t1]; cbn in *; auto.
  destruct (Hh e s1 t1 Hpost1) as [Hlog2 Hpost2].
  split; [|assumption]. eapply extends_trans; eauto.
Qed.

(** A loop with an invariant: a body that raises leaves the loop. *)
Lemma hoare_for_each {A} (Inv : S -> Prop) C (l : list A) (body : A -> M S unit)
    (Q : outcome unit -> S -> Prop) :
  (forall x, In x l ->
     hoare Inv C (body x)
           (fun o s => match o with Ret _ => Inv s | _ => Q o s end)) ->
  (forall s, Inv s -> Q (Ret tt) s) ->
  hoare Inv C (for_each l body) Q.
Proof.
  induction l as [|x l IH]; intros Hbody Hdone; simpl.
  - now apply hoare_ret.
  - eapply hoare_bind.
    + apply (Hbody x). now left.
    + intros []. apply IH; auto. intros y Hy. apply Hbody. now right.
    + auto.
    + auto.
Qed.

Lemma hoare_for_list {A B} (Inv : S -> Prop) C (l : list A) (f : A -> M S B)
    (Q : outcome (list B) -> S -> Prop) :
  (forall x, In x l ->
     hoare Inv C (f x)
           (fun o s => match o with
                       | Ret _ => Inv s
                       | Raise e => Q (Raise e) s
                       | Running => Q Running s
                       end)) ->
  (forall s ys, Inv s -> Q (Ret ys) s) ->
  hoare Inv C (for_list l f) Q.
Proof.
  revert Q. induction l as [|x l IH]; intros Q Hf Hdone; simpl.
  - apply hoare_ret. auto.
  - eapply hoare_bind.
    + apply (Hf x). now left.
    + intros y. simpl.
      eapply hoare_bind with (R := fun o s => match o with
                                              | Ret _ => Inv s
                                              | Raise e => Q (Raise e) s
                                              | Running => Q Running s
                                              end).
      * apply IH; auto. intros z Hz. apply Hf. now right.
      * intros ys. apply hoare_ret. auto.
      * auto.
      * auto.
    + auto.
    + auto.
Qed.
End Rules.

(** ** What the methods of a channel do *)

Ltac channel_method :=
  let c0 := fresh "c0" in
  let t := fresh "t" in
  intros c0 t ->;
  unfold bind, get, modify, ret, lift, raise, perform, channel_kept; cbn;
  repeat match goal with
    | |- context [match ?r with inl _ => _ | inr _ => _ end] => destruct r; cbn
    end;
  (split;
   [ repeat (apply extends_snoc; [|cbn; reflexivity]); apply extends_refl
   | repeat split; discriminate || reflexivity ]).

Section ChannelSpecs.
Context (MCS_LOADED : bool) (v : ctl.vendor) (h : option Z) (c : _Channel.t).

Lemma hoare_is_sensor_linear :
  hoare (fun c0 => c0 = c) (uses_handle h)
        (_Channel.is_sensor_linear MCS_LOADED v h) (channel_kept c).
Proof.
  unfold _Channel.is_sensor_linear, _Channel.sensor, ctl_GetProperty_s.
  channel_method.
Qed.

Lemma hoare_humanized_status :
  hoare (fun c0 => c0 = c) (uses_handle h)
        (_Channel.humanized_status v h) (channel_kept c).
Proof.
  unfold _Channel.humanized_status, _Channel.status, ctl_GetProperty_i32.
  channel_method.
Qed.

Lemma hoare_speed_setter umps :
  hoare (fun c0 => c0 = c) (uses_handle h)
        (_Channel.speed_setter v h umps) (channel_kept c).
Proof.
  unfold _Channel.speed_setter, ctl_SetProperty_i64.
  channel_method.
Qed.

Lemma hoare_acceleration_setter umps2 :
  hoare (fun c0 => c0 = c) (uses_handle h)
        (_Channel.acceleration_setter v h umps2) (channel_kept c).
Proof.
  unfold _Channel.acceleration_setter, ctl_SetProperty_i64.
  channel_method.
Qed.

Lemma hoare_move value mode :
  hoare (fun c0 => c0 = c) (uses_handle h)
        (_Channel.move v h value mode) (channel_kept c).
Proof.
  unfold _Channel.move, _Channel.movement_mode_setter, ctl_SetProperty_i32, ctl_Move.
  destruct mode; channel_method.
Qed.
End ChannelSpecs.

(** ** What the methods of a stage keep *)

Lemma same_stage_refl s : same_stage s s.
Proof. repeat split. Qed.

Lemma indices_dict_set key c c' chs :
  dict_get key chs = Some c ->
  _Channel._handle c' = _Channel._handle c ->
  indices (dict_set key c' chs) = indices chs.
Proof.
  intros Hget Hidx. induction chs as [|[k x] chs IH]; [discriminate|].
  simpl in Hget |- *. destruct (Axis.eqb key k) eqn:E.
  - injection Hget as ->. unfold indices; simpl. rewrite Hidx.
    destruct key, k; try discriminate; reflexivity.
  - unfold indices in *; simpl. f_equal. now apply IH.
Qed.

Lemma dict_get_indices key chs chs' :
  indices chs' = indices chs ->
  match dict_get key chs, dict_get key chs' with
  | Some c, Some c' => _Channel._handle c' = _Channel._handle c
  | None, None => True
  | _, _ => False
  end.
Proof.
  revert chs'. induction chs as [|[k x] chs IH]; intros [|[k' x'] chs'] H;
    try discriminate; simpl; [exact Logic.I|].
  unfold indices in H; simpl in H. injection H as -> Hx Hrest.
  destruct (Axis.eqb key k); [assumption|]. now apply IH.
Qed.

Lemma hoare_on_channel {A} key (m : option Z -> M _Channel.t A) (P : t -> Prop) C
    (Q : outcome A -> t -> Prop) :
  (forall s c, P s -> dict_get key (channels s) = Some c ->
     hoare (fun c0 => c0 = c) C (m (handle s))
           (fun o c' => Q o (set_channels (dict_set key c' (channels s)) s))) ->
  (forall s, P s -> dict_get key (channels s) = None ->
     Q (Raise (KeyError (Axis.name key))) s) ->
  hoare P C (on_channel key m) Q.
Proof.
  intros Hm Hnone s t Hs. unfold on_channel, bind, get, zoom.
  destruct (dict_get key (channels s)) as [c|] eqn:E.
  - exact (Hm s c Hs E c t eq_refl).
  - split; [apply extends_refl|]. now apply Hnone.
Qed.

(** A method of a channel, called on a stage, keeps the stage and calls
    with the handle of the stage. *)
Lemma on_channel_kept {A} key (m : option Z -> M _Channel.t A) s0 :
  (forall h c, hoare (fun c0 => c0 = c) (uses_handle h) (m h) (channel_kept c)) ->
  hoare (same_stage s0) (uses_handle (handle s0)) (on_channel key m) (kept s0).
Proof.
  intros Hm. apply hoare_on_channel.
  - intros s c Hs Hget.
    destruct Hs as (Ha & Hc & Hh & Hx & Ho & Hi).
    eapply hoare_conseq; [apply (Hm (handle s) c)|auto|..].
    + intros call. now rewrite Hh.
    + intros o c' (Hidx & _ & Hrun). split; [|assumption].
      repeat split; cbn; try assumption.
      now rewrite (indices_dict_set key c c').
  - intros s Hs _. split; [assumption|discriminate].
Qed.

Lemma kept_bind {A B} s0 C (m : M t A) (k : A -> M t B) :
  hoare (same_stage s0) C m (kept s0) ->
  (forall a, hoare (same_stage s0) C (k a) (kept s0)) ->
  hoare (same_stage s0) C (bind m k) (kept s0).
Proof.
  intros Hm Hk. eapply hoare_bind; [apply Hm| | |].
  - intros a. eapply hoare_conseq; [apply (Hk a)| |auto|auto].
    now intros s [Hs _].
  - now intros e s [Hs _].
  - now intros s [_ Hrun].
Qed.

Lemma kept_guarded {A} s0 C loaded (m : M t A) :
  hoare (same_stage s0) C m (kept s0) ->
  hoare (same_stage s0) C
        (assert_driver_loaded loaded (assert_stage_connected m)) (kept s0).
Proof.
  intros Hm. unfold assert_driver_loaded, assert_stage_connected.
  destruct loaded.
  - apply hoare_get_bind. intros self Hself.
    destruct (connected self).
    + eapply hoare_conseq; [apply Hm| |auto|auto]. now intros s ->.
    + apply hoare_raise. intros s ->. split; [assumption|discriminate].
  - apply hoare_raise. intros s Hs. split; [assumption|discriminate].
Qed.

Section StageSpecs.
Context (MCS_LOADED : bool) (v : ctl.vendor) (s0 : t).

Lemma set_speed_xy_kept umps :
  hoare (same_stage s0) (uses_handle (handle s0))
        (set_speed_xy MCS_LOADED v umps) (kept s0).
Proof.
  apply kept_guarded. apply kept_bind; [|intros _];
    apply on_channel_kept; intros; apply hoare_speed_setter.
Qed.

Lemma set_speed_z_kept umps :
  hoare (same_stage s0) (uses_handle (handle s0))
        (set_speed_z MCS_LOADED v umps) (kept s0).
Proof.
  apply kept_guarded. apply on_channel_kept; intros; apply hoare_speed_setter.
Qed.

Lemma set_acceleration_xy_kept umps2 :
  hoare (same_stage s0) (uses_handle (handle s0))
        (set_acceleration_xy MCS_LOADED v umps2) (kept s0).
Proof.
  apply kept_guarded. apply kept_bind; [|intros _];
    apply on_channel_kept; intros; apply hoare_acceleration_setter.
Qed.
End StageSpecs.

(** ** Connecting *)

Section Connect.
Context (MCS_LOADED : bool) (v : ctl.vendor).

Lemma connect_eq :
  connect MCS_LOADED v
  = assert_driver_loaded MCS_LOADED (
      self <- get ;;
      if connected self then ret true else acquire v self ;; configure MCS_LOADED v).
Proof. reflexivity. Qed.

Lemma roll_back_spec e P C :
  hoare P C (roll_back e)
        (fun o s => o = Raise e /\ rolled_back s).
Proof.
  intros s t _. split; [apply extends_refl|]. cbn. repeat split.
Qed.

Lemma _raise_if_sensor_non_linear_kept s0 :
  hoare (same_stage s0) (uses_handle (handle s0))
        (_raise_if_sensor_non_linear MCS_LOADED v) (kept s0).
Proof.
  unfold _raise_if_sensor_non_linear.
  apply hoare_get_bind. intros self Hself.
  eapply hoare_conseq with (P' := same_stage s0) (Q' := kept s0)
                           (C' := uses_handle (handle s0));
    [|now intros s ->|auto|auto].
  apply hoare_for_each.
  - intros index _.
    eapply hoare_bind with (R := kept s0).
    + apply on_channel_kept. intros. apply hoare_is_sensor_linear.
    + intros [|].
      * apply hoare_ret. now intros s [Hs _].
      * apply hoare_raise. intros s [Hs _]. split; [assumption|discriminate].
    + intros e s [Hs _]. split; [assumption|discriminate].
    + now intros s [_ Hrun].
  - intros s Hs. split; [assumption|discriminate].
Qed.

(** The sensor check and the defaults call with the handle of the
    stage and keep it, with the axes and indices of the channels; if they
    return, the stage is marked connected. *)
Lemma sensors_and_defaults_spec h ix :
  hoare (fun s => handle s = h /\ indices (channels s) = ix) (uses_handle h)
        (sensors_and_defaults MCS_LOADED v)
        (fun o s => handle s = h /\ indices (channels s) = ix /\ o <> Running
                    /\ (is_Ret o = true -> connected s = true)).
Proof.
  apply hoare_named. intros s0 [<- <-].
  set (s1 := set_connected true s0).
  assert (Hfinal : forall (o : outcome unit) s,
             kept s1 o s ->
             handle s = handle s0 /\ indices (channels s) = indices (channels s0)
             /\ o <> Running /\ (is_Ret o = true -> connected s = true)).
  { intros o s [(_ & Hc & Hh & _ & _ & Hi) Hrun].
    split; [exact Hh|]. split; [exact Hi|]. split; [exact Hrun|].
    intros _. exact Hc. }
  assert (Hearly : forall (o : outcome unit) s,
             kept s0 o s -> is_Ret o = false ->
             handle s = handle s0 /\ indices (channels s) = indices (channels s0)
             /\ o <> Running /\ (is_Ret o = true -> connected s = true)).
  { intros o s [(_ & _ & Hh & _ & _ & Hi) Hrun] Ho. rewrite Ho.
    repeat split; auto. discriminate. }
  unfold sensors_and_defaults.
  eapply hoare_bind with (R := kept s0).
  - eapply hoare_conseq; [apply (_raise_if_sensor_non_linear_kept s0)| |auto|auto].
    intros s ->. apply same_stage_refl.
  - intros [].
    eapply hoare_bind with (R := kept s1).
    + apply hoare_modify. intros s [(Ha & Hc & Hh & Hx & Ho & Hi) _].
      split; [|discriminate]. repeat split; assumption.
    + intros [].
      eapply hoare_conseq with (P' := same_stage s1) (Q' := kept s1)
                               (C' := uses_handle (handle s1));
        [|now intros s [Hs _]|auto|exact Hfinal].
      apply kept_bind; [apply set_speed_xy_kept|intros _].
      apply kept_bind; [apply set_speed_z_kept|intros _].
      apply set_acceleration_xy_kept.
    + intros e s H. now apply Hfinal.
    + intros s [_ Hrun]. now destruct Hrun.
  - intros e s H. now apply Hearly.
  - intros s [_ Hrun]. now destruct Hrun.
Qed.

Lemma dict_get_set {V} (k k' : Axis.t) (x : V) d :
  dict_get k (dict_set k' x d)
  = if Axis.eqb k k' then Some x else dict_get k d.
Proof.
  induction d as [|[k0 y] d IH]; cbn.
  - now destruct (Axis.eqb k k').
  - destruct (Axis.eqb k' k0) eqn:E; cbn.
    + destruct k, k', k0; try discriminate; reflexivity.
    + rewrite IH. destruct k, k', k0; try discriminate; reflexivity.
Qed.

Lemma has_axes_indices s s' :
  indices (channels s') = indices (channels s) -> has_axes s -> has_axes s'.
Proof.
  intros Hi Hs key Hnone.
  pose proof (dict_get_indices key (channels s) (channels s') Hi) as H.
  rewrite Hnone in H. specialize (Hs key).
  now destruct (dict_get key (channels s)).
Qed.

(** The loop over [self.Axis] leaves a channel for every axis. *)
Lemma build_channels_spec (P : t -> Prop) C :
  (forall s x, P s -> P (set_channels x s)) ->
  hoare P C
    (for_each Axis.members (fun ch =>
       modify (fun s =>
         set_channels
           (dict_set ch (_Channel.__init__ (value (Axis s) ch) (Axis.name ch))
                     (channels s)) s)))
    (fun o s => o = Ret tt /\ P s /\ has_axes s).
Proof.
  intros HP s t Hs. split; [apply extends_refl|]. cbn.
  split; [reflexivity|]. split; [now repeat apply HP|].
  intros key. cbn. rewrite !dict_get_set. now destruct key.
Qed.

(** [configure] from a stage that holds the handle [h]: every call is
    made with [h]; when it returns the stage is connected with [h], has a
    channel for every axis, and the answer is [True]; when it raises the
    stage is rolled back. *)
Lemma configure_spec h :
  hoare (fun s => handle s = Some h) (uses_handle (Some h))
        (configure MCS_LOADED v)
        (fun o s => match o with
                    | Ret b => b = true /\ connected s = true
                               /\ handle s = Some h /\ has_axes s
                    | Raise _ => rolled_back s
                    | Running => False
                    end).
Proof.
  unfold configure.
  apply hoare_get_bind. intros self Hself. rewrite Hself.
  eapply hoare_bind
    with (R := fun o s => match o with
                          | Ret _ => connected s = true /\ handle s = Some h
                                     /\ has_axes s
                          | Raise _ => rolled_back s
                          | Running => False
                          end).
  - eapply hoare_bind
      with (R := fun o s => o = Ret tt /\ handle s = Some h /\ has_axes s).
    + eapply hoare_conseq
        with (P' := fun s => handle s = Some h) (C' := uses_handle (Some h));
        [apply build_channels_spec|now intros s ->|auto|intros o s H; exact H].
      auto.
    + intros []. apply hoare_named. intros s0 (_ & Hh0 & Haxes0).
      eapply hoare_try_except
        with (R := fun o s => handle s = Some h
                              /\ indices (channels s) = indices (channels s0)
                              /\ o <> Running
                              /\ (is_Ret o = true -> connected s = true)).
      * eapply hoare_conseq;
          [apply (sensors_and_defaults_spec (Some h) (indices (channels s0)))
          | |auto|auto].
        now intros s ->.
      * intros e.
        eapply hoare_conseq;
          [apply (roll_back_spec e (fun _ => True) (uses_handle (Some h)))
          |now intros|auto|].
        cbn. now intros o s [-> Hs].
      * intros a s (Hh & Hi & _ & Hc). split; [now apply Hc|].
        split; [assumption|]. now apply (has_axes_indices s0).
      * intros s (_ & _ & Hrun & _). now destruct Hrun.
    + now intros e s [H _].
    + now intros s [H _].
  - intros []. apply hoare_get_bind. intros self0 (Hc & Hh & Haxes).
    apply hoare_ret. intros s ->. auto.
  - auto.
  - auto.
Qed.

(** [acquire] on a secondary stage: no call, the handle is 1. *)
Lemma acquire_secondary self s t :
  open_new_connection self = false ->
  acquire v self s t = Run (Ret tt) (set_handle (Some 1) s) t.
Proof. intros H. unfold acquire. now rewrite H. Qed.

(** [acquire] on a primary stage: one call, [Open] on the address
    without its suffix; the handle is what [Open] returned, [None] for
    0; any handle but 1 raises. *)
Lemma acquire_primary self s t :
  open_new_connection self = true ->
  acquire v self s t
  = let locator := removesuffix (address s) "_Ch1-3" in
    let t' := (t ++ [ctl.call_Open locator])%list in
    match ctl.Open_reply v t locator with
    | inl e => Run (Raise e) s t'
    | inr 1 => Run (Ret tt) (set_handle (Some 1) s) t'
    | inr h =>
        Run (Raise (StageError "Expected the handle to be 1."))
            (set_handle (if h =? 0 then None else Some h) s) t'
    end.
Proof.
  intros H. unfold acquire. rewrite H.
  unfold _open_system, ctl_Open, bind, get, perform, modify, ret, raise; cbn.
  destruct (ctl.Open_reply v t _) as [e|h]; [reflexivity|].
  destruct h as [|[p|p|]|p]; reflexivity.
Qed.
End Connect.

(** [connect] on a stage that is not connected, by its role. *)
Lemma connect_secondary v s t :
  connected s = false -> open_new_connection s = false ->
  connect true v s t = configure true v (set_handle (Some 1) s) t.
Proof.
  intros Hcon Hrole. rewrite connect_eq.
  unfold assert_driver_loaded, bind at 1. unfold get at 1. rewrite Hcon.
  unfold bind at 1. now rewrite acquire_secondary.
Qed.

Lemma connect_primary v s t :
  connected s = false -> open_new_connection s = true ->
  connect true v s t
  = let locator := removesuffix (address s) "_Ch1-3" in
    let t' := (t ++ [ctl.call_Open locator])%list in
    match ctl.Open_reply v t locator with
    | inl e => Run (Raise e) s t'
    | inr h =>
        if h =? 1 then configure true v (set_handle (Some 1) s) t'
        else Run (Raise (StageError "Expected the handle to be 1."))
                 (set_handle (if h =? 0 then None else Some h) s) t'
    end.
Proof.
  intros Hcon Hrole. rewrite connect_eq.
  unfold assert_driver_loaded, bind at 1. unfold get at 1. rewrite Hcon.
  unfold bind at 1. rewrite acquire_primary by assumption. cbn zeta.
  destruct (ctl.Open_reply v t _) as [e|h]; [reflexivity|].
  destruct h as [|[p|p|]|p]; reflexivity.
Qed.

(** The two roles: a primary stage that connects first calls [Open] on
    its address without the suffix, and makes its other calls with the handle 1; when
    [Open] returns a handle other than 1, [connect] stops there with
    [StageError].  A secondary stage that connects makes no [Open] call:
    every call it makes is a call on a channel with the handle 1, and
    when [connect] returns the stage holds the handle 1.  The role is the
    one [__init__] reads off the address: primary when it contains
    "Ch1-3", secondary when it contains "Ch4-6" and not "Ch1-3". *)
Theorem connect_opens_only_as_primary :
  forall v s t,
    connected s = false ->
    let r := connect true v s t in
    let locator := removesuffix (address s) "_Ch1-3" in
    (open_new_connection s = true ->
       (exists rest, log r = (t ++ ctl.call_Open locator :: rest)%list
                     /\ Forall (uses_handle (Some 1)) rest)
       /\ (forall h, ctl.Open_reply v t locator = inr h -> h <> 1 ->
             r = Run (Raise (StageError "Expected the handle to be 1."))
                     (set_handle (if h =? 0 then None else Some h) s)
                     (t ++ [ctl.call_Open locator])%list))
    /\ (open_new_connection s = false ->
          (exists new, log r = (t ++ new)%list
                       /\ Forall (uses_handle (Some 1)) new
                       /\ List.filter ctl.is_Open new = [])
          /\ (is_Ret (out r) = true -> handle (obj r) = Some 1))
    /\ (forall addr,
          (contains "Ch1-3" addr = true ->
             __init__ addr = inr (Build addr false None [] Axis_Ch123 true))
          /\ (contains "Ch1-3" addr = false ->
              contains "Ch4-6" addr = true ->
                __init__ addr = inr (Build addr false None [] Axis_Ch456 false))).
Proof.
  intros v s t Hcon r locator. split; [|split].
  - intros Hrole. subst r. rewrite connect_primary by assumption.
    fold locator. cbn zeta. split.
    + destruct (ctl.Open_reply v t locator) as [e|h].
      * exists []. split; [reflexivity|constructor].
      * destruct (h =? 1).
        -- destruct (configure_spec true v 1 (set_handle (Some 1) s)
                       (t ++ [ctl.call_Open locator])%list eq_refl)
             as [(new & Hlog & Hnew) _].
           exists new. rewrite Hlog, <- app_assoc. now split.
        -- exists []. split; [reflexivity|constructor].
    + intros h -> Hh. destruct (Z.eqb_spec h 1); [contradiction|reflexivity].
  - intros Hrole. subst r. rewrite connect_secondary by assumption.
    destruct (configure_spec true v 1 (set_handle (Some 1) s) t eq_refl)
      as [(new & Hlog & Hnew) Hpost].
    split.
    + exists new. repeat split; try assumption.
      clear Hlog. induction Hnew as [|c new Hc _ IH]; [reflexivity|].
      cbn. destruct c; cbn in *; try contradiction; exact IH.
    + destruct (out (configure true v _ t)) as [b| |]; try discriminate.
      intros _. apply Hpost.
  - intros addr. unfold __init__. split.
    + now intros ->.
    + now intros -> ->.
Qed.

Lemma connect_opens_only_as_primary_witness :
  let lin := fun _ : Z => "SL...S1SS" in
  let still := fun (_ : list ctl.call) (_ : Z) => 0 in
  (connected LOC1_Ch1_3 = false /\ open_new_connection LOC1_Ch1_3 = true
   /\ connect true (bench 2 lin still) LOC1_Ch1_3 []
      = Run (Raise (StageError "Expected the handle to be 1."))
            (set_handle (Some 2) LOC1_Ch1_3) [ctl.call_Open "LOC1"])
  /\ (connected LOC1_Ch4_6 = false /\ open_new_connection LOC1_Ch4_6 = false
      /\ is_Ret (out (connect true (bench 1 lin still) LOC1_Ch4_6 [])) = true
      /\ handle (obj (connect true (bench 1 lin still) LOC1_Ch4_6 [])) = Some 1).
Proof.
  intros lin still. split.
  - split; [reflexivity|]. split; [reflexivity|].
    destruct (connect_opens_only_as_primary (bench 2 lin still) LOC1_Ch1_3 []
                eq_refl) as (Hprimary & _ & _).
    destruct (Hprimary eq_refl) as [_ Hraise].
    apply (Hraise 2); [reflexivity|discriminate].
  - split; [reflexivity|]. split; [reflexivity|].
    destruct (connect_opens_only_as_primary (bench 1 lin still) LOC1_Ch4_6 []
                eq_refl) as (_ & Hsecondary & _).
    destruct (Hsecondary eq_refl) as [_ Hhandle].
    split; [reflexivity|]. apply Hhandle. reflexivity.
Defined.

(** What a failed [connect] leaves.  After the handle is set, every
    failure goes through the [except] clause and the stage is rolled
    back: this covers the sensor check and the defaults, on both roles. *)
Lemma connect_rolls_back_once_configuring v s t e :
  connected s = false ->
  (open_new_connection s = true ->
   ctl.Open_reply v t (removesuffix (address s) "_Ch1-3") = inr 1) ->
  out (connect true v s t) = Raise e ->
  rolled_back (obj (connect true v s t)).
Proof.
  intros Hcon Hopen Hraise.
  destruct (open_new_connection s) eqn:Hrole.
  - rewrite connect_primary in * by assumption. cbn zeta in *.
    rewrite (Hopen eq_refl), Z.eqb_refl in *.
    destruct (configure_spec true v 1 (set_handle (Some 1) s)
                (t ++ [ctl.call_Open (removesuffix (address s) "_Ch1-3")])%list
                eq_refl) as [_ Hpost].
    now rewrite Hraise in Hpost.
  - rewrite connect_secondary in * by assumption.
    destruct (configure_spec true v 1 (set_handle (Some 1) s) t eq_refl)
      as [_ Hpost].
    now rewrite Hraise in Hpost.
Qed.

(** What a successful [connect] leaves: the answer is [True], the stage
    is connected, holds the handle 1 and has a channel for every axis. *)
Lemma connect_success v s t b :
  connected s = false ->
  out (connect true v s t) = Ret b ->
  b = true /\ connected (obj (connect true v s t)) = true
  /\ handle (obj (connect true v s t)) = Some 1
  /\ has_axes (obj (connect true v s t)).
Proof.
  intros Hcon.
  destruct (open_new_connection s) eqn:Hrole.
  - rewrite connect_primary by assumption. cbn zeta.
    destruct (ctl.Open_reply v t _) as [e|h]; [discriminate|].
    destruct (h =? 1); [|discriminate].
    destruct (configure_spec true v 1 (set_handle (Some 1) s)
                (t ++ [ctl.call_Open (removesuffix (address s) "_Ch1-3")])%list
                eq_refl) as [_ Hpost].
    intros Hret. now rewrite Hret in Hpost.
  - rewrite connect_secondary by assumption.
    destruct (configure_spec true v 1 (set_handle (Some 1) s) t eq_refl)
      as [_ Hpost].
    intros Hret. now rewrite Hret in Hpost.
Qed.

(** C1 fails on the path of the unexpected handle: the [raise] of
    [StageError] comes before the [try], the [except] clause does not run,
    and the stage keeps the handle that [Open] returned (and the channels
    it had). *)
Theorem connect_unexpected_handle_not_cleared :
  forall v s t h,
    connected s = false ->
    open_new_connection s = true ->
    ctl.Open_reply v t (removesuffix (address s) "_Ch1-3") = inr h ->
    h <> 1 -> h <> 0 ->
    let r := connect true v s t in
    out r = Raise (StageError "Expected the handle to be 1.")
    /\ connected (obj r) = false
    /\ handle (obj r) = Some h
    /\ channels (obj r) = channels s.
Proof.
  intros v s t h Hcon Hrole Hopen H1 H0 r. subst r.
  rewrite connect_primary by assumption. cbn zeta. rewrite Hopen.
  destruct (Z.eqb_spec h 1); [contradiction|].
  destruct (Z.eqb_spec h 0); [contradiction|].
  cbn. repeat split. exact Hcon.
Qed.

Lemma connect_unexpected_handle_not_cleared_witness :
  let v := bench 2 (fun _ => "SL...S1SS") (fun _ _ => 0) in
  let r := connect true v LOC1_Ch1_3 [] in
  out r = Raise (StageError "Expected the handle to be 1.")
  /\ connected (obj r) = false
  /\ handle (obj r) = Some 2
  /\ channels (obj r) = [].
Proof.
  intros v.
  apply (connect_unexpected_handle_not_cleared v LOC1_Ch1_3 [] 2);
    reflexivity || discriminate.
Defined.

(** ** Status polls *)

Lemma hoare_guarded {A} (P : t -> Prop) C loaded (m : M t A)
    (Q : outcome A -> t -> Prop) :
  hoare P C m Q ->
  (forall s, P s -> Q (Raise DriverUnavailable) s) ->
  (forall s, P s -> Q (Raise NotConnected) s) ->
  hoare P C (assert_driver_loaded loaded (assert_stage_connected m)) Q.
Proof.
  intros Hm Hdriver Hcon. unfold assert_driver_loaded, assert_stage_connected.
  destruct loaded; [|now apply hoare_raise].
  apply hoare_get_bind. intros self Hself.
  destruct (connected self).
  - eapply hoare_conseq; [apply Hm| |auto|auto]. now intros s ->.
  - apply hoare_raise. intros s ->. now apply Hcon.
Qed.

Lemma hoare_humanized_status_reads v h :
  hoare (fun _ => True) status_read (_Channel.humanized_status v h)
        (fun o _ => o <> Running).
Proof.
  unfold _Channel.humanized_status, _Channel.status, ctl_GetProperty_i32.
  intros c t _. unfold bind, get, modify, ret, perform; cbn.
  destruct (ctl.GetProperty_i32_reply _ _ _ _ _); cbn;
    (split; [apply extends_snoc; [apply extends_refl|exact Logic.I]|discriminate]).
Qed.

Lemma get_status_reads loaded v :
  hoare (fun _ => True) status_read (get_status loaded v)
        (fun o _ => o <> Running).
Proof.
  unfold get_status. apply hoare_guarded; try discriminate.
  apply hoare_get_bind. intros self _.
  eapply hoare_conseq with (P' := fun _ => True) (C' := status_read);
    [|auto|auto|intros o s H; exact H].
  apply hoare_for_list with (Inv := fun _ : t => True).
  - intros key _. apply hoare_on_channel.
    + intros s c _ _.
      eapply hoare_conseq;
        [apply (hoare_humanized_status_reads v (handle s))|now intros|auto|].
      intros [x|e|] c' H; cbn; auto.
    + discriminate.
  - discriminate.
Qed.

Lemma is_stopped_reads loaded v :
  hoare (fun _ => True) status_read (is_stopped loaded v)
        (fun o _ => o <> Running).
Proof.
  unfold is_stopped. apply hoare_guarded; try discriminate.
  eapply hoare_bind; [apply get_status_reads| | |].
  - intros statuses. apply hoare_ret. discriminate.
  - discriminate.
  - auto.
Qed.

Lemma round_log loaded v delay s t :
  exists reads,
    log (round loaded v delay s t) = (t ++ ctl.call_sleep delay :: reads)%list
    /\ Forall status_read reads
    /\ out (round loaded v delay s t) <> Running.
Proof.
  unfold round, bind, time_sleep, perform. cbn.
  destruct (ctl.sleep_reply v t delay) as [e|[]].
  { exists []. repeat split; [constructor|discriminate]. }
  destruct (is_stopped_reads loaded v s (t ++ [ctl.call_sleep delay])%list
              Logic.I) as [(reads & Hlog & Hreads) Hout].
  destruct (is_stopped loaded v s _) as [[b|e|] s' t']; cbn in *; subst t';
    try (now destruct Hout);
    (exists reads; rewrite <- app_assoc; repeat split; auto; discriminate).
Qed.

Lemma wait_unfold loaded v fuel delay s t :
  _wait_for_stopping loaded v (S fuel) delay s t
  = let r := round loaded v delay s t in
    match out r with
    | Ret true => Run (Ret tt) (obj r) (log r)
    | Ret false => _wait_for_stopping loaded v fuel delay (obj r) (log r)
    | Raise e => Run (Raise e) (obj r) (log r)
    | Running => Run Running (obj r) (log r)
    end.
Proof.
  cbn [_wait_for_stopping]. unfold round, bind, time_sleep, perform. cbn.
  destruct (ctl.sleep_reply v t delay) as [e|[]]; [reflexivity|].
  destruct (is_stopped loaded v s _) as [[[|]|e|] s' t']; reflexivity.
Qed.

(** The loop calls nothing but [time.sleep] and status reads. *)
Lemma wait_polls loaded v delay fuel :
  hoare (fun _ => True) poll_call (_wait_for_stopping loaded v fuel delay)
        (fun _ _ => True).
Proof.
  induction fuel as [|fuel IH]; intros s t _.
  - split; [apply extends_refl|exact Logic.I].
  - split; [|exact Logic.I]. rewrite wait_unfold. cbn zeta.
    destruct (round_log loaded v delay s t) as (reads & Hlog & Hreads & Hrun).
    assert (Hround : extends poll_call t (log (round loaded v delay s t))).
    { exists (ctl.call_sleep delay :: reads). split; [assumption|].
      constructor; [now left|].
      eapply Forall_impl; [exact Hreads|]. intros c Hc. now right. }
    destruct (out (round loaded v delay s t)) as [[|]|e|]; cbn; try assumption.
    eapply extends_trans; [exact Hround|]. now apply IH.
Qed.

Lemma wait_returns_iff loaded v delay fuel :
  forall s t s' t',
    _wait_for_stopping loaded v fuel delay s t = Run (Ret tt) s' t'
    <-> exists k, (k < fuel)%nat
                  /\ nth_poll loaded v delay k s t = Some (Run (Ret true) s' t').
Proof.
  induction fuel as [|fuel IH]; intros s t s' t'.
  - split; [discriminate|]. intros (k & Hk & _). lia.
  - rewrite wait_unfold. cbn zeta.
    destruct (round loaded v delay s t) as [o s1 t1] eqn:Hround. cbn [out obj log].
    split.
    + destruct o as [[|]|e|]; try discriminate.
      * intros [= <- <-]. exists 0%nat. split; [lia|]. cbn [nth_poll]. now rewrite Hround.
      * intros H. apply IH in H as (k & Hk & Hpoll).
        exists (S k). split; [lia|]. cbn [nth_poll]. now rewrite Hround.
    + intros ([|k] & Hk & Hpoll); cbn [nth_poll] in Hpoll; rewrite Hround in Hpoll.
      * now injection Hpoll as -> -> ->.
      * cbn [out obj log] in Hpoll. destruct o as [[|]|e|]; try discriminate.
        apply IH. exists k. split; [lia|assumption].
Qed.

Lemma wait_keeps_running loaded v delay fuel :
  forall s t,
    (forall k, (k < fuel)%nat ->
       exists r, nth_poll loaded v delay k s t = Some r /\ out r = Ret false) ->
    out (_wait_for_stopping loaded v fuel delay s t) = Running.
Proof.
  induction fuel as [|fuel IH]; intros s t H; [reflexivity|].
  rewrite wait_unfold. cbn zeta.
  destruct (H 0%nat ltac:(lia)) as (r & [= <-] & Hout). rewrite Hout.
  apply IH. intros k Hk.
  destruct (H (S k) ltac:(lia)) as (r' & Hpoll & Hout').
  cbn [nth_poll] in Hpoll. rewrite Hout in Hpoll. now exists r'.
Qed.

Lemma wait_sleeps_first loaded v delay fuel s t :
  exists rest,
    log (_wait_for_stopping loaded v (S fuel) delay s t)
    = (t ++ ctl.call_sleep delay :: rest)%list
    /\ Forall poll_call rest.
Proof.
  rewrite wait_unfold. cbn zeta.
  destruct (round_log loaded v delay s t) as (reads & Hlog & Hreads & Hrun).
  assert (Hpolls : Forall poll_call reads).
  { eapply Forall_impl; [exact Hreads|]. intros c Hc. now right. }
  destruct (out (round loaded v delay s t)) as [[|]|e|]; cbn [log];
    try (exists reads; now split).
  destruct (wait_polls loaded v delay fuel (obj (round loaded v delay s t))
              (log (round loaded v delay s t)) Logic.I)
    as [(more & Hmore & Hpoll) _].
  exists (reads ++ more)%list. rewrite Hmore, Hlog, <- app_assoc. split; [reflexivity|].
  apply Forall_app. now split.
Qed.

Lemma guarded_run {A} loaded (m : M t A) s t :
  assert_driver_loaded loaded (assert_stage_connected m) s t
  = if loaded then
      if connected s then m s t else Run (Raise NotConnected) s t
    else Run (Raise DriverUnavailable) s t.
Proof.
  unfold assert_driver_loaded, assert_stage_connected, bind, get, raise.
  destruct loaded; [|reflexivity]. now destruct (connected s).
Qed.

(** The moves with [wait_for_stopping]: the same call without it, and
    when that returns, the loop. *)
Lemma move_absolute_then_wait loaded v fuel x y z s t :
  move_absolute loaded v fuel x y z true s t
  = let r0 := move_absolute loaded v fuel x y z false s t in
    match out r0 with
    | Ret _ => _wait_for_stopping loaded v fuel default_delay (obj r0) (log r0)
    | _ => r0
    end.
Proof.
  unfold move_absolute. rewrite !guarded_run.
  destruct loaded; [|reflexivity]. destruct (connected s); [|reflexivity].
  unfold bind.
  destruct (move_if_given v Axis.X x s t) as [[[]|e|] s1 t1]; try reflexivity.
  destruct (move_if_given v Axis.Y y s1 t1) as [[[]|e|] s2 t2]; try reflexivity.
  destruct (move_if_given v Axis.Z z s2 t2) as [[[]|e|] s3 t3]; reflexivity.
Qed.

Lemma move_relative_then_wait loaded v fuel x y z s t :
  move_relative loaded v fuel x y z true s t
  = let r0 := move_relative loaded v fuel x y z false s t in
    match out r0 with
    | Ret _ => _wait_for_stopping loaded v fuel default_delay (obj r0) (log r0)
    | _ => r0
    end.
Proof.
  unfold move_relative. rewrite !guarded_run.
  destruct loaded; [|reflexivity]. destruct (connected s); [|reflexivity].
  unfold bind.
  destruct (on_channel Axis.X _ s t) as [[[]|e|] s1 t1]; try reflexivity.
  destruct (on_channel Axis.Y _ s1 t1) as [[[]|e|] s2 t2]; try reflexivity.
  destruct (on_channel Axis.Z _ s2 t2) as [[[]|e|] s3 t3]; reflexivity.
Qed.

Lemma is_stopped_get_status loaded v s t :
  is_stopped loaded v s t
  = let r := get_status loaded v s t in
    Run (match out r with
         | Ret statuses => Ret (negb (existsb entry_ACTIVELY_MOVING statuses))
         | Raise e => Raise e
         | Running => Running
         end) (obj r) (log r).
Proof.
  unfold is_stopped. rewrite guarded_run.
  assert (Hget := guarded_run loaded
                    (self <- get ;;
                     for_list (map fst (channels self)) (fun key =>
                       on_channel key (_Channel.humanized_status v))) s t).
  change (assert_driver_loaded loaded (assert_stage_connected _))
    with (get_status loaded v) in Hget.
  destruct loaded; [|now rewrite Hget].
  destruct (connected s); [|now rewrite Hget].
  unfold bind at 1.
  destruct (get_status true v s t) as [[statuses|e|] s' t']; reflexivity.
Qed.

Lemma actively_moving_flag (table : list (string * Z)) (code : Z) :
  entry_ACTIVELY_MOVING (_Channel.humanize table code) = true
  <-> exists value, In ("ACTIVELY_MOVING", value) table /\ Z.land code value <> 0.
Proof.
  unfold entry_ACTIVELY_MOVING, _Channel.humanize.
  set (set_bit := fun state : string * Z => negb (Z.land code (snd state) =? 0)).
  assert (Hin : In "ACTIVELY_MOVING" (map fst (List.filter set_bit table))
                <-> exists value, In ("ACTIVELY_MOVING", value) table
                                  /\ Z.land code value <> 0).
  { rewrite in_map_iff. split.
    - intros ([name value] & Hname & Hstate). cbn in Hname. subst name.
      apply filter_In in Hstate as [Hstate Hbit]. exists value.
      split; [assumption|]. unfold set_bit in Hbit. cbn in Hbit.
      now destruct (Z.eqb_spec (Z.land code value) 0).
    - intros (value & Hstate & Hbit). exists ("ACTIVELY_MOVING", value).
      split; [reflexivity|]. apply filter_In. split; [assumption|].
      unfold set_bit. cbn. now destruct (Z.eqb_spec (Z.land code value) 0). }
  rewrite <- Hin.
  destruct (map fst (List.filter set_bit table)) as [|name names] eqn:E.
  - cbn. split; [discriminate|contradiction].
  - rewrite existsb_exists. split.
    + intros (x & Hx & Heq). apply String.eqb_eq in Heq. now subst x.
    + intros H. exists "ACTIVELY_MOVING". split; [assumption|].
      apply String.eqb_refl.
Qed.

(** ** Moves *)

(** The run of [_Channel.move] with a member of [ctl.MoveMode]. *)
Lemma move_run v h x m c t :
  _Channel.move v h x (PyMoveMode m) c t
  = let idx := _Channel._handle c in
    let t1 := (t ++ [ctl.call_SetProperty_i32 h idx ctl.MOVE_MODE
                                              (ctl.MoveMode_value m)])%list in
    match ctl.SetProperty_i32_reply v t h idx ctl.MOVE_MODE (ctl.MoveMode_value m) with
    | inl e => Run (Raise e) c t1
    | inr _ =>
        let c' := _Channel.set__movement_mode m c in
        match _Channel._to_picometer x with
        | inl e => Run (Raise e) c' t1
        | inr pm =>
            Run (match ctl.Move_reply v t1 h idx pm with
                 | inl e => Raise e
                 | inr u => Ret u
                 end) c' (t1 ++ [ctl.call_Move h idx pm])%list
        end
    end.
Proof.
  unfold _Channel.move, _Channel.movement_mode_setter, ctl_SetProperty_i32, ctl_Move,
    bind, get, modify, lift, perform; cbn.
  destruct (ctl.SetProperty_i32_reply v t h _ _ _) as [e|[]]; [reflexivity|]. cbn.
  destruct (_Channel._to_picometer x) as [e|pm]; reflexivity.
Qed.

Lemma issues_move_if_given v s0 key target :
  issues s0 (planned_move s0 key target) (move_if_given v key target).
Proof.
  intros s t Hs. destruct target as [x|]; cbn.
  2:{ split; [assumption|]. split; [discriminate|].
      exists []. rewrite app_nil_r. repeat split. now exists []. }
  unfold on_channel, bind, get, zoom.
  pose proof (dict_get_indices key (channels s0) (channels s)) as Hidx.
  destruct Hs as (Ha & Hc & Hh & Hx & Ho & Hi). specialize (Hidx Hi).
  destruct (dict_get key (channels s0)) as [c0|],
           (dict_get key (channels s)) as [c|] eqn:Hget; try contradiction.
  2:{ cbn. split; [repeat split; assumption|]. split; [discriminate|].
      exists []. rewrite app_nil_r. repeat split. now exists []. }
  rewrite move_run. cbn zeta. rewrite Hh, Hidx.
  assert (Hkept : forall c', _Channel._handle c' = _Channel._handle c ->
            same_stage s0 (set_channels (dict_set key c' (channels s)) s)).
  { intros c' Hc'. repeat split; cbn; try assumption.
    now rewrite (indices_dict_set key c c'). }
  destruct (ctl.SetProperty_i32_reply v t _ _ _ _) as [e|[]]; cbn.
  { split; [now apply Hkept|]. split; [discriminate|].
    eexists [_]. split; [reflexivity|]. cbn. split; [|discriminate].
    now eexists. }
  destruct (_Channel._to_picometer x) as [e|pm]; cbn.
  { split; [now apply Hkept|]. split; [discriminate|].
    eexists [_]. split; [reflexivity|]. cbn. split; [|discriminate].
    now exists []. }
  split; [now apply Hkept|]. split; [now destruct (ctl.Move_reply _ _ _ _ _)|].
  eexists [_; _]. rewrite <- app_assoc. split; [reflexivity|]. cbn.
  split; [now exists []|reflexivity].
Qed.

Lemma issues_seq s0 plan1 plan2 (m1 m2 : M t unit) :
  issues s0 plan1 m1 -> issues s0 plan2 m2 ->
  issues s0 (plan1 ++ plan2)%list (m1 ;; m2).
Proof.
  intros H1 H2 s t Hs. unfold bind.
  destruct (H1 s t Hs) as (Hs1 & Hrun1 & new1 & Hlog1 & [later1 Hpre1] & Hall1).
  destruct (m1 s t) as [[[]|e|] s1 t1]; cbn in *; subst t1.
  - destruct (H2 s1 (t ++ new1)%list Hs1)
      as (Hs2 & Hrun2 & new2 & Hlog2 & [later2 Hpre2] & Hall2).
    split; [assumption|]. split; [assumption|].
    exists (new1 ++ new2)%list. rewrite Hlog2, app_assoc. split; [reflexivity|].
    unfold moves_of in *. rewrite List.filter_app, (Hall1 eq_refl). split.
    + exists later2. now rewrite <- app_assoc, <- Hpre2.
    + intros Hraise. now rewrite (Hall2 Hraise).
  - split; [assumption|]. split; [discriminate|].
    exists new1. split; [reflexivity|]. split; [|discriminate].
    exists (later1 ++ plan2)%list. now rewrite app_assoc, <- Hpre1.
  - now destruct Hrun1.
Qed.

Lemma poll_call_not_Move calls :
  Forall poll_call calls -> moves_of calls = [].
Proof.
  induction 1 as [|c calls Hc _ IH]; [reflexivity|].
  unfold moves_of in *. cbn. rewrite IH.
  destruct Hc as [Hc|Hc]; destruct c; try discriminate; try contradiction;
    reflexivity.
Qed.

(** A move on an axis whose channel is there, whose value converts and
    whose mode the controller accepts: two calls, the mode and the move. *)
Lemma move_if_given_accepted v key x s t c pm :
  dict_get key (channels s) = Some c ->
  _Channel._to_picometer x = inr pm ->
  ctl.SetProperty_i32_reply v t (handle s) (_Channel._handle c) ctl.MOVE_MODE 0
  = inr tt ->
  exists o s',
    move_if_given v key (Some x) s t
    = Run o s' (t ++ [ctl.call_SetProperty_i32 (handle s) (_Channel._handle c)
                                               ctl.MOVE_MODE 0;
                      ctl.call_Move (handle s) (_Channel._handle c) pm])%list
    /\ o <> Running.
Proof.
  intros Hget Hpm Hset. unfold move_if_given, on_channel, bind, get, zoom.
  rewrite Hget, move_run. cbn zeta. cbn [ctl.MoveMode_value]. rewrite Hset, Hpm.
  cbn [out obj log]. rewrite <- app_assoc. do 2 eexists. split; [reflexivity|].
  now destruct (ctl.Move_reply _ _ _ _ _).
Qed.

(** The moves of [move_absolute] as one method, before the wait. *)
Lemma issues_three_moves v s0 x y z :
  issues s0 (planned_moves s0 x y z)
         (move_if_given v Axis.X x ;; move_if_given v Axis.Y y ;;
          move_if_given v Axis.Z z).
Proof.
  unfold planned_moves.
  apply issues_seq; [apply issues_move_if_given|].
  apply issues_seq; apply issues_move_if_given.
Qed.

Lemma move_absolute_run loaded v fuel x y z wait s t :
  move_absolute loaded v fuel x y z wait s t
  = if loaded then
      if connected s then
        let r := (move_if_given v Axis.X x ;; move_if_given v Axis.Y y ;;
                  move_if_given v Axis.Z z) s t in
        match out r with
        | Ret _ =>
            if wait then _wait_for_stopping loaded v fuel default_delay (obj r) (log r)
            else Run (Ret tt) (obj r) (log r)
        | _ => r
        end
      else Run (Raise NotConnected) s t
    else Run (Raise DriverUnavailable) s t.
Proof.
  unfold move_absolute. rewrite guarded_run.
  destruct loaded; [|reflexivity]. destruct (connected s); [|reflexivity].
  unfold bind.
  destruct (move_if_given v Axis.X x s t) as [[[]|e|] s1 t1]; try reflexivity.
  destruct (move_if_given v Axis.Y y s1 t1) as [[[]|e|] s2 t2]; try reflexivity.
  destruct (move_if_given v Axis.Z z s2 t2) as [[[]|e|] s3 t3]; try reflexivity.
  now destruct wait.
Qed.

(** ** Discovery *)

Lemma last_opened_app t locator acc :
  last_opened (t ++ [ctl.call_Open locator]) acc = locator.
Proof.
  revert acc. induction t as [|c t IH]; intros acc; [reflexivity|].
  destruct c; cbn; apply IH.
Qed.

(** On a rack every probe succeeds and answers the module count of the
    locator it opened. *)
Lemma is_two_modules_rack buffer modules locator s t :
  is_two_modules (rack buffer modules) locator s t
  = Run (Ret (modules locator =? 2)) s
        (t ++ [ctl.call_Open locator;
               ctl.call_GetProperty_i32 (Some 1) 0 ctl.NUMBER_OF_BUS_MODULES;
               ctl.call_Close (Some 1)])%list.
Proof.
  unfold is_two_modules, ctl_Open, ctl_GetProperty_i32, ctl_Close, bind, perform, ret.
  cbn. rewrite last_opened_app, <- !app_assoc. reflexivity.
Qed.

Ltac list_eq :=
  repeat first [rewrite <- app_assoc | progress cbn [app]]; reflexivity.

Lemma split_locators_rack buffer modules todo :
  forall done extra t,
    out (split_locators (rack buffer modules) (length done) todo
           (done ++ map entry_str todo ++ extra) tt t)
    = Ret (done ++ map (first_half modules) todo
                ++ extra ++ second_halves modules todo)%list.
Proof.
  induction todo as [|locator todo IH]; intros done extra t.
  - cbn. now rewrite app_nil_r.
  - cbn [split_locators]. unfold bind at 1. rewrite is_two_modules_rack.
    cbn [map]. unfold first_half at 1, second_halves. cbn [List.filter map].
    destruct (modules locator =? 2).
    + rewrite insert_app_r_alt by lia. rewrite Nat.sub_diag. cbn [app insert list_insert].
      replace (S (length done)) with (length (done ++ [entry_str (locator ++ "_Ch1-3")]))
        by (rewrite length_app; cbn; lia).
      replace ((done ++ entry_str (locator ++ "_Ch1-3") :: map entry_str todo ++ extra)
               ++ [entry_str (locator ++ "_Ch4-6")])%list
        with ((done ++ [entry_str (locator ++ "_Ch1-3")]) ++ map entry_str todo
              ++ (extra ++ [entry_str (locator ++ "_Ch4-6")]))%list
        by list_eq.
      rewrite IH. f_equal. list_eq.
    + rewrite insert_app_r_alt by lia. rewrite Nat.sub_diag. cbn [app insert list_insert].
      replace (S (length done)) with (length (done ++ [entry_empty_list]))
        by (rewrite length_app; cbn; lia).
      replace (done ++ entry_empty_list :: map entry_str todo ++ extra)%list
        with ((done ++ [entry_empty_list]) ++ map entry_str todo ++ extra)%list
        by list_eq.
      rewrite IH. f_equal. list_eq.
Qed.

(** *** [sorted] on mixed lists *)

Lemma sorted_eq l : sorted l = fold_left sort_step l (inr []).
Proof. reflexivity. Qed.

Lemma sort_step_raised l e : fold_left sort_step l (inl e) = inl e.
Proof. induction l as [|x l IH]; [reflexivity|exact IH]. Qed.

Lemma insert_sorted_same_kind x r k :
  Forall (fun e => is_str e = k) r -> is_str x = k ->
  exists r', insert_sorted x r = inr r'
             /\ Forall (fun e => is_str e = k) r' /\ r' <> [].
Proof.
  intros Hr Hx. induction Hr as [|y r Hy Hr IH].
  - exists [x]. repeat split; [now constructor|discriminate].
  - cbn. destruct x as [a|], y as [b|]; cbn in *; try congruence.
    + destruct (String.ltb a b).
      * eexists. split; [reflexivity|]. split; [|discriminate].
        repeat constructor; assumption.
      * destruct IH as (r' & -> & Hr' & _). eexists. split; [reflexivity|].
        split; [|discriminate]. now constructor.
    + destruct IH as (r' & -> & Hr' & _). eexists. split; [reflexivity|].
      split; [|discriminate]. now constructor.
Qed.

Lemma insert_sorted_other_kind x r k :
  Forall (fun e => is_str e = k) r -> r <> [] -> is_str x = negb k ->
  exists msg, insert_sorted x r = inl (TypeError msg).
Proof.
  intros Hr Hne Hx. destruct Hr as [|y r Hy Hr]; [contradiction|].
  cbn. destruct x, y; cbn in *; subst k; try discriminate; eexists; reflexivity.
Qed.

Lemma sort_step_mixed l :
  forall r k,
    Forall (fun e => is_str e = k) r -> r <> [] ->
    (exists x, In x l /\ is_str x = negb k) ->
    exists msg, fold_left sort_step l (inr r) = inl (TypeError msg).
Proof.
  induction l as [|x l IH]; intros r k Hr Hne (y & Hin & Hy); [contradiction|].
  cbn [fold_left sort_step].
  destruct (Bool.bool_dec (is_str x) k) as [Hx|Hx].
  - destruct (insert_sorted_same_kind x r k Hr Hx) as (r' & -> & Hr' & Hne').
    apply (IH r' k Hr' Hne'). exists y. split; [|assumption].
    destruct Hin as [<-|Hin]; [|assumption].
    rewrite Hx in Hy. now destruct k.
  - destruct (insert_sorted_other_kind x r k Hr Hne) as [msg ->].
    + now destruct (is_str x), k.
    + exists msg. apply sort_step_raised.
Qed.

(** [sorted] raises [TypeError] on every list that holds a string and an
    empty list. *)
Lemma sorted_mixed l :
  (exists s, In (entry_str s) l) -> In entry_empty_list l ->
  exists msg, sorted l = inl (TypeError msg).
Proof.
  intros [s Hs] Hempty. rewrite sorted_eq.
  destruct l as [|x l]; [contradiction|]. cbn [fold_left sort_step insert_sorted].
  apply (sort_step_mixed l [x] (is_str x)).
  - now repeat constructor.
  - discriminate.
  - destruct x as [a|].
    + exists entry_empty_list. split; [|reflexivity].
      destruct Hempty as [Hempty|Hempty]; [discriminate|assumption].
    + exists (entry_str s). split; [|reflexivity].
      destruct Hs as [Hs|Hs]; [discriminate|assumption].
Qed.

Lemma ltb_app_l l x y : String.ltb (l ++ x) (l ++ y) = String.ltb x y.
Proof.
  unfold String.ltb. induction l as [|c l IH]; [reflexivity|].
  simpl. unfold Ascii.compare. now rewrite N.compare_refl.
Qed.

(** The run of [find_stage_addresses] on a rack. *)
Lemma find_stage_addresses_rack buffer modules :
  buffer <> "" ->
  out (find_stage_addresses true (rack buffer modules) tt [])
  = let locators := str_split newline buffer in
    match sorted (map (first_half modules) locators
                  ++ second_halves modules locators) with
    | inl e => Raise e
    | inr addresses => Ret addresses
    end.
Proof.
  intros Hbuffer. unfold find_stage_addresses, assert_driver_loaded.
  unfold bind at 1. unfold ctl_FindDevices, perform. cbn [rack ctl.FindDevices_reply].
  destruct (String.eqb_spec buffer "") as [|_]; [contradiction|].
  cbn zeta. unfold bind.
  pose proof (split_locators_rack buffer modules (str_split newline buffer) [] []
                ([] ++ [ctl.call_FindDevices])) as Hloop.
  cbn [length app] in Hloop. rewrite app_nil_r in Hloop.
  destruct (split_locators _ _ _ _ _ _) as [o s' t']. cbn in Hloop. subst o.
  unfold lift. cbn. now destruct (sorted _).
Qed.

(** C3 fails on the code: when the enumeration holds a locator with two
    bus modules and any locator without, the list that is sorted holds
    strings and [[]], and [find_stage_addresses] raises [TypeError]
    instead of returning the sorted addresses. *)
Theorem find_stage_addresses_raises_on_mixed_rack :
  forall buffer modules,
    buffer <> "" ->
    (exists locator, In locator (str_split newline buffer) /\ modules locator = 2) ->
    (exists locator, In locator (str_split newline buffer) /\ modules locator <> 2) ->
    exists msg,
      out (find_stage_addresses true (rack buffer modules) tt [])
      = Raise (TypeError msg).
Proof.
  intros buffer modules Hbuffer (two & Htwo & Hmodules) (one & Hone & Hother).
  rewrite find_stage_addresses_rack by assumption. cbn zeta.
  destruct (sorted_mixed (map (first_half modules) (str_split newline buffer)
                          ++ second_halves modules (str_split newline buffer)))
    as [msg ->].
  - exists (two ++ "_Ch1-3"). apply in_or_app. left.
    apply in_map_iff. exists two. split; [|assumption].
    unfold first_half. now rewrite Hmodules.
  - apply in_or_app. left. apply in_map_iff. exists one. split; [|assumption].
    unfold first_half. now destruct (Z.eqb_spec (modules one) 2).
  - now exists msg.
Qed.

Lemma find_stage_addresses_raises_on_mixed_rack_witness :
  let modules := fun locator => if String.eqb locator "A" then 2 else 1 in
  str_split newline A_and_B = ["A"; "B"]
  /\ modules "A" = 2 /\ modules "B" <> 2
  /\ exists msg,
       out (find_stage_addresses true (rack A_and_B modules) tt [])
       = Raise (TypeError msg).
Proof.
  intros modules. split; [reflexivity|]. split; [reflexivity|].
  split; [discriminate|].
  apply (find_stage_addresses_raises_on_mixed_rack A_and_B modules).
  - discriminate.
  - exists "A". split; [now left|reflexivity].
  - exists "B". split; [right; now left|discriminate].
Defined.

(** Where the claim holds: an enumeration of one locator, with two bus
    modules, gives the two suffixed addresses in order. *)
Lemma find_stage_addresses_single_dual locator modules :
  locator <> "" ->
  str_split newline locator = [locator] ->
  modules locator = 2 ->
  out (find_stage_addresses true (rack locator modules) tt [])
  = Ret [entry_str (locator ++ "_Ch1-3"); entry_str (locator ++ "_Ch4-6")].
Proof.
  intros Hne Hsplit Hmodules. rewrite find_stage_addresses_rack by assumption.
  cbn zeta. rewrite Hsplit. unfold second_halves, first_half. cbn.
  rewrite Hmodules. cbn.
  now rewrite ltb_app_l.
Qed.

(** ** The flags of a status code *)

Lemma sublist_filter_names (f : string * Z -> bool) (table : list (string * Z)) :
  sublist (map fst (List.filter f table)) (map fst table).
Proof.
  induction table as [|state table IH]; cbn; [constructor|].
  destruct (f state); cbn; now constructor.
Qed.

(** X1: a name is in the humanized status of a code exactly when
    the flag table has a flag of that name whose bit is set in the code,
    or no flag of the table is set in the code and the name is the
    placeholder ["Unknown status code: <code>"]; and when some flag is
    set, the names come in the order of the table. *)
Theorem humanize_lists_set_flags (table : list (string * Z)) (code : Z) :
  (forall name,
      In name (_Channel.humanize table code)
      <-> (exists value, In (name, value) table /\ Z.land code value <> 0)
          \/ ((forall n value, In (n, value) table -> Z.land code value = 0)
              /\ name = "Unknown status code: " ++ str_of_int code))
  /\ ((exists n value, In (n, value) table /\ Z.land code value <> 0) ->
      sublist (_Channel.humanize table code) (map fst table)).
Proof.
  unfold _Channel.humanize.
  set (set_bit := fun state : string * Z => negb (Z.land code (snd state) =? 0)).
  assert (Hin : forall name,
             In name (map fst (List.filter set_bit table))
             <-> exists value, In (name, value) table /\ Z.land code value <> 0).
  { intros name. rewrite in_map_iff. split.
    - intros ([n value] & Hname & Hstate). cbn in Hname. subst n.
      apply filter_In in Hstate as [Hstate Hbit]. exists value.
      split; [assumption|]. unfold set_bit in Hbit. cbn in Hbit.
      now destruct (Z.eqb_spec (Z.land code value) 0).
    - intros (value & Hstate & Hbit). exists (name, value).
      split; [reflexivity|]. apply filter_In. split; [assumption|].
      unfold set_bit. cbn. now destruct (Z.eqb_spec (Z.land code value) 0). }
  split.
  - intros name.
    destruct (map fst (List.filter set_bit table)) as [|first names] eqn:E.
    + split.
      * intros [<-|[]]. right. split; [|reflexivity].
        intros n value Hstate.
        destruct (Z.eq_dec (Z.land code value) 0) as [|Hbit]; [assumption|].
        destruct (proj2 (Hin n)) as []. now exists value.
      * intros [Hset|[_ ->]]; [|now left].
        now apply Hin in Hset.
    + rewrite <- Hin. split; [now left|].
      intros [H|[Hnone _]]; [assumption|].
      assert (Hfirst : In first (first :: names)) by now left.
      apply Hin in Hfirst as (value & Hstate & Hbit).
      now destruct (Hbit (Hnone first value Hstate)).
  - intros (n & value & Hstate & Hbit).
    destruct (map fst (List.filter set_bit table)) as [|first names] eqn:E.
    + destruct (proj2 (Hin n)) as []. now exists value.
    + rewrite <- E. apply sublist_filter_names.
Qed.

(** ** The run of a method, call by call *)

Lemma to_picometer_300 : _Channel._to_picometer (PyInt 300) = inr 300000000.
Proof. vm_compute. reflexivity. Qed.

Lemma to_picometer_20 : _Channel._to_picometer (PyInt 20) = inr 20000000.
Proof. vm_compute. reflexivity. Qed.

Lemma to_picometer_0 : _Channel._to_picometer (PyInt 0) = inr 0.
Proof. vm_compute. reflexivity. Qed.

Lemma on_channel_run {A} key (m : option Z -> M _Channel.t A) s t :
  on_channel key m s t
  = match dict_get key (channels s) with
    | None => Run (Raise (KeyError (Axis.name key))) s t
    | Some c =>
        let r := m (handle s) c t in
        Run (out r) (set_channels (dict_set key (obj r) (channels s)) s) (log r)
    end.
Proof. reflexivity. Qed.

Lemma is_sensor_linear_run v h c t :
  _Channel.is_sensor_linear true v h c t
  = let t1 := (t ++ [ctl.call_GetProperty_s h (_Channel._handle c)
                       ctl.POSITIONER_TYPE_NAME])%list in
    match ctl.GetProperty_s_reply v t h (_Channel._handle c) ctl.POSITIONER_TYPE_NAME with
    | inl e => Run (Raise e) c t1
    | inr sensor => Run (Ret (is_linear sensor)) (_Channel.set__sensor sensor c) t1
    end.
Proof.
  unfold _Channel.is_sensor_linear, _Channel.sensor, ctl_GetProperty_s, bind, get,
    perform, modify, ret. cbn.
  now destruct (ctl.GetProperty_s_reply _ _ _ _ _).
Qed.

Lemma humanized_status_run v h c tr :
  _Channel.humanized_status v h c tr
  = let tr' := (tr ++ [ctl.call_GetProperty_i32 h (_Channel._handle c)
                         ctl.CHANNEL_STATE])%list in
    match ctl.GetProperty_i32_reply v tr h (_Channel._handle c) ctl.CHANNEL_STATE with
    | inl e => Run (Raise e) c tr'
    | inr code => Run (Ret (_Channel.humanize (ctl.ChannelState v) code))
                      (_Channel.set__status code c) tr'
    end.
Proof.
  unfold _Channel.humanized_status, _Channel.status, ctl_GetProperty_i32, bind, get,
    perform, modify, ret. cbn [out obj log].
  now destruct (ctl.GetProperty_i32_reply _ _ _ _ _).
Qed.

Lemma position_run v h c tr :
  _Channel.position v h c tr
  = let tr' := (tr ++ [ctl.call_GetProperty_i64 h (_Channel._handle c)
                         ctl.POSITION])%list in
    match ctl.GetProperty_i64_reply v tr h (_Channel._handle c) ctl.POSITION with
    | inl e => Run (Raise e) c tr'
    | inr pm =>
        match _Channel._to_micrometer (PyInt pm) with
        | inl e => Run (Raise e) c tr'
        | inr x => Run (Ret x) (_Channel.set__position x c) tr'
        end
    end.
Proof.
  unfold _Channel.position, ctl_GetProperty_i64, bind, get, perform, modify, ret, lift.
  cbn [out obj log].
  destruct (ctl.GetProperty_i64_reply _ _ _ _ _) as [e|pm]; [reflexivity|].
  now destruct (_Channel._to_micrometer (PyInt pm)).
Qed.

Lemma speed_run v h c tr :
  _Channel.speed v h c tr
  = let tr' := (tr ++ [ctl.call_GetProperty_i64 h (_Channel._handle c)
                         ctl.MOVE_VELOCITY])%list in
    match ctl.GetProperty_i64_reply v tr h (_Channel._handle c) ctl.MOVE_VELOCITY with
    | inl e => Run (Raise e) c tr'
    | inr pm =>
        match _Channel._to_micrometer (PyInt pm) with
        | inl e => Run (Raise e) c tr'
        | inr x => Run (Ret (PyFloat x)) (_Channel.set__speed (PyFloat x) c) tr'
        end
    end.
Proof.
  unfold _Channel.speed, ctl_GetProperty_i64, bind, get, perform, modify, ret, lift.
  cbn [out obj log].
  destruct (ctl.GetProperty_i64_reply _ _ _ _ _) as [e|pm]; [reflexivity|].
  now destruct (_Channel._to_micrometer (PyInt pm)).
Qed.

Lemma acceleration_run v h c tr :
  _Channel.acceleration v h c tr
  = let tr' := (tr ++ [ctl.call_GetProperty_i64 h (_Channel._handle c)
                         ctl.MOVE_ACCELERATION])%list in
    match ctl.GetProperty_i64_reply v tr h (_Channel._handle c) ctl.MOVE_ACCELERATION with
    | inl e => Run (Raise e) c tr'
    | inr pm =>
        match _Channel._to_micrometer (PyInt pm) with
        | inl e => Run (Raise e) c tr'
        | inr x => Run (Ret (PyFloat x)) (_Channel.set__acceleration (PyFloat x) c) tr'
        end
    end.
Proof.
  unfold _Channel.acceleration, ctl_GetProperty_i64, bind, get, perform, modify, ret,
    lift.
  cbn [out obj log].
  destruct (ctl.GetProperty_i64_reply _ _ _ _ _) as [e|pm]; [reflexivity|].
  now destruct (_Channel._to_micrometer (PyInt pm)).
Qed.

Lemma speed_setter_run v h umps c t :
  _Channel.speed_setter v h umps c t
  = match _Channel._to_picometer umps with
    | inl e => Run (Raise e) c t
    | inr pm =>
        let t1 := (t ++ [ctl.call_SetProperty_i64 h (_Channel._handle c)
                           ctl.MOVE_VELOCITY pm])%list in
        match ctl.SetProperty_i64_reply v t h (_Channel._handle c) ctl.MOVE_VELOCITY pm with
        | inl e => Run (Raise e) c t1
        | inr _ => Run (Ret tt) (_Channel.set__speed umps c) t1
        end
    end.
Proof.
  unfold _Channel.speed_setter, ctl_SetProperty_i64, bind, get, lift, perform, modify.
  cbn [out obj log].
  destruct (_Channel._to_picometer umps) as [e|pm]; [reflexivity|]. cbn zeta.
  now destruct (ctl.SetProperty_i64_reply _ _ _ _ _ _) as [e|[]].
Qed.

Lemma acceleration_setter_run v h umps2 c t :
  _Channel.acceleration_setter v h umps2 c t
  = match _Channel._to_picometer umps2 with
    | inl e => Run (Raise e) c t
    | inr pm =>
        let t1 := (t ++ [ctl.call_SetProperty_i64 h (_Channel._handle c)
                           ctl.MOVE_ACCELERATION pm])%list in
        match ctl.SetProperty_i64_reply v t h (_Channel._handle c)
                                        ctl.MOVE_ACCELERATION pm with
        | inl e => Run (Raise e) c t1
        | inr _ => Run (Ret tt) (_Channel.set__acceleration umps2 c) t1
        end
    end.
Proof.
  unfold _Channel.acceleration_setter, ctl_SetProperty_i64, bind, get, lift, perform,
    modify.
  cbn [out obj log].
  destruct (_Channel._to_picometer umps2) as [e|pm]; [reflexivity|]. cbn zeta.
  now destruct (ctl.SetProperty_i64_reply _ _ _ _ _ _) as [e|[]].
Qed.

Lemma disconnect_run v s tr :
  disconnect true v s tr
  = if connected s then
      if open_new_connection s then
        let tr' := (tr ++ [ctl.call_Close (handle s)])%list in
        match ctl.Close_reply v tr (handle s) with
        | inl e => Run (Raise e) s tr'
        | inr _ => Run (Ret tt) (set_handle None (set_connected false s)) tr'
        end
      else Run (Ret tt) (set_handle None (set_connected false s)) tr
    else Run (Raise NotConnected) s tr.
Proof.
  unfold disconnect. rewrite guarded_run.
  destruct (connected s); [|reflexivity].
  unfold bind at 1. unfold get at 1.
  destruct (open_new_connection s); [|reflexivity].
  unfold bind, ctl_Close, perform, modify.
  now destruct (ctl.Close_reply v tr (handle s)) as [e|[]].
Qed.

Lemma dict_set_same {V} key (c : V) d :
  dict_get key d = Some c -> dict_set key c d = d.
Proof.
  induction d as [|[k x] d IH]; [discriminate|]. cbn.
  destruct (Axis.eqb key k) eqn:E.
  - intros [= ->]. now destruct key, k.
  - intros H. now rewrite IH.
Qed.

Lemma set_channels_same s : set_channels (channels s) s = s.
Proof. now destruct s. Qed.

Ltac stage_cbn :=
  cbn [out obj log address connected handle channels Axis open_new_connection
       set_connected set_handle set_channels dict_get dict_set Axis.eqb
       _Channel._handle _Channel.name _Channel.__init__ _Channel.set__sensor
       _Channel.set__speed _Channel.set__acceleration _Channel.set__status
       _Channel.set__movement_mode _Channel.set__position
       _Channel._status _Channel._movement_mode _Channel._position _Channel._sensor
       _Channel._speed _Channel._acceleration
       map fst snd for_each for_list Axis.members Axis.name].

Ltac stage_cbn_in H :=
  cbn [out obj log address connected handle channels Axis open_new_connection
       set_connected set_handle set_channels dict_get dict_set Axis.eqb
       _Channel._handle _Channel.name _Channel.__init__ _Channel.set__sensor
       _Channel.set__speed _Channel.set__acceleration _Channel.set__status
       _Channel.set__movement_mode _Channel.set__position
       _Channel._status _Channel._movement_mode _Channel._position _Channel._sensor
       _Channel._speed _Channel._acceleration
       map fst snd for_each for_list Axis.members Axis.name] in H.

(** Runs the method in [H : r = m s t] on a stage given by its fields:
    a reply that the context knows is used, another one is split into
    its two cases. *)
Ltac run_in H :=
  repeat first
    [ rewrite to_picometer_300 in H
    | rewrite to_picometer_20 in H
    | rewrite to_picometer_0 in H
    | rewrite <- app_assoc in H
    | progress cbn [app] in H
    | progress stage_cbn_in H
    | match goal with
      | E : ?x = inr _ |- _ => rewrite E in H
      | E : ?x = inl _ |- _ => rewrite E in H
      | E : is_linear _ = _ |- _ => rewrite E in H
      end
    | match type of H with
      | context [match ?x with inl _ => _ | inr _ => _ end] => destruct x eqn:?
      | context [if is_linear ?x then _ else _] => destruct (is_linear x) eqn:?
      end
    | progress cbn zeta in H
    | rewrite on_channel_run in H
    | rewrite is_sensor_linear_run in H
    | rewrite humanized_status_run in H
    | rewrite position_run in H
    | rewrite speed_run in H
    | rewrite acceleration_run in H
    | rewrite speed_setter_run in H
    | rewrite acceleration_setter_run in H
    | rewrite move_run in H
    | rewrite guarded_run in H
    | progress unfold ret, raise, modify, get, try_except, roll_back in H
    | unfold bind at 1 in H ].

(** ** What [connect] does *)

(** The loop over [self.Axis] on a stage that has no channel, or the
    three of an earlier [connect]: it leaves three new channels. *)
Lemma build_channels_run (s : t) tr :
  fresh_or_wired s ->
  for_each Axis.members (fun ch =>
    modify (fun s =>
      set_channels
        (dict_set ch (_Channel.__init__ (value (Axis s) ch) (Axis.name ch))
                  (channels s)) s)) s tr
  = Run (Ret tt)
        (set_channels
           [ (Axis.X, _Channel.__init__ (value (Axis s) Axis.X) "X");
             (Axis.Y, _Channel.__init__ (value (Axis s) Axis.Y) "Y");
             (Axis.Z, _Channel.__init__ (value (Axis s) Axis.Z) "Z") ] s) tr.
Proof.
  destruct s as [addr con h chs ax opn]. intros [Hkeys|Hkeys]; cbn in Hkeys.
  - destruct chs; [reflexivity|discriminate].
  - destruct chs as [|[k1 c1] [|[k2 c2] [|[k3 c3] [|]]]]; try discriminate.
    injection Hkeys as -> -> ->. reflexivity.
Qed.

Lemma configure_fresh v s tr :
  fresh_or_wired s -> handle s = Some 1 ->
  configure true v s tr
  = ((try_except (sensors_and_defaults true v) roll_back ;;
      self <- get ;; ret (connected self))
       (set_channels
          [ (Axis.X, _Channel.__init__ (value (Axis s) Axis.X) "X");
            (Axis.Y, _Channel.__init__ (value (Axis s) Axis.Y) "Y");
            (Axis.Z, _Channel.__init__ (value (Axis s) Axis.Z) "Z") ] s) tr).
Proof.
  intros Hkeys Hh. unfold configure. unfold bind at 1. unfold get at 1. rewrite Hh.
  unfold bind at 1. unfold bind at 1. now rewrite build_channels_run.
Qed.

Lemma configure_success v s t b :
  handle s = Some 1 -> fresh_or_wired s ->
  out (configure true v s t) = Ret b ->
  exists nx ny nz,
    is_linear nx = true /\ is_linear ny = true /\ is_linear nz = true
    /\ configure true v s t
       = Run (Ret true)
             (Build (address s) true (Some 1)
                    [ (Axis.X, configured_channel (Axis s) Axis.X nx);
                      (Axis.Y, configured_channel (Axis s) Axis.Y ny);
                      (Axis.Z, configured_channel (Axis s) Axis.Z nz) ]
                    (Axis s) (open_new_connection s))
             (t ++ configuration (Axis s))%list.
Proof.
  intros Hh Hkeys. rewrite configure_fresh by assumption.
  destruct s as [addr con h chs ax opn]. cbn in Hh. subst h. clear Hkeys.
  remember ((_ ;; _) _ t) as r eqn:Hr.
  unfold sensors_and_defaults, _raise_if_sensor_non_linear,
    set_speed_xy, set_speed_z, set_acceleration_xy in Hr.
  run_in Hr; try (subst r; discriminate).
  intros _. subst r. eexists _, _, _. repeat split; eassumption.
Qed.

Lemma connect_configure v s tr :
  connected s = false ->
  (open_new_connection s = true ->
   ctl.Open_reply v tr (removesuffix (address s) "_Ch1-3") = inr 1) ->
  connect true v s tr = configure true v (set_handle (Some 1) s) (opened s tr).
Proof.
  intros Hcon Hopen. unfold opened. destruct (open_new_connection s) eqn:Hrole.
  - rewrite connect_primary by assumption. cbn zeta. now rewrite (Hopen eq_refl).
  - now apply connect_secondary.
Qed.

Lemma connect_returns_opened v s tr b :
  connected s = false ->
  out (connect true v s tr) = Ret b ->
  open_new_connection s = true ->
  ctl.Open_reply v tr (removesuffix (address s) "_Ch1-3") = inr 1.
Proof.
  intros Hcon Hret Hrole. rewrite connect_primary in Hret by assumption.
  cbn zeta in Hret.
  destruct (ctl.Open_reply v tr _) as [e|h]; [discriminate|].
  destruct (Z.eqb_spec h 1) as [Hh|_]; [now subst h|discriminate].
Qed.



Lemma configure_non_linear v s tr :
  handle s = Some 1 -> fresh_or_wired s ->
  let ax := Axis s in
  let sensor_of tr' a :=
    ctl.GetProperty_s_reply v tr' (Some 1) (value ax a) ctl.POSITIONER_TYPE_NAME in
  let refused a tr' :=
    configure true v s tr
    = Run (Raise (StageError ("Channel " ++ Axis.name a ++ " of stage " ++ address s
                              ++ " has no supported linear sensor!")))
          (Build (address s) false None [] ax (open_new_connection s)) tr' in
  (forall n, sensor_of tr Axis.X = inr n -> is_linear n = false ->
     refused Axis.X (tr ++ [sensor_read (value ax Axis.X)])%list)
  /\ (forall nx n,
        sensor_of tr Axis.X = inr nx -> is_linear nx = true ->
        sensor_of (tr ++ [sensor_read (value ax Axis.X)])%list Axis.Y = inr n ->
        is_linear n = false ->
        refused Axis.Y (tr ++ [sensor_read (value ax Axis.X);
                               sensor_read (value ax Axis.Y)])%list)
  /\ (forall nx ny n,
        sensor_of tr Axis.X = inr nx -> is_linear nx = true ->
        sensor_of (tr ++ [sensor_read (value ax Axis.X)])%list Axis.Y = inr ny ->
        is_linear ny = true ->
        sensor_of (tr ++ [sensor_read (value ax Axis.X);
                          sensor_read (value ax Axis.Y)])%list Axis.Z = inr n ->
        is_linear n = false ->
        refused Axis.Z (tr ++ [sensor_read (value ax Axis.X);
                               sensor_read (value ax Axis.Y);
                               sensor_read (value ax Axis.Z)])%list).
Proof.
  intros Hh Hkeys ax sensor_of refused. subst ax sensor_of refused. cbn beta.
  rewrite configure_fresh by assumption.
  destruct s as [addr con h chs ax opn]. cbn in Hh. subst h. clear Hkeys.
  unfold sensor_read. stage_cbn.
  repeat split.
  - intros n Hx Hn.
    remember ((_ ;; _) _ tr) as r eqn:Hr.
    unfold sensors_and_defaults, _raise_if_sensor_non_linear in Hr.
    run_in Hr. exact Hr.
  - intros nx n Hx Hnx Hy Hn.
    remember ((_ ;; _) _ tr) as r eqn:Hr.
    unfold sensors_and_defaults, _raise_if_sensor_non_linear in Hr.
    run_in Hr. exact Hr.
  - intros nx ny n Hx Hnx Hy Hny Hz Hn.
    remember ((_ ;; _) _ tr) as r eqn:Hr.
    unfold sensors_and_defaults, _raise_if_sensor_non_linear in Hr.
    run_in Hr. exact Hr.
Qed.

(** X3: [connect] on a stage that gets its handle gives up at the first
    axis, in the order X, Y, Z, whose sensor type is not a linear one: it
    raises the [StageError] that names this axis and the address; it has
    read the sensor types up to this axis and nothing else, so no default
    is written; and it leaves the stage not connected, without handle and
    without channels. *)
Theorem connect_refuses_non_linear_sensor v s tr :
  connected s = false -> fresh_or_wired s ->
  (open_new_connection s = true ->
   ctl.Open_reply v tr (removesuffix (address s) "_Ch1-3") = inr 1) ->
  let ax := Axis s in
  let t1 := opened s tr in
  let sensor_of tr' a :=
    ctl.GetProperty_s_reply v tr' (Some 1) (value ax a) ctl.POSITIONER_TYPE_NAME in
  let refused a tr' :=
    connect true v s tr
    = Run (Raise (StageError ("Channel " ++ Axis.name a ++ " of stage " ++ address s
                              ++ " has no supported linear sensor!")))
          (Build (address s) false None [] ax (open_new_connection s)) tr' in
  (forall n, sensor_of t1 Axis.X = inr n -> is_linear n = false ->
     refused Axis.X (t1 ++ [sensor_read (value ax Axis.X)])%list)
  /\ (forall nx n,
        sensor_of t1 Axis.X = inr nx -> is_linear nx = true ->
        sensor_of (t1 ++ [sensor_read (value ax Axis.X)])%list Axis.Y = inr n ->
        is_linear n = false ->
        refused Axis.Y (t1 ++ [sensor_read (value ax Axis.X);
                               sensor_read (value ax Axis.Y)])%list)
  /\ (forall nx ny n,
        sensor_of t1 Axis.X = inr nx -> is_linear nx = true ->
        sensor_of (t1 ++ [sensor_read (value ax Axis.X)])%list Axis.Y = inr ny ->
        is_linear ny = true ->
        sensor_of (t1 ++ [sensor_read (value ax Axis.X);
                          sensor_read (value ax Axis.Y)])%list Axis.Z = inr n ->
        is_linear n = false ->
        refused Axis.Z (t1 ++ [sensor_read (value ax Axis.X);
                               sensor_read (value ax Axis.Y);
                               sensor_read (value ax Axis.Z)])%list).
Proof.
  intros Hcon Hkeys Hopen. cbn zeta.
  rewrite connect_configure by assumption.
  exact (configure_non_linear v (set_handle (Some 1) s) (opened s tr) eq_refl Hkeys).
Qed.

Lemma connect_refuses_non_linear_sensor_witness :
  let v := bench 1 (fun idx => if idx =? 4 then "SR36M" else "SL...S1SS")
                 (fun _ _ => 0) in
  connect true v LOC1_Ch4_6 []
  = Run (Raise (StageError
                  "Channel Y of stage LOC1_Ch4-6 has no supported linear sensor!"))
        LOC1_Ch4_6 [sensor_read 3; sensor_read 4].
Proof.
  intros v.
  assert (Hopen : open_new_connection LOC1_Ch4_6 = true ->
                  ctl.Open_reply v [] (removesuffix (address LOC1_Ch4_6) "_Ch1-3")
                  = inr 1) by reflexivity.
  exact (proj1 (proj2 (connect_refuses_non_linear_sensor v LOC1_Ch4_6 []
                         eq_refl (or_introl eq_refl) Hopen))
           "SL...S1SS" "SR36M" eq_refl eq_refl eq_refl eq_refl).
Defined.

(** X4: when [connect] raises after the stage got its handle (it is
    secondary, or [Open] returned 1), whatever raised (a read, a sensor
    that is not linear, the write of a default), the stage is left not
    connected, without handle and without channels.  The calls after the
    [Open] are calls on channels with the handle 1 and nothing else: the
    session that a primary stage opened is not closed. *)
Theorem connect_failure_rolls_back v s tr e :
  connected s = false ->
  (open_new_connection s = true ->
   ctl.Open_reply v tr (removesuffix (address s) "_Ch1-3") = inr 1) ->
  out (connect true v s tr) = Raise e ->
  let r := connect true v s tr in
  connected (obj r) = false /\ handle (obj r) = None /\ channels (obj r) = []
  /\ exists new, log r = (opened s tr ++ new)%list
                 /\ Forall (uses_handle (Some 1)) new.
Proof.
  intros Hcon Hopen Hraise r. subst r.
  rewrite connect_configure in * by assumption.
  destruct (configure_spec true v 1 (set_handle (Some 1) s) (opened s tr) eq_refl)
    as [(new & Hlog & Hnew) Hpost].
  rewrite Hraise in Hpost. destruct Hpost as (Hc & Hh & Hchs).
  repeat split; try assumption. now exists new.
Qed.

Lemma connect_failure_rolls_back_witness :
  let v := bench 1 (fun idx => if idx =? 1 then "SR36M" else "SL...S1SS")
                 (fun _ _ => 0) in
  let r := connect true v LOC1_Ch1_3 [] in
  connected (obj r) = false /\ handle (obj r) = None /\ channels (obj r) = []
  /\ exists new, log r = ([ctl.call_Open "LOC1"] ++ new)%list
                 /\ Forall (uses_handle (Some 1)) new.
Proof.
  intros v.
  apply (connect_failure_rolls_back v LOC1_Ch1_3 []
           (StageError
              "Channel Y of stage LOC1_Ch1-3 has no supported linear sensor!"));
    reflexivity.
Defined.

(** X5: [connect] never answers [False]: it answers [True] or it
    raises.  (The branch [else: self.connected = False] is never taken:
    where it is tested, the handle is 1.) *)
Theorem connect_never_answers_False loaded v s tr :
  out (connect loaded v s tr) <> Ret false.
Proof.
  intros Hret. destruct loaded; [|discriminate].
  destruct (connected s) eqn:Hcon.
  - rewrite connect_eq in Hret. unfold assert_driver_loaded, bind, get in Hret.
    rewrite Hcon in Hret. discriminate.
  - now destruct (connect_success v s tr false Hcon Hret).
Qed.

(** ** Connecting twice, disconnecting *)

(** X6: after a [connect] that returned, a second [connect] answers
    [True] without any call and leaves the stage as it is. *)
Theorem connect_again_is_silent v s tr b :
  connected s = false ->
  out (connect true v s tr) = Ret b ->
  let r := connect true v s tr in
  connect true v (obj r) (log r) = Run (Ret true) (obj r) (log r).
Proof.
  intros Hcon Hret r.
  destruct (connect_success v s tr b Hcon Hret) as (_ & Hconnected & _).
  fold r in Hconnected.
  rewrite connect_eq. unfold assert_driver_loaded, bind, get.
  now rewrite Hconnected.
Qed.

Lemma connect_again_is_silent_witness :
  let v := bench 1 (fun _ => "SL...S1SS") (fun _ _ => 0) in
  let r := connect true v LOC1_Ch1_3 [] in
  connect true v (obj r) (log r) = Run (Ret true) (obj r) (log r).
Proof.
  intros v. apply (connect_again_is_silent v LOC1_Ch1_3 [] true); reflexivity.
Defined.

(** X7: [disconnect] after a [connect] that returned.  A primary stage
    calls [Close] on the handle 1, a secondary stage calls nothing.  When
    [disconnect] returns, the stage is not connected and has no handle,
    and it still has the three channels of the [connect].  When [Close]
    raises, [disconnect] raises the same and the stage stays as it was:
    connected, with the handle 1. *)
Theorem disconnect_after_connect v s tr b :
  connected s = false -> fresh_or_wired s ->
  out (connect true v s tr) = Ret b ->
  let r := connect true v s tr in
  let r' := disconnect true v (obj r) (log r) in
  log r' = (log r ++ if open_new_connection s then [ctl.call_Close (Some 1)] else [])%list
  /\ (out r' = Ret tt ->
      connected (obj r') = false /\ handle (obj r') = None
      /\ channels (obj r') = channels (obj r)
      /\ map fst (channels (obj r')) = Axis.members)
  /\ (forall e, out r' = Raise e ->
      open_new_connection s = true
      /\ ctl.Close_reply v (log r) (Some 1) = inl e
      /\ obj r' = obj r /\ connected (obj r') = true /\ handle (obj r') = Some 1)
  /\ out r' <> Running.
Proof.
  intros Hcon Hkeys Hret r r'.
  pose proof (connect_returns_opened v s tr b Hcon Hret) as Hopen.
  assert (Hrun : exists chs,
             connect true v s tr
             = Run (Ret true)
                   (Build (address s) true (Some 1) chs (Axis s) (open_new_connection s))
                   (opened s tr ++ configuration (Axis s))%list
             /\ map fst chs = Axis.members).
  { rewrite connect_configure in * by assumption.
    destruct (configure_success v (set_handle (Some 1) s) (opened s tr) b eq_refl
                Hkeys Hret) as (nx & ny & nz & _ & _ & _ & Hrun).
    eexists. split; [exact Hrun|reflexivity]. }
  destruct Hrun as (chs & Hrun & Hchs).
  subst r'. subst r. rewrite Hrun. cbn [obj log]. rewrite disconnect_run.
  cbn [connected open_new_connection handle].
  destruct (open_new_connection s).
  - cbn zeta. destruct (ctl.Close_reply v _ (Some 1)) as [e|[]] eqn:Hclose;
      cbn [out obj log].
    + split; [reflexivity|]. split; [discriminate|]. split; [|discriminate].
      intros e' [= <-]. now repeat split.
    + split; [reflexivity|]. split; [now repeat split|].
      split; discriminate.
  - cbn [out obj log]. rewrite app_nil_r.
    split; [reflexivity|]. split; [now repeat split|]. split; discriminate.
Qed.

Lemma disconnect_after_connect_witness :
  let v := bench 1 (fun _ => "SL...S1SS") (fun _ _ => 0) in
  let r := connect true v LOC1_Ch1_3 [] in
  let r' := disconnect true v (obj r) (log r) in
  log r' = (log r ++ [ctl.call_Close (Some 1)])%list
  /\ (out r' = Ret tt ->
      connected (obj r') = false /\ handle (obj r') = None
      /\ channels (obj r') = channels (obj r)
      /\ map fst (channels (obj r')) = Axis.members)
  /\ (forall e, out r' = Raise e ->
      open_new_connection LOC1_Ch1_3 = true
      /\ ctl.Close_reply v (log r) (Some 1) = inl e
      /\ obj r' = obj r /\ connected (obj r') = true /\ handle (obj r') = Some 1)
  /\ out r' <> Running.
Proof.
  intros v.
  apply (disconnect_after_connect v LOC1_Ch1_3 [] true);
    [reflexivity|now left|reflexivity].
Defined.

(** ** The position, the status and the speed *)

(** X8: a [get_position] that returns, on a connected stage with the
    channels X, Y and Z, has read the position of X, of Y and of Z, in
    this order and with the handle of the stage, and nothing else; it
    returns the three answers in micrometers, [[x, y, z]], and has stored
    each one in [_position] of its channel. *)
Theorem get_position_reads_xyz v s tr cx cy cz ps :
  connected s = true ->
  channels s = [(Axis.X, cx); (Axis.Y, cy); (Axis.Z, cz)] ->
  out (get_position true v s tr) = Ret ps ->
  let h := handle s in
  let read c := ctl.call_GetProperty_i64 h (_Channel._handle c) ctl.POSITION in
  let position_of tr' c :=
    ctl.GetProperty_i64_reply v tr' h (_Channel._handle c) ctl.POSITION in
  exists px py pz x y z,
    position_of tr cx = inr px
    /\ position_of (tr ++ [read cx])%list cy = inr py
    /\ position_of (tr ++ [read cx; read cy])%list cz = inr pz
    /\ _Channel._to_micrometer (PyInt px) = inr x
    /\ _Channel._to_micrometer (PyInt py) = inr y
    /\ _Channel._to_micrometer (PyInt pz) = inr z
    /\ get_position true v s tr
       = Run (Ret [x; y; z])
             (set_channels [ (Axis.X, _Channel.set__position x cx);
                             (Axis.Y, _Channel.set__position y cy);
                             (Axis.Z, _Channel.set__position z cz) ] s)
             (tr ++ [read cx; read cy; read cz])%list.
Proof.
  destruct s as [addr con h chs ax opn]. cbn [connected channels handle].
  intros -> ->. cbn zeta.
  remember (get_position true v _ tr) as r eqn:Hr.
  unfold get_position in Hr.
  run_in Hr; try (subst r; discriminate).
  intros _. subst r. eexists _, _, _, _, _, _. repeat split; eassumption.
Qed.

Lemma get_position_reads_xyz_witness :
  let v := bench 1 (fun _ => "SL...S1SS") (fun _ _ => 0) in
  exists px py pz x y z,
    ctl.GetProperty_i64_reply v [] (Some 1) 0 ctl.POSITION = inr px
    /\ ctl.GetProperty_i64_reply v [ctl.call_GetProperty_i64 (Some 1) 0 ctl.POSITION]
         (Some 1) 1 ctl.POSITION = inr py
    /\ ctl.GetProperty_i64_reply v [ctl.call_GetProperty_i64 (Some 1) 0 ctl.POSITION;
                                    ctl.call_GetProperty_i64 (Some 1) 1 ctl.POSITION]
         (Some 1) 2 ctl.POSITION = inr pz
    /\ _Channel._to_micrometer (PyInt px) = inr x
    /\ _Channel._to_micrometer (PyInt py) = inr y
    /\ _Channel._to_micrometer (PyInt pz) = inr z
    /\ get_position true v LOC1_connected []
       = Run (Ret [x; y; z])
             (set_channels
                [ (Axis.X, _Channel.set__position x
                             (configured_channel Axis_Ch123 Axis.X "SL...S1SS"));
                  (Axis.Y, _Channel.set__position y
                             (configured_channel Axis_Ch123 Axis.Y "SL...S1SS"));
                  (Axis.Z, _Channel.set__position z
                             (configured_channel Axis_Ch123 Axis.Z "SL...S1SS")) ]
                LOC1_connected)
             [ctl.call_GetProperty_i64 (Some 1) 0 ctl.POSITION;
              ctl.call_GetProperty_i64 (Some 1) 1 ctl.POSITION;
              ctl.call_GetProperty_i64 (Some 1) 2 ctl.POSITION].
Proof.
  intros v.
  apply (get_position_reads_xyz v LOC1_connected []
           (configured_channel Axis_Ch123 Axis.X "SL...S1SS")
           (configured_channel Axis_Ch123 Axis.Y "SL...S1SS")
           (configured_channel Axis_Ch123 Axis.Z "SL...S1SS")
           [0%float; 0%float; 0%float]);
    vm_compute; reflexivity.
Defined.

(** X9: on a connected stage with the channels X, Y and Z whose states
    can be read, [get_status] and [is_stopped] read the state of all three
    channels, in this order, [is_stopped] also when the first one already
    reports a move, and store each code in [_status] of its channel.
    [get_status] returns the humanized status of X, of Y and of Z;
    [is_stopped] answers [False] exactly when one of the three codes has a
    bit of a flag named ACTIVELY_MOVING set. *)
Theorem is_stopped_reads_every_channel v s tr cx cy cz kx ky kz :
  connected s = true ->
  channels s = [(Axis.X, cx); (Axis.Y, cy); (Axis.Z, cz)] ->
  let h := handle s in
  let read c := ctl.call_GetProperty_i32 h (_Channel._handle c) ctl.CHANNEL_STATE in
  let state_of tr' c :=
    ctl.GetProperty_i32_reply v tr' h (_Channel._handle c) ctl.CHANNEL_STATE in
  state_of tr cx = inr kx ->
  state_of (tr ++ [read cx])%list cy = inr ky ->
  state_of (tr ++ [read cx; read cy])%list cz = inr kz ->
  let moving k :=
    exists value, In ("ACTIVELY_MOVING", value) (ctl.ChannelState v)
                  /\ Z.land k value <> 0 in
  let s' := set_channels [ (Axis.X, _Channel.set__status kx cx);
                           (Axis.Y, _Channel.set__status ky cy);
                           (Axis.Z, _Channel.set__status kz cz) ] s in
  let tr' := (tr ++ [read cx; read cy; read cz])%list in
  get_status true v s tr
  = Run (Ret [ _Channel.humanize (ctl.ChannelState v) kx;
               _Channel.humanize (ctl.ChannelState v) ky;
               _Channel.humanize (ctl.ChannelState v) kz ]) s' tr'
  /\ exists b,
       is_stopped true v s tr = Run (Ret b) s' tr'
       /\ (b = false <-> moving kx \/ moving ky \/ moving kz).
Proof.
  destruct s as [addr con h chs ax opn]. cbn [connected channels handle].
  intros -> ->. cbn zeta. intros Hx Hy Hz.
  split.
  { remember (get_status true v _ tr) as r eqn:Hr.
    unfold get_status in Hr.
    run_in Hr. exact Hr. }
  remember (is_stopped true v _ tr) as r eqn:Hr.
  unfold is_stopped, get_status in Hr.
  run_in Hr.
  eexists. split; [exact Hr|].
  fold (entry_ACTIVELY_MOVING (_Channel.humanize (ctl.ChannelState v) kx)).
  fold (entry_ACTIVELY_MOVING (_Channel.humanize (ctl.ChannelState v) ky)).
  fold (entry_ACTIVELY_MOVING (_Channel.humanize (ctl.ChannelState v) kz)).
  rewrite <- !actively_moving_flag.
  cbn [existsb]. rewrite orb_false_r, negb_false_iff, !orb_true_iff.
  reflexivity.
Qed.

Lemma is_stopped_reads_every_channel_witness :
  let v := bench 1 (fun _ => "SL...S1SS") (fun _ idx => if idx =? 0 then 1 else 0) in
  let read idx := ctl.call_GetProperty_i32 (Some 1) idx ctl.CHANNEL_STATE in
  let moving k :=
    exists value, In ("ACTIVELY_MOVING", value) (ctl.ChannelState v)
                  /\ Z.land k value <> 0 in
  let s' := set_channels
              [ (Axis.X, _Channel.set__status 1
                           (configured_channel Axis_Ch123 Axis.X "SL...S1SS"));
                (Axis.Y, _Channel.set__status 0
                           (configured_channel Axis_Ch123 Axis.Y "SL...S1SS"));
                (Axis.Z, _Channel.set__status 0
                           (configured_channel Axis_Ch123 Axis.Z "SL...S1SS")) ]
              LOC1_connected in
  get_status true v LOC1_connected []
  = Run (Ret [ _Channel.humanize SmarAct_ChannelState 1;
               _Channel.humanize SmarAct_ChannelState 0;
               _Channel.humanize SmarAct_ChannelState 0 ]) s' [read 0; read 1; read 2]
  /\ exists b,
       is_stopped true v LOC1_connected [] = Run (Ret b) s' [read 0; read 1; read 2]
       /\ (b = false <-> moving 1 \/ moving 0 \/ moving 0).
Proof.
  intros v.
  apply (is_stopped_reads_every_channel v LOC1_connected []
           (configured_channel Axis_Ch123 Axis.X "SL...S1SS")
           (configured_channel Axis_Ch123 Axis.Y "SL...S1SS")
           (configured_channel Axis_Ch123 Axis.Z "SL...S1SS") 1 0 0);
    reflexivity.
Defined.

(** X10: [set_speed_xy] and then [get_speed_xy], on a controller that
    accepts the velocity and reads that of X back as written: the calls
    are the two writes and the two reads, X before Y; the answer is the
    [float] that the round trip through picometers gives,
    [to_si(to_native(umps))], whatever Y reads; and what was read replaces
    the value that the caller gave in [_speed] of X and of Y. *)
Theorem speed_xy_round_trip v s tr cx cy cz umps pm f py fy :
  connected s = true ->
  channels s = [(Axis.X, cx); (Axis.Y, cy); (Axis.Z, cz)] ->
  _Channel._to_picometer umps = inr pm ->
  _Channel._to_micrometer (PyInt pm) = inr f ->
  _Channel._to_micrometer (PyInt py) = inr fy ->
  let h := handle s in
  let write c := ctl.call_SetProperty_i64 h (_Channel._handle c) ctl.MOVE_VELOCITY pm in
  let read c := ctl.call_GetProperty_i64 h (_Channel._handle c) ctl.MOVE_VELOCITY in
  ctl.SetProperty_i64_reply v tr h (_Channel._handle cx) ctl.MOVE_VELOCITY pm = inr tt ->
  ctl.SetProperty_i64_reply v (tr ++ [write cx])%list h (_Channel._handle cy)
                            ctl.MOVE_VELOCITY pm = inr tt ->
  ctl.GetProperty_i64_reply v (tr ++ [write cx; write cy])%list h (_Channel._handle cx)
                            ctl.MOVE_VELOCITY = inr pm ->
  ctl.GetProperty_i64_reply v (tr ++ [write cx; write cy; read cx])%list h
                            (_Channel._handle cy) ctl.MOVE_VELOCITY = inr py ->
  (set_speed_xy true v umps ;; get_speed_xy true v) s tr
  = Run (Ret (PyFloat f))
        (set_channels [ (Axis.X, _Channel.set__speed (PyFloat f) cx);
                        (Axis.Y, _Channel.set__speed (PyFloat fy) cy);
                        (Axis.Z, cz) ] s)
        (tr ++ [write cx; write cy; read cx; read cy])%list
  /\ round_trip umps = inr f.
Proof.
  destruct s as [addr con h chs ax opn]. cbn [connected channels handle].
  intros -> -> Hpm Hf Hfy. cbn zeta. intros Hwx Hwy Hrx Hry.
  split; [|unfold round_trip; now rewrite Hpm].
  remember ((_ ;; _) _ tr) as r eqn:Hr.
  unfold set_speed_xy, get_speed_xy in Hr.
  run_in Hr. exact Hr.
Qed.

Lemma speed_xy_round_trip_witness :
  let v := bench_reading 300000000 in
  let write idx := ctl.call_SetProperty_i64 (Some 1) idx ctl.MOVE_VELOCITY 300000000 in
  let read idx := ctl.call_GetProperty_i64 (Some 1) idx ctl.MOVE_VELOCITY in
  (set_speed_xy true v (PyInt 300) ;; get_speed_xy true v) LOC1_connected []
  = Run (Ret (PyFloat 300%float))
        (set_channels
           [ (Axis.X, _Channel.set__speed (PyFloat 300%float)
                        (configured_channel Axis_Ch123 Axis.X "SL...S1SS"));
             (Axis.Y, _Channel.set__speed (PyFloat 300%float)
                        (configured_channel Axis_Ch123 Axis.Y "SL...S1SS"));
             (Axis.Z, configured_channel Axis_Ch123 Axis.Z "SL...S1SS") ]
           LOC1_connected)
        [write 0; write 1; read 0; read 1]
  /\ round_trip (PyInt 300) = inr 300%float.
Proof.
  intros v.
  apply (speed_xy_round_trip v LOC1_connected []
           (configured_channel Axis_Ch123 Axis.X "SL...S1SS")
           (configured_channel Axis_Ch123 Axis.Y "SL...S1SS")
           (configured_channel Axis_Ch123 Axis.Z "SL...S1SS")
           (PyInt 300) 300000000 300%float 300000000 300%float);
    vm_compute; reflexivity.
Defined.

(** ** The reference mark *)

(** X11: [find_reference_mark] never calls the controller and never
    changes the stage.  On a connected stage that has a channel it raises
    [NotImplementedError]; without a channel it returns. *)
Theorem find_reference_mark_not_implemented loaded s tr :
  find_reference_mark loaded s tr
  = Run (if loaded then
           if connected s then
             match channels s with
             | [] => Ret tt
             | _ :: _ => Raise NotImplementedError
             end
           else Raise NotConnected
         else Raise DriverUnavailable) s tr.
Proof.
  unfold find_reference_mark. rewrite guarded_run.
  destruct loaded; [|reflexivity]. destruct (connected s); [|reflexivity].
  unfold bind at 1. unfold get at 1.
  destruct (channels s) as [|[key c] chs] eqn:Hchs; [reflexivity|].
  cbn [map fst for_each]. unfold bind at 1. rewrite on_channel_run, Hchs.
  cbn [dict_get]. replace (Axis.eqb key key) with true by now destruct key.
  unfold _Channel.find_reference_mark, raise. cbn [out obj log dict_set].
  replace (Axis.eqb key key) with true by now destruct key.
  now rewrite <- Hchs, set_channels_same.
Qed.

(** ** The cache of the movement mode *)

(** X12: the getter [movement_mode] makes no call.  After the setter
    it answers the mode that was set when the controller accepted it, and
    the mode of before when the value was no move mode or the controller
    refused it.  After [move] it answers the mode of the move as soon as
    the controller accepted the mode, also when the move itself failed. *)
Theorem movement_mode_reads_last_accepted v h c tr :
  (forall mode,
      let r := _Channel.movement_mode_setter v h mode c tr in
      _Channel.movement_mode (obj r) (log r)
      = Run (Ret (match mode, out r with
                  | PyMoveMode m, Ret _ => m
                  | _, _ => _Channel._movement_mode c
                  end)) (obj r) (log r))
  /\ (forall x mode,
         let r := _Channel.move v h x mode c tr in
         _Channel.movement_mode (obj r) (log r)
         = Run (Ret (match mode with
                     | PyMoveMode m =>
                         match ctl.SetProperty_i32_reply v tr h (_Channel._handle c)
                                 ctl.MOVE_MODE (ctl.MoveMode_value m) with
                         | inr _ => m
                         | inl _ => _Channel._movement_mode c
                         end
                     | _ => _Channel._movement_mode c
                     end)) (obj r) (log r)).
Proof.
  split.
  - intros mode. destruct mode; try reflexivity.
    unfold _Channel.movement_mode_setter, ctl_SetProperty_i32, bind, get, perform,
      modify. cbn.
    now destruct (ctl.SetProperty_i32_reply _ _ _ _ _ _) as [e|[]].
  - intros x mode. destruct mode; try reflexivity.
    rewrite move_run. cbn zeta.
    destruct (ctl.SetProperty_i32_reply _ _ _ _ _ _) as [e|[]]; [reflexivity|].
    now destruct (_Channel._to_picometer x).
Qed.

(** ** Values that have no picometer value *)

(** X13: a value for which [_to_picometer] raises, as it does for NaN.
    [set_speed_xy] and [set_acceleration_xy] raise that exception before
    any call and leave the stage as it is.  [move_absolute] with such an
    [x] has already written the move mode of X when it raises: this is its
    only call; it sends no [Move] and does nothing for Y and Z. *)
Theorem unconvertible_value_is_refused v s tr x e cx :
  _Channel._to_picometer x = inl e ->
  connected s = true ->
  dict_get Axis.X (channels s) = Some cx ->
  set_speed_xy true v x s tr = Run (Raise e) s tr
  /\ set_acceleration_xy true v x s tr = Run (Raise e) s tr
  /\ (forall fuel y z wait,
         ctl.SetProperty_i32_reply v tr (handle s) (_Channel._handle cx) ctl.MOVE_MODE 0
         = inr tt ->
         move_absolute true v fuel (Some x) y z wait s tr
         = Run (Raise e)
               (set_channels
                  (dict_set Axis.X (_Channel.set__movement_mode ctl.CL_ABSOLUTE cx)
                            (channels s)) s)
               (tr ++ [ctl.call_SetProperty_i32 (handle s) (_Channel._handle cx)
                         ctl.MOVE_MODE 0])%list).
Proof.
  intros Hx Hcon Hget. repeat split.
  - unfold set_speed_xy. rewrite guarded_run, Hcon. unfold bind at 1.
    rewrite on_channel_run, Hget. cbn zeta. rewrite speed_setter_run, Hx.
    cbn [out obj log]. now rewrite (dict_set_same _ _ _ Hget), set_channels_same.
  - unfold set_acceleration_xy. rewrite guarded_run, Hcon. unfold bind at 1.
    rewrite on_channel_run, Hget. cbn zeta. rewrite acceleration_setter_run, Hx.
    cbn [out obj log]. now rewrite (dict_set_same _ _ _ Hget), set_channels_same.
  - intros fuel y z wait Hmode. rewrite move_absolute_run, Hcon.
    assert (Hmoves :
      (move_if_given v Axis.X (Some x) ;; move_if_given v Axis.Y y ;;
       move_if_given v Axis.Z z) s tr
      = Run (Raise e)
            (set_channels
               (dict_set Axis.X (_Channel.set__movement_mode ctl.CL_ABSOLUTE cx)
                         (channels s)) s)
            (tr ++ [ctl.call_SetProperty_i32 (handle s) (_Channel._handle cx)
                      ctl.MOVE_MODE 0])%list).
    { unfold bind at 1. cbn [move_if_given]. rewrite on_channel_run, Hget. cbn zeta.
      rewrite move_run. cbn zeta. cbn [ctl.MoveMode_value]. now rewrite Hmode, Hx. }
    cbn zeta. now rewrite Hmoves.
Qed.

Lemma unconvertible_value_is_refused_witness :
  let v := bench 1 (fun _ => "SL...S1SS") (fun _ _ => 0) in
  let e := ValueError "cannot convert float NaN to integer" in
  _Channel._to_picometer (PyFloat nan) = inl e
  /\ set_speed_xy true v (PyFloat nan) LOC1_connected [] = Run (Raise e) LOC1_connected []
  /\ set_acceleration_xy true v (PyFloat nan) LOC1_connected []
     = Run (Raise e) LOC1_connected []
  /\ log (move_absolute true v 0 (Some (PyFloat nan)) None None true LOC1_connected [])
     = [ctl.call_SetProperty_i32 (Some 1) 0 ctl.MOVE_MODE 0].
Proof.
  intros v e.
  assert (Hnan : _Channel._to_picometer (PyFloat nan) = inl e)
    by (vm_compute; reflexivity).
  destruct (unconvertible_value_is_refused v LOC1_connected [] (PyFloat nan) e
              (configured_channel Axis_Ch123 Axis.X "SL...S1SS")
              Hnan eq_refl eq_refl) as (Hspeed & Hacc & Hmove).
  split; [exact Hnan|]. split; [exact Hspeed|]. split; [exact Hacc|].
  now rewrite (Hmove 0%nat None None true eq_refl).
Defined.

(** ** Relative moves *)

Lemma move_relative_no_wait v fuel s tr cx cy cz x y z :
  connected s = true ->
  channels s = [(Axis.X, cx); (Axis.Y, cy); (Axis.Z, cz)] ->
  let r := move_relative true v fuel x y z false s tr in
  is_Raise (out r) = false ->
  let h := handle s in
  let mode c := ctl.call_SetProperty_i32 h (_Channel._handle c) ctl.MOVE_MODE 1 in
  let move c pm := ctl.call_Move h (_Channel._handle c) pm in
  exists px py pz s',
    _Channel._to_picometer x = inr px
    /\ _Channel._to_picometer y = inr py
    /\ _Channel._to_picometer z = inr pz
    /\ r = Run (Ret tt) s'
             (tr ++ [mode cx; move cx px; mode cy; move cy py; mode cz; move cz pz])%list.
Proof.
  destruct s as [addr con h chs ax opn]. cbn [connected channels handle].
  intros -> ->. cbn zeta.
  remember (move_relative true v fuel x y z false _ tr) as r eqn:Hr.
  unfold move_relative in Hr. cbn [ctl.MoveMode_value] in Hr.
  run_in Hr; cbn [ctl.MoveMode_value] in *; try (subst r; discriminate).
  intros _. subst r. eexists _, _, _, _. repeat split.
Qed.

(** X14: a [move_relative] that does not raise, on a connected stage
    with the channels X, Y and Z, has written the mode [CL_RELATIVE] (1)
    and sent a [Move], in picometers, to X, then to Y, then to Z: to all
    three, also for a displacement of 0.  What follows are only the sleeps
    and the status reads of the wait, and nothing without
    [wait_for_stopping]. *)
Theorem move_relative_moves_every_axis v fuel wait s tr cx cy cz x y z :
  connected s = true ->
  channels s = [(Axis.X, cx); (Axis.Y, cy); (Axis.Z, cz)] ->
  let r := move_relative true v fuel x y z wait s tr in
  is_Raise (out r) = false ->
  let h := handle s in
  let mode c := ctl.call_SetProperty_i32 h (_Channel._handle c) ctl.MOVE_MODE 1 in
  let move c pm := ctl.call_Move h (_Channel._handle c) pm in
  exists px py pz polls,
    _Channel._to_picometer x = inr px
    /\ _Channel._to_picometer y = inr py
    /\ _Channel._to_picometer z = inr pz
    /\ log r = (tr ++ [mode cx; move cx px; mode cy; move cy py; mode cz; move cz pz]
                   ++ polls)%list
    /\ Forall poll_call polls
    /\ (wait = false -> polls = [] /\ out r = Ret tt).
Proof.
  intros Hcon Hchs r Hr h mode move.
  pose proof (move_relative_no_wait v fuel s tr cx cy cz x y z Hcon Hchs) as Hmoves.
  cbn zeta in Hmoves. fold h mode move in Hmoves.
  destruct wait.
  - subst r. rewrite move_relative_then_wait in *. cbn zeta in *.
    destruct (out (move_relative true v fuel x y z false s tr)) as [[]|e|] eqn:Hout.
    + destruct (Hmoves eq_refl) as (px & py & pz & s' & Hx & Hy & Hz & Hrun).
      rewrite Hrun. cbn [obj log].
      destruct (wait_polls true v default_delay fuel s'
                  (tr ++ [mode cx; move cx px; mode cy; move cy py; mode cz; move cz pz])%list
                  Logic.I) as [(polls & Hpolls & Hcalls) _].
      exists px, py, pz, polls. rewrite Hpolls, <- app_assoc.
      repeat split; try assumption; discriminate.
    + rewrite Hout in Hr. discriminate.
    + destruct (Hmoves eq_refl) as (px & py & pz & s' & _ & _ & _ & Hrun).
      rewrite Hrun in Hout. discriminate.
  - destruct (Hmoves Hr) as (px & py & pz & s' & Hx & Hy & Hz & Hrun).
    exists px, py, pz, []. subst r. rewrite Hrun. cbn [out log].
    repeat split; try assumption; constructor.
Qed.

Lemma move_relative_moves_every_axis_witness :
  let v := bench 1 (fun _ => "SL...S1SS") (fun _ _ => 0) in
  let r := move_relative true v 0 (PyInt 5) (PyFloat 0x1p-1%float) (PyInt 0) false
                         LOC1_connected [] in
  let mode idx := ctl.call_SetProperty_i32 (Some 1) idx ctl.MOVE_MODE 1 in
  exists px py pz polls,
    _Channel._to_picometer (PyInt 5) = inr px
    /\ _Channel._to_picometer (PyFloat 0x1p-1%float) = inr py
    /\ _Channel._to_picometer (PyInt 0) = inr pz
    /\ log r = ([] ++ [mode 0; ctl.call_Move (Some 1) 0 px;
                       mode 1; ctl.call_Move (Some 1) 1 py;
                       mode 2; ctl.call_Move (Some 1) 2 pz] ++ polls)%list
    /\ Forall poll_call polls
    /\ (false = false -> polls = [] /\ out r = Ret tt).
Proof.
  intros v.
  apply (move_relative_moves_every_axis v 0 false LOC1_connected []
           (configured_channel Axis_Ch123 Axis.X "SL...S1SS")
           (configured_channel Axis_Ch123 Axis.Y "SL...S1SS")
           (configured_channel Axis_Ch123 Axis.Z "SL...S1SS"));
    vm_compute; reflexivity.
Defined.

(** ** The rounds of the wait *)

Lemma round_three v delay s tr cx cy cz :
  channels s = [(Axis.X, cx); (Axis.Y, cy); (Axis.Z, cz)] ->
  let r := round true v delay s tr in
  is_Raise (out r) = false ->
  log r = (tr ++ poll_round delay (handle s) (_Channel._handle cx)
                            (_Channel._handle cy) (_Channel._handle cz))%list
  /\ out r <> Running
  /\ exists kx ky kz,
       obj r = set_channels [ (Axis.X, _Channel.set__status kx cx);
                              (Axis.Y, _Channel.set__status ky cy);
                              (Axis.Z, _Channel.set__status kz cz) ] s.
Proof.
  destruct s as [addr con h chs ax opn]. cbn [channels handle].
  intros ->. cbn zeta.
  remember (round true v delay _ tr) as r eqn:Hr.
  unfold round, is_stopped, get_status, time_sleep, perform in Hr.
  unfold bind at 1 in Hr. cbn [out obj log] in Hr.
  destruct con.
  - run_in Hr; subst r; try discriminate.
    intros _. split; [reflexivity|]. split; [discriminate|]. now eexists _, _, _.
  - run_in Hr; subst r; discriminate.
Qed.

(** X15: a wait that does not raise, on a stage with the channels X, Y
    and Z, is a number of whole rounds, each one the sleep followed by the
    read of the state of X, of Y and of Z: at least one round and at most
    [fuel] when it returns, and [fuel] rounds when it is still running.  So
    it never polls without having slept, and never less than all three
    channels. *)
Theorem wait_for_stopping_rounds v delay fuel :
  forall s tr cx cy cz,
    channels s = [(Axis.X, cx); (Axis.Y, cy); (Axis.Z, cz)] ->
    let r := _wait_for_stopping true v fuel delay s tr in
    is_Raise (out r) = false ->
    exists n,
      log r = (tr ++ concat (repeat (poll_round delay (handle s) (_Channel._handle cx)
                                                (_Channel._handle cy)
                                                (_Channel._handle cz)) n))%list
      /\ (out r = Ret tt -> (1 <= n <= fuel)%nat)
      /\ (out r = Running -> n = fuel).
Proof.
  induction fuel as [|fuel IH]; intros s tr cx cy cz Hchs r Hr.
  - exists 0%nat. cbn. rewrite app_nil_r. repeat split; try discriminate.
  - subst r. rewrite wait_unfold in *. cbn zeta in *.
    pose proof (round_three v delay s tr cx cy cz Hchs) as Hround. cbn zeta in Hround.
    destruct (out (round true v delay s tr)) as [[|]|e|] eqn:Hout.
    + destruct (Hround eq_refl) as (Hlog & _ & _).
      exists 1%nat. cbn [out log repeat concat]. rewrite app_nil_r.
      split; [assumption|]. split; [lia|discriminate].
    + destruct (Hround eq_refl) as (Hlog & _ & kx & ky & kz & Hobj).
      rewrite Hobj, Hlog in *.
      destruct (IH (set_channels [ (Axis.X, _Channel.set__status kx cx);
                                   (Axis.Y, _Channel.set__status ky cy);
                                   (Axis.Z, _Channel.set__status kz cz) ] s)
                   (tr ++ poll_round delay (handle s) (_Channel._handle cx)
                                     (_Channel._handle cy) (_Channel._handle cz))%list
                   (_Channel.set__status kx cx) (_Channel.set__status ky cy)
                   (_Channel.set__status kz cz) eq_refl Hr)
        as (n & Hn & Hret & Hrun).
      exists (S n). rewrite Hn. cbn [repeat concat]. rewrite <- app_assoc.
      split; [reflexivity|].
      split; [intros H; specialize (Hret H); lia|].
      intros H. now rewrite (Hrun H).
    + discriminate.
    + destruct (Hround eq_refl) as (_ & Hrun & _). now destruct Hrun.
Qed.

Lemma wait_for_stopping_rounds_witness :
  let r := _wait_for_stopping true settling 3 default_delay LOC1_connected [] in
  exists n,
    log r = ([] ++ concat (repeat (poll_round default_delay (Some 1) 0 1 2) n))%list
    /\ (out r = Ret tt -> (1 <= n <= 3)%nat)
    /\ (out r = Running -> n = 3%nat).
Proof.
  apply (wait_for_stopping_rounds settling default_delay 3 LOC1_connected []
           (configured_channel Axis_Ch123 Axis.X "SL...S1SS")
           (configured_channel Axis_Ch123 Axis.Y "SL...S1SS")
           (configured_channel Axis_Ch123 Axis.Z "SL...S1SS"));
    vm_compute; reflexivity.
Defined.

(** ** What the settings, the queries and the moves keep *)

Ltac channel_run L :=
  let c0 := fresh "c0" in
  let t := fresh "t" in
  intros c0 t ->; rewrite L; cbn zeta; unfold channel_kept;
  repeat match goal with
    | |- context [match ?r with inl _ => _ | inr _ => _ end] => destruct r; cbn [out obj log]
    end;
  (split;
   [ repeat (apply extends_snoc; [|cbn; reflexivity]); apply extends_refl
   | repeat split; discriminate || reflexivity ]).

Section ChannelQueries.
Context (v : ctl.vendor) (h : option Z) (c : _Channel.t).

Lemma hoare_position :
  hoare (fun c0 => c0 = c) (uses_handle h) (_Channel.position v h) (channel_kept c).
Proof. channel_run position_run. Qed.

Lemma hoare_speed :
  hoare (fun c0 => c0 = c) (uses_handle h) (_Channel.speed v h) (channel_kept c).
Proof. channel_run speed_run. Qed.

Lemma hoare_acceleration :
  hoare (fun c0 => c0 = c) (uses_handle h) (_Channel.acceleration v h) (channel_kept c).
Proof. channel_run acceleration_run. Qed.

Lemma hoare_find_reference_mark :
  hoare (fun c0 => c0 = c) (uses_handle h) _Channel.find_reference_mark (channel_kept c).
Proof.
  intros c0 t ->. split; [apply extends_refl|]. repeat split. discriminate.
Qed.
End ChannelQueries.

Lemma kept_ret {A} s0 C (a : A) : hoare (same_stage s0) C (ret a) (kept s0).
Proof. apply hoare_ret. intros s Hs. split; [assumption|discriminate]. Qed.

Lemma kept_for_each {A} s0 C (l : list A) (body : A -> M t unit) :
  (forall x, hoare (same_stage s0) C (body x) (kept s0)) ->
  hoare (same_stage s0) C (for_each l body) (kept s0).
Proof.
  intros Hbody. induction l as [|x l IH]; cbn [for_each].
  - apply kept_ret.
  - apply kept_bind; [apply Hbody|intros _; exact IH].
Qed.

Lemma kept_for_list {A B} s0 C (l : list A) (f : A -> M t B) :
  (forall x, hoare (same_stage s0) C (f x) (kept s0)) ->
  hoare (same_stage s0) C (for_list l f) (kept s0).
Proof.
  intros Hf. induction l as [|x l IH]; cbn [for_list].
  - apply kept_ret.
  - apply kept_bind; [apply Hf|intros y].
    apply kept_bind; [exact IH|intros ys]. apply kept_ret.
Qed.

Lemma kept_get {B} s0 C (k : t -> M t B) :
  (forall self, hoare (same_stage s0) C (k self) (kept s0)) ->
  hoare (same_stage s0) C (bind get k) (kept s0).
Proof.
  intros Hk. apply hoare_get_bind. intros self Hself.
  eapply hoare_conseq; [apply (Hk self)| |auto|auto]. now intros s ->.
Qed.

Section StageQueries.
Context (loaded : bool) (v : ctl.vendor).

Lemma get_speed_xy_kept : keeps_stage (get_speed_xy loaded v).
Proof.
  intros s0. unfold get_speed_xy. apply kept_guarded.
  apply kept_bind; [apply on_channel_kept; intros; apply hoare_speed|intros x].
  apply kept_bind; [apply on_channel_kept; intros; apply hoare_speed|intros y].
  apply kept_ret.
Qed.

Lemma get_speed_z_kept : keeps_stage (get_speed_z loaded v).
Proof.
  intros s0. unfold get_speed_z. apply kept_guarded.
  apply on_channel_kept; intros; apply hoare_speed.
Qed.

Lemma get_acceleration_xy_kept : keeps_stage (get_acceleration_xy loaded v).
Proof.
  intros s0. unfold get_acceleration_xy. apply kept_guarded.
  apply kept_bind; [apply on_channel_kept; intros; apply hoare_acceleration|intros x].
  apply kept_bind; [apply on_channel_kept; intros; apply hoare_acceleration|intros y].
  apply kept_ret.
Qed.

Lemma get_status_kept : keeps_stage (get_status loaded v).
Proof.
  intros s0. unfold get_status. apply kept_guarded. apply kept_get. intros self.
  apply kept_for_list. intros key.
  apply on_channel_kept. intros. apply hoare_humanized_status.
Qed.

Lemma is_stopped_kept : keeps_stage (is_stopped loaded v).
Proof.
  intros s0. unfold is_stopped. apply kept_guarded.
  apply kept_bind; [apply get_status_kept|intros statuses]. apply kept_ret.
Qed.

Lemma get_position_kept : keeps_stage (get_position loaded v).
Proof.
  intros s0. unfold get_position. apply kept_guarded.
  apply kept_bind; [apply on_channel_kept; intros; apply hoare_position|intros x].
  apply kept_bind; [apply on_channel_kept; intros; apply hoare_position|intros y].
  apply kept_bind; [apply on_channel_kept; intros; apply hoare_position|intros z].
  apply kept_ret.
Qed.

Lemma find_reference_mark_kept : keeps_stage (find_reference_mark loaded).
Proof.
  intros s0. unfold find_reference_mark. apply kept_guarded. apply kept_get.
  intros self. apply kept_for_each. intros key.
  apply on_channel_kept. intros. apply hoare_find_reference_mark.
Qed.

Lemma move_if_given_kept key target : keeps_stage (move_if_given v key target).
Proof.
  intros s0. destruct target as [x|]; cbn [move_if_given]; [|apply kept_ret].
  apply on_channel_kept; intros; apply hoare_move.
Qed.

Lemma kept_polling {A} s0 (m : M t A) :
  hoare (same_stage s0) (uses_handle (handle s0)) m (kept s0) ->
  hoare (same_stage s0)
        (fun c => uses_handle (handle s0) c \/ ctl.is_sleep c = true)
        m (kept s0).
Proof.
  intros Hm. eapply hoare_conseq; [exact Hm|auto| |auto]. intros c Hc. now left.
Qed.

Lemma wait_keeps_stage delay fuel :
  polls_and_keeps_stage (_wait_for_stopping loaded v fuel delay).
Proof.
  intros s0. induction fuel as [|fuel IH]; cbn [_wait_for_stopping].
  - apply hoare_running. auto.
  - eapply hoare_bind with (R := fun _ s => same_stage s0 s).
    + apply hoare_perform; [now right|auto|auto].
    + intros []. eapply hoare_bind with (R := kept s0).
      * apply kept_polling. apply is_stopped_kept.
      * intros [|].
        -- apply hoare_ret. now intros s [Hs _].
        -- eapply hoare_conseq; [exact IH| |auto|auto]. now intros s [Hs _].
      * now intros e s [Hs _].
      * now intros s [Hs _].
    + auto.
    + auto.
Qed.

(** Three steps on channels, then the wait or nothing. *)
Lemma moves_then_wait_keep (m1 m2 m3 : M t unit) fuel wait :
  keeps_stage m1 -> keeps_stage m2 -> keeps_stage m3 ->
  (wait = false ->
   keeps_stage (assert_driver_loaded loaded (assert_stage_connected (
      m1 ;; m2 ;; m3 ;;
      if wait then _wait_for_stopping loaded v fuel default_delay else ret tt))))
  /\ polls_and_keeps_stage (assert_driver_loaded loaded (assert_stage_connected (
        m1 ;; m2 ;; m3 ;;
        if wait then _wait_for_stopping loaded v fuel default_delay else ret tt))).
Proof.
  intros H1 H2 H3. split.
  - intros -> s0. apply kept_guarded.
    apply kept_bind; [apply H1|intros _].
    apply kept_bind; [apply H2|intros _].
    apply kept_bind; [apply H3|intros _]. apply kept_ret.
  - intros s0. apply hoare_guarded; [|auto|auto].
    assert (Hstep : forall (m : M t unit) (k : M t unit),
               keeps_stage m ->
               hoare (same_stage s0)
                     (fun c => uses_handle (handle s0) c \/ ctl.is_sleep c = true)
                     k (fun _ s => same_stage s0 s) ->
               hoare (same_stage s0)
                     (fun c => uses_handle (handle s0) c \/ ctl.is_sleep c = true)
                     (m ;; k) (fun _ s => same_stage s0 s)).
    { intros m k Hm Hk. eapply hoare_bind with (R := kept s0).
      - apply kept_polling. apply Hm.
      - intros []. eapply hoare_conseq; [exact Hk| |auto|auto]. now intros s [Hs _].
      - now intros e s [Hs _].
      - now intros s [Hs _]. }
    apply Hstep; [assumption|]. apply Hstep; [assumption|].
    apply Hstep; [assumption|].
    destruct wait; [apply wait_keeps_stage|]. apply hoare_ret. auto.
Qed.
End StageQueries.

(** X16: the settings, the queries and the moves keep the stage.  Every
    call they make is a call on a channel with the handle of the stage:
    none opens, closes or enumerates.  The address, the connected flag,
    the handle, the axis enumeration, the role, and the axes and indices
    of the channels stay as they are: only what the channels cache
    changes.  Without [wait_for_stopping] they do not loop; with it, they
    also sleep. *)
Theorem settings_queries_and_moves_keep_the_stage loaded v :
  (forall umps, keeps_stage (set_speed_xy loaded v umps))
  /\ (forall umps, keeps_stage (set_speed_z loaded v umps))
  /\ (forall umps2, keeps_stage (set_acceleration_xy loaded v umps2))
  /\ keeps_stage (get_speed_xy loaded v)
  /\ keeps_stage (get_speed_z loaded v)
  /\ keeps_stage (get_acceleration_xy loaded v)
  /\ keeps_stage (get_status loaded v)
  /\ keeps_stage (is_stopped loaded v)
  /\ keeps_stage (get_position loaded v)
  /\ keeps_stage (find_reference_mark loaded)
  /\ (forall fuel x y z, keeps_stage (move_relative loaded v fuel x y z false))
  /\ (forall fuel x y z, keeps_stage (move_absolute loaded v fuel x y z false))
  /\ (forall fuel x y z wait,
        polls_and_keeps_stage (move_relative loaded v fuel x y z wait))
  /\ (forall fuel x y z wait,
        polls_and_keeps_stage (move_absolute loaded v fuel x y z wait)).
Proof.
  assert (Hmove : forall key x mode,
             keeps_stage (on_channel key (fun h => _Channel.move v h x mode))).
  { intros key x mode s0. apply on_channel_kept; intros; apply hoare_move. }
  repeat apply conj.
  - intros umps s0. apply set_speed_xy_kept.
  - intros umps s0. apply set_speed_z_kept.
  - intros umps2 s0. apply set_acceleration_xy_kept.
  - apply get_speed_xy_kept.
  - apply get_speed_z_kept.
  - apply get_acceleration_xy_kept.
  - apply get_status_kept.
  - apply is_stopped_kept.
  - apply get_position_kept.
  - apply find_reference_mark_kept.
  - intros fuel x y z.
    now apply (moves_then_wait_keep loaded v _ _ _ fuel false
                 (Hmove _ _ _) (Hmove _ _ _) (Hmove _ _ _)).
  - intros fuel x y z.
    now apply (moves_then_wait_keep loaded v _ _ _ fuel false
                 (move_if_given_kept v _ _) (move_if_given_kept v _ _)
                 (move_if_given_kept v _ _)).
  - intros fuel x y z wait.
    apply (moves_then_wait_keep loaded v _ _ _ fuel wait
             (Hmove _ _ _) (Hmove _ _ _) (Hmove _ _ _)).
  - intros fuel x y z wait.
    apply (moves_then_wait_keep loaded v _ _ _ fuel wait
             (move_if_given_kept v _ _) (move_if_given_kept v _ _)
             (move_if_given_kept v _ _)).
Qed.

(** ** Discovery: the probes *)





(** ** Discovery: what it returns *)












(** ** From a discovered address to a stage *)

Lemma contains_suffix_Ch1_3 locator : contains "Ch1-3" (locator ++ "_Ch1-3") = true.
Proof.
  induction locator as [|c locator IH]; [reflexivity|].
  change (String c locator ++ "_Ch1-3") with (String c (locator ++ "_Ch1-3")).
  cbn [contains]. rewrite IH. apply orb_true_r.
Qed.

Lemma prefix_Ch1_3_app locator :
  String.prefix "Ch1-3" (locator ++ "_Ch4-6") = String.prefix "Ch1-3" locator.
Proof.
  destruct locator as [|c1 [|c2 [|c3 [|c4 [|c5 locator]]]]];
    unfold String.append; fold String.append; cbn [String.prefix];
    repeat match goal with
      | |- context [ascii_dec ?a ?b] => destruct (ascii_dec a b); try reflexivity
      end.
  now destruct locator.
Qed.

Lemma contains_Ch1_3_app locator :
  contains "Ch1-3" (locator ++ "_Ch4-6") = contains "Ch1-3" locator.
Proof.
  induction locator as [|c locator IH]; [reflexivity|].
  change (String c locator ++ "_Ch4-6") with (String c (locator ++ "_Ch4-6")).
  cbn [contains]. rewrite IH. f_equal.
  exact (prefix_Ch1_3_app (String c locator)).
Qed.

Lemma contains_suffix_Ch4_6 locator : contains "Ch4-6" (locator ++ "_Ch4-6") = true.
Proof.
  induction locator as [|c locator IH]; [reflexivity|].
  change (String c locator ++ "_Ch4-6") with (String c (locator ++ "_Ch4-6")).
  cbn [contains]. rewrite IH. apply orb_true_r.
Qed.

Lemma string_length_append (a b : string) :
  String.length (a ++ b) = (String.length a + String.length b)%nat.
Proof.
  induction a as [|c a IH]; [reflexivity|].
  change (String c a ++ b) with (String c (a ++ b)). cbn [String.length]. now rewrite IH.
Qed.

Lemma removesuffix_append locator suffix :
  removesuffix (locator ++ suffix) suffix = locator.
Proof.
  induction locator as [|c locator IH].
  - change ("" ++ suffix) with suffix.
    destruct suffix; cbn [removesuffix]; now rewrite String.eqb_refl.
  - change (String c locator ++ suffix) with (String c (locator ++ suffix)).
    cbn [removesuffix]. rewrite IH.
    destruct (String.eqb_spec (String c (locator ++ suffix)) suffix) as [Heq|_];
      [|reflexivity].
    apply (f_equal String.length) in Heq. cbn [String.length] in Heq.
    rewrite string_length_append in Heq. lia.
Qed.

(** X20: the constructor accepts the addresses that discovery makes.
    [locator_Ch1-3] gives a primary stage, and its [connect] opens exactly
    [locator]: [removesuffix] undoes the suffix.  [locator_Ch4-6] gives a
    secondary stage, unless the locator itself contains "Ch1-3": then it
    is taken for a primary stage as well. *)
Theorem discovered_addresses_construct locator :
  __init__ (locator ++ "_Ch1-3")
  = inr (Build (locator ++ "_Ch1-3") false None [] Axis_Ch123 true)
  /\ __init__ (locator ++ "_Ch4-6")
     = inr (if contains "Ch1-3" locator
            then Build (locator ++ "_Ch4-6") false None [] Axis_Ch123 true
            else Build (locator ++ "_Ch4-6") false None [] Axis_Ch456 false)
  /\ (forall v s tr,
         __init__ (locator ++ "_Ch1-3") = inr s ->
         exists rest,
           log (connect true v s tr) = (tr ++ ctl.call_Open locator :: rest)%list).
Proof.
  assert (Hfirst : __init__ (locator ++ "_Ch1-3")
                   = inr (Build (locator ++ "_Ch1-3") false None [] Axis_Ch123 true)).
  { unfold __init__. now rewrite contains_suffix_Ch1_3. }
  split; [exact Hfirst|]. split.
  - unfold __init__. rewrite contains_Ch1_3_app, contains_suffix_Ch4_6.
    now destruct (contains "Ch1-3" locator).
  - intros v s tr Hs. rewrite Hfirst in Hs. injection Hs as <-.
    rewrite connect_primary by reflexivity. cbn zeta. cbn [address].
    rewrite removesuffix_append.
    destruct (ctl.Open_reply v tr locator) as [e|h]; [now exists []|].
    destruct (h =? 1); [|now exists []].
    destruct (configure_spec true v 1
                (set_handle (Some 1)
                   (Build (locator ++ "_Ch1-3") false None [] Axis_Ch123 true))
                (tr ++ [ctl.call_Open locator])%list eq_refl)
      as [(new & Hlog & _) _].
    exists new. now rewrite Hlog, <- app_assoc.
Qed.

(** ** The second half of a controller whose locator contains Ch1-3 *)

(** An address with the suffix of the second half keeps it in
    [_open_system], which removes the suffix of the first half only. *)
Lemma removesuffix_second_half locator :
  removesuffix (locator ++ "_Ch4-6") "_Ch1-3" = locator ++ "_Ch4-6".
Proof.
  induction locator as [|c locator IH]; [reflexivity|].
  change (String c locator ++ "_Ch4-6") with (String c (locator ++ "_Ch4-6")).
  cbn [removesuffix]. rewrite IH.
  destruct (String.eqb_spec (String c (locator ++ "_Ch4-6")) "_Ch1-3") as [Heq|_];
    [|reflexivity].
  apply (f_equal String.length) in Heq. cbn [String.length] in Heq.
  rewrite string_length_append in Heq. cbn [String.length] in Heq. lia.
Qed.

(** C2, where the code departs from it: [__init__] looks for "Ch1-3"
    anywhere in the address, and first.  So the second half of a
    controller whose locator contains "Ch1-3", an address with the suffix
    "_Ch4-6", is built as a primary stage on the channels 0 to 2, and
    [connect] calls [Open] on the whole address, suffix and all. *)
Theorem second_half_connects_as_primary (locator : string) v tr :
  contains "Ch1-3" locator = true ->
  let addr := locator ++ "_Ch4-6" in
  let s := Build addr false None [] Axis_Ch123 true in
  __init__ addr = inr s
  /\ exists rest, log (connect true v s tr) = (tr ++ ctl.call_Open addr :: rest)%list.
Proof.
  intros Hlocator addr s. split.
  - unfold __init__, addr. now rewrite contains_Ch1_3_app, Hlocator.
  - rewrite connect_primary by reflexivity. cbn zeta.
    replace (removesuffix (address s) "_Ch1-3") with addr
      by (symmetry; apply removesuffix_second_half).
    destruct (ctl.Open_reply v tr addr) as [e|h]; [now exists []|].
    destruct (h =? 1); [|now exists []].
    destruct (configure_spec true v 1 (set_handle (Some 1) s)
                (tr ++ [ctl.call_Open addr])%list eq_refl)
      as [(new & Hlog & _) _].
    exists new. now rewrite Hlog, <- app_assoc.
Qed.

Lemma second_half_connects_as_primary_witness :
  let v := bench 1 (fun _ => "SL...S1SS") (fun _ _ => 0) in
  let s := Build "dev-Ch1-3b_Ch4-6" false None [] Axis_Ch123 true in
  contains "Ch1-3" "dev-Ch1-3b" = true
  /\ __init__ "dev-Ch1-3b_Ch4-6" = inr s
  /\ (exists rest, log (connect true v s []) = ctl.call_Open "dev-Ch1-3b_Ch4-6" :: rest)
  /\ List.filter ctl.is_Open (log (connect true v s []))
     = [ctl.call_Open "dev-Ch1-3b_Ch4-6"]
  /\ indices (channels (obj (connect true v s [])))
     = [(Axis.X, 0); (Axis.Y, 1); (Axis.Z, 2)].
Proof.
  intros v s.
  destruct (second_half_connects_as_primary "dev-Ch1-3b" v [] eq_refl)
    as (Hinit & Hopen).
  split; [reflexivity|]. split; [exact Hinit|]. split; [exact Hopen|].
  split; vm_compute; reflexivity.
Defined.

(** ** The calls of [move_absolute] *)

(** A stage whose channels are those of X, Y and Z, in this order. *)
Lemma channels_of_indices (s : t) ix iy iz :
  indices (channels s) = [(Axis.X, ix); (Axis.Y, iy); (Axis.Z, iz)] ->
  exists cx cy cz,
    channels s = [(Axis.X, cx); (Axis.Y, cy); (Axis.Z, cz)]
    /\ _Channel._handle cx = ix /\ _Channel._handle cy = iy
    /\ _Channel._handle cz = iz.
Proof.
  unfold indices.
  destruct (channels s) as [|[kx cx] [|[ky cy] [|[kz cz] [|]]]]; try discriminate.
  cbn. intros [= -> <- -> <- -> <-]. now exists cx, cy, cz.
Qed.

Lemma target_pm_Some x p :
  target_pm (Some x) = inr p -> exists pm, p = Some pm /\ _Channel._to_picometer x = inr pm.
Proof.
  cbn. destruct (_Channel._to_picometer x) as [e|pm]; [discriminate|].
  intros [= <-]. now exists pm.
Qed.

Lemma target_pm_None p : target_pm None = inr p -> p = None.
Proof. now intros [= <-]. Qed.

Lemma accepts_app v tr calls1 calls2 :
  accepts v tr (calls1 ++ calls2)%list
  <-> accepts v tr calls1 /\ accepts v (tr ++ calls1)%list calls2.
Proof.
  revert tr. induction calls1 as [|c calls1 IH]; intros tr; cbn [accepts app].
  - rewrite app_nil_r. tauto.
  - rewrite IH, <- app_assoc. cbn [app]. tauto.
Qed.

(** One step of [move_absolute] on a stage with the channel [c] for the
    axis, when the target converts and the controller accepts the calls. *)
Lemma move_if_given_run v key target s tr c p :
  dict_get key (channels s) = Some c ->
  target_pm target = inr p ->
  accepts v tr (absolute_move (handle s) (_Channel._handle c) p) ->
  exists c',
    _Channel._handle c' = _Channel._handle c
    /\ move_if_given v key target s tr
       = Run (Ret tt) (set_channels (dict_set key c' (channels s)) s)
             (tr ++ absolute_move (handle s) (_Channel._handle c) p)%list.
Proof.
  intros Hget Hpm Hacc. destruct target as [x|].
  - apply target_pm_Some in Hpm as (pm & -> & Hpm).
    cbn [absolute_move accepts accepted] in Hacc. destruct Hacc as (Hmode & Hmove & _).
    exists (_Channel.set__movement_mode ctl.CL_ABSOLUTE c). split; [reflexivity|].
    unfold move_if_given. rewrite on_channel_run, Hget, move_run. cbn zeta.
    cbn [ctl.MoveMode_value]. rewrite Hmode, Hpm, Hmove. cbn [out obj log absolute_move].
    now rewrite <- app_assoc.
  - apply target_pm_None in Hpm as ->. exists c. split; [reflexivity|].
    cbn [move_if_given absolute_move]. unfold ret.
    rewrite app_nil_r. f_equal. destruct s as [addr con h chs ax opn]. cbn in *.
    unfold set_channels. cbn. f_equal. symmetry. now apply dict_set_same.
Qed.

(** [move_absolute] without the wait, on a connected stage with the
    channels of X, Y and Z, when the targets convert and the controller
    accepts the calls: the absolute moves of X, of Y and of Z, in this
    order, and it returns. *)
Lemma move_absolute_accepted v fuel s tr ix iy iz x y z px py pz :
  connected s = true ->
  indices (channels s) = [(Axis.X, ix); (Axis.Y, iy); (Axis.Z, iz)] ->
  target_pm x = inr px -> target_pm y = inr py -> target_pm z = inr pz ->
  let plan := (absolute_move (handle s) ix px ++ absolute_move (handle s) iy py
               ++ absolute_move (handle s) iz pz)%list in
  accepts v tr plan ->
  exists s',
    move_absolute true v fuel x y z false s tr = Run (Ret tt) s' (tr ++ plan)%list
    /\ same_stage s s'.
Proof.
  intros Hcon Hidx Hx Hy Hz plan Hacc. subst plan.
  apply channels_of_indices in Hidx as (cx & cy & cz & Hchs & <- & <- & <-).
  apply accepts_app in Hacc as [Haccx Hacc].
  apply accepts_app in Hacc as [Haccy Haccz].
  destruct s as [addr con h chs ax opn]. cbn [connected channels handle] in *.
  subst con chs.
  rewrite move_absolute_run. cbn [connected]. unfold bind.
  destruct (move_if_given_run v Axis.X x
              (Build addr true h [(Axis.X, cx); (Axis.Y, cy); (Axis.Z, cz)] ax opn)
              tr cx px eq_refl Hx Haccx) as (cx' & Hcx & ->).
  cbv beta iota. unfold set_channels. stage_cbn.
  destruct (move_if_given_run v Axis.Y y
              (Build addr true h [(Axis.X, cx'); (Axis.Y, cy); (Axis.Z, cz)] ax opn)
              _ cy py eq_refl Hy Haccy) as (cy' & Hcy & ->).
  cbv beta iota. unfold set_channels. stage_cbn.
  destruct (move_if_given_run v Axis.Z z
              (Build addr true h [(Axis.X, cx'); (Axis.Y, cy'); (Axis.Z, cz)] ax opn)
              _ cz pz eq_refl Hz Haccz) as (cz' & Hcz & ->).
  cbv beta iota. unfold set_channels. stage_cbn.
  eexists. split; [now rewrite <- !app_assoc|].
  repeat split. cbn. now rewrite Hcx, Hcy, Hcz.
Qed.

(** C6: the [Move] calls that [move_absolute] makes are, in this order,
    the planned calls for X, for Y and for Z, where nothing is planned for
    a target that is [None]: always the first ones of that list, and the
    whole list unless the method raises.  In particular, on a connected
    stage whose controller accepts the mode of the X channel,
    [move_absolute(x=5, y=None, z=None)] makes exactly one [Move] call, on
    the channel of X, with 5000000 picometers.  And on a connected stage
    with the channels of X, Y and Z, when the targets convert and the
    controller accepts the calls, [move_absolute] makes exactly these
    calls: for X, then for Y, then for Z, the write of the mode
    [CL_ABSOLUTE] and the [Move] of every axis that has a target, and
    after them only the polls of the wait; without [wait_for_stopping] it
    then returns. *)
Theorem move_absolute_moves_in_order :
  forall loaded v fuel wait s t,
    (forall x y z,
        exists new,
          log (move_absolute loaded v fuel x y z wait s t) = (t ++ new)%list
          /\ (exists later, planned_moves s x y z = (moves_of new ++ later)%list)
          /\ (is_Raise (out (move_absolute loaded v fuel x y z wait s t)) = false ->
              moves_of new = planned_moves s x y z))
    /\ (forall cx,
          loaded = true -> connected s = true ->
          dict_get Axis.X (channels s) = Some cx ->
          ctl.SetProperty_i32_reply v t (handle s) (_Channel._handle cx)
                                    ctl.MOVE_MODE 0 = inr tt ->
          exists new,
            log (move_absolute loaded v fuel (Some (PyInt 5)) None None wait s t)
            = (t ++ new)%list
            /\ moves_of new = [ctl.call_Move (handle s) (_Channel._handle cx) 5000000])
    /\ (forall ix iy iz x y z px py pz,
          loaded = true -> connected s = true ->
          indices (channels s) = [(Axis.X, ix); (Axis.Y, iy); (Axis.Z, iz)] ->
          target_pm x = inr px -> target_pm y = inr py -> target_pm z = inr pz ->
          let plan := (absolute_move (handle s) ix px ++ absolute_move (handle s) iy py
                       ++ absolute_move (handle s) iz pz)%list in
          accepts v t plan ->
          exists polls,
            log (move_absolute loaded v fuel x y z wait s t) = (t ++ plan ++ polls)%list
            /\ Forall poll_call polls
            /\ (wait = false ->
                polls = []
                /\ out (move_absolute loaded v fuel x y z wait s t) = Ret tt)).
Proof.
  intros loaded v fuel wait s t.
  assert (Hgeneral : forall x y z,
    exists new,
      log (move_absolute loaded v fuel x y z wait s t) = (t ++ new)%list
      /\ (exists later, planned_moves s x y z = (moves_of new ++ later)%list)
      /\ (is_Raise (out (move_absolute loaded v fuel x y z wait s t)) = false ->
          moves_of new = planned_moves s x y z)).
  { intros x y z. rewrite move_absolute_run.
    destruct loaded.
    2:{ exists []. rewrite app_nil_r. repeat split; [now eexists|discriminate]. }
    destruct (connected s).
    2:{ exists []. rewrite app_nil_r. repeat split; [now eexists|discriminate]. }
    cbn zeta.
    destruct (issues_three_moves v s x y z s t (same_stage_refl s))
      as (_ & Hrun & new & Hlog & Hpre & Hall).
    destruct ((move_if_given v Axis.X x ;; move_if_given v Axis.Y y ;;
               move_if_given v Axis.Z z) s t) as [[[]|e|] s1 t1];
      cbn [out obj log] in *.
    - destruct wait.
      + destruct (wait_polls true v default_delay fuel s1 t1 Logic.I)
          as [(polls & Hpolls & Hcalls) _].
        exists (new ++ polls)%list. rewrite Hpolls, Hlog, app_assoc.
        split; [reflexivity|].
        unfold moves_of. rewrite List.filter_app.
        fold (moves_of new) (moves_of polls).
        rewrite (poll_call_not_Move polls Hcalls), app_nil_r, (Hall eq_refl).
        split; [exists []; now rewrite app_nil_r|reflexivity].
      + exists new. cbn. auto.
    - exists new. auto.
    - now destruct Hrun. }
  split; [exact Hgeneral|].
  split.
  {
    intros cx -> Hcon Hget Hset.
    destruct (move_if_given_accepted v Axis.X (PyInt 5) s t cx 5000000 Hget eq_refl Hset)
      as (o & s' & Hmove & Hrun).
    unfold move_absolute. rewrite guarded_run, Hcon.
    unfold bind at 1. rewrite Hmove.
    destruct o as [[]|e|]; [|eexists [_; _]; split; reflexivity|now destruct Hrun].
    cbn [move_if_given]. unfold bind, ret.
    destruct wait.
    - destruct (wait_polls true v default_delay fuel s'
                  (t ++ [ctl.call_SetProperty_i32 (handle s) (_Channel._handle cx)
                           ctl.MOVE_MODE 0;
                         ctl.call_Move (handle s) (_Channel._handle cx) 5000000])%list
                  Logic.I)
        as [(polls & Hpolls & Hcalls) _].
      eexists ([_; _] ++ polls)%list. rewrite Hpolls, <- app_assoc.
      split; [reflexivity|].
      unfold moves_of. rewrite List.filter_app.
      fold (moves_of polls). now rewrite (poll_call_not_Move polls Hcalls).
    - eexists [_; _]. split; reflexivity. }
  intros ix iy iz x y z px py pz -> Hcon Hidx Hx Hy Hz plan Hacc.
  destruct (move_absolute_accepted v fuel s t ix iy iz x y z px py pz
              Hcon Hidx Hx Hy Hz Hacc) as (s' & Hmoves & Hs').
  fold plan in Hmoves.
  destruct wait.
  - rewrite move_absolute_then_wait. cbn zeta. rewrite Hmoves. cbn [out obj log].
    destruct (wait_polls true v default_delay fuel s' (t ++ plan)%list Logic.I)
      as [(polls & Hpolls & Hcalls) _].
    exists polls. rewrite Hpolls, <- app_assoc. now repeat split.
  - exists []. rewrite Hmoves, app_nil_r. cbn [out log]. repeat split. constructor.
Qed.

Lemma move_absolute_moves_in_order_witness :
  let v := bench 1 (fun _ => "SL...S1SS") (fun _ _ => 0) in
  let mode idx := ctl.call_SetProperty_i32 (Some 1) idx ctl.MOVE_MODE 0 in
  let move idx pm := ctl.call_Move (Some 1) idx pm in
  let half := PyFloat 0x1p-1%float in
  connected LOC1_connected = true
  /\ (exists cx new,
        dict_get Axis.X (channels LOC1_connected) = Some cx
        /\ log (move_absolute true v 4 (Some (PyInt 5)) None None false LOC1_connected [])
           = ([] ++ new)%list
        /\ moves_of new
           = [ctl.call_Move (handle LOC1_connected) (_Channel._handle cx) 5000000])
  /\ log (move_absolute true v 4 (Some (PyInt 5)) (Some half) (Some (PyInt 7)) false
                        LOC1_connected [])
     = [mode 0; move 0 5000000; mode 1; move 1 500000; mode 2; move 2 7000000]
  /\ log (move_absolute true v 4 None (Some half) None false LOC1_connected [])
     = [mode 1; move 1 500000].
Proof.
  intros v mode move half.
  assert (Hcon : connected LOC1_connected = true) by reflexivity.
  assert (Hidx : indices (channels LOC1_connected)
                 = [(Axis.X, 0); (Axis.Y, 1); (Axis.Z, 2)]) by reflexivity.
  assert (Hget : exists cx, dict_get Axis.X (channels LOC1_connected) = Some cx)
    by (vm_compute; eexists; reflexivity).
  destruct Hget as [cx Hget].
  destruct (move_absolute_moves_in_order true v 4 false LOC1_connected [])
    as (_ & Hfive & Hplan).
  destruct (Hfive cx eq_refl Hcon Hget eq_refl) as (new & Hlog & Hmoves).
  assert (H5 : target_pm (Some (PyInt 5)) = inr (Some 5000000))
    by (vm_compute; reflexivity).
  assert (Hhalf : target_pm (Some half) = inr (Some 500000))
    by (vm_compute; reflexivity).
  assert (H7 : target_pm (Some (PyInt 7)) = inr (Some 7000000))
    by (vm_compute; reflexivity).
  destruct (Hplan 0 1 2 (Some (PyInt 5)) (Some half) (Some (PyInt 7)) _ _ _
              eq_refl Hcon Hidx H5 Hhalf H7) as (polls & Hall & _ & Hnone);
    [now repeat split|].
  destruct (Hplan 0 1 2 None (Some half) None _ _ _
              eq_refl Hcon Hidx eq_refl Hhalf eq_refl) as (polls' & Hy & _ & Hnone');
    [now repeat split|].
  destruct (Hnone eq_refl) as [-> _]. destruct (Hnone' eq_refl) as [-> _].
  split; [exact Hcon|]. split; [now exists cx, new|].
  split; [exact Hall|exact Hy].
Defined.

(** ** The wait, in what the controller answers *)

Lemma same_stage_fields s s' ix iy iz :
  same_stage s s' -> connected s = true ->
  indices (channels s) = [(Axis.X, ix); (Axis.Y, iy); (Axis.Z, iz)] ->
  connected s' = true /\ handle s' = handle s
  /\ indices (channels s') = [(Axis.X, ix); (Axis.Y, iy); (Axis.Z, iz)].
Proof.
  intros (_ & Hcon & Hh & _ & _ & Hidx) Hc Hi. now rewrite Hcon, Hh, Hidx.
Qed.

Lemma same_stage_trans s1 s2 s3 :
  same_stage s1 s2 -> same_stage s2 s3 -> same_stage s1 s3.
Proof.
  intros (Ha & Hc & Hh & Hx & Ho & Hi) (Ha' & Hc' & Hh' & Hx' & Ho' & Hi').
  repeat split; congruence.
Qed.

Lemma round_start_O delay h ix iy iz tr : round_start delay h ix iy iz tr 0 = tr.
Proof. unfold round_start. cbn. apply app_nil_r. Qed.

Lemma round_start_S delay h ix iy iz tr j :
  round_start delay h ix iy iz tr (S j)
  = round_start delay h ix iy iz (tr ++ poll_round delay h ix iy iz)%list j.
Proof. unfold round_start. cbn [repeat concat]. now rewrite app_assoc. Qed.

(** A round whose sleep and reads the controller answers: what it
    returns is decided by the three codes. *)
Lemma round_polled v delay s tr ix iy iz kx ky kz :
  connected s = true ->
  indices (channels s) = [(Axis.X, ix); (Axis.Y, iy); (Axis.Z, iz)] ->
  polled v delay (handle s) ix iy iz tr kx ky kz ->
  exists b s',
    round true v delay s tr
    = Run (Ret b) s' (tr ++ poll_round delay (handle s) ix iy iz)%list
    /\ same_stage s s'
    /\ (b = false
        <-> reports_moving v kx \/ reports_moving v ky \/ reports_moving v kz).
Proof.
  intros Hcon Hidx Hp.
  apply channels_of_indices in Hidx as (cx & cy & cz & Hchs & <- & <- & <-).
  destruct s as [addr con h chs ax opn]. cbn [connected channels handle] in *.
  subst con chs.
  unfold polled in Hp. cbn zeta in Hp. rewrite <- !app_assoc in Hp. cbn [app] in Hp.
  destruct Hp as (Hsleep & Hx & Hy & Hz).
  remember (round true v delay _ tr) as r eqn:Hr.
  unfold round, is_stopped, get_status, time_sleep, perform in Hr.
  unfold bind at 1 in Hr. rewrite Hsleep in Hr. cbn [out obj log] in Hr.
  run_in Hr.
  eexists _, _. split; [exact Hr|]. split; [repeat split|].
  fold (entry_ACTIVELY_MOVING (_Channel.humanize (ctl.ChannelState v) kx)).
  fold (entry_ACTIVELY_MOVING (_Channel.humanize (ctl.ChannelState v) ky)).
  fold (entry_ACTIVELY_MOVING (_Channel.humanize (ctl.ChannelState v) kz)).
  unfold reports_moving. rewrite <- !actively_moving_flag.
  cbn [existsb]. rewrite orb_false_r, negb_false_iff, !orb_true_iff.
  reflexivity.
Qed.

(** A round that does not raise has slept and read the three codes. *)
Lemma round_reads v delay s tr ix iy iz :
  connected s = true ->
  indices (channels s) = [(Axis.X, ix); (Axis.Y, iy); (Axis.Z, iz)] ->
  is_Raise (out (round true v delay s tr)) = false ->
  exists kx ky kz, polled v delay (handle s) ix iy iz tr kx ky kz.
Proof.
  intros Hcon Hidx.
  apply channels_of_indices in Hidx as (cx & cy & cz & Hchs & <- & <- & <-).
  destruct s as [addr con h chs ax opn]. cbn [connected channels handle] in *.
  subst con chs.
  remember (round true v delay _ tr) as r eqn:Hr.
  unfold round, is_stopped, get_status, time_sleep, perform in Hr.
  unfold bind at 1 in Hr. cbn [out obj log] in Hr.
  run_in Hr; subst r; try discriminate.
  intros _. unfold polled. cbn zeta. rewrite <- !app_assoc. cbn [app].
  eexists _, _, _. repeat split; try eassumption.
  match goal with H : ctl.sleep_reply _ _ _ = inr ?u |- _ => now destruct u end.
Qed.

(** The wait returns in the round that is the first to observe no
    channel reporting the flag, with the calls of the rounds up to it. *)
Lemma wait_stops v delay fuel :
  forall k s tr ix iy iz,
    connected s = true ->
    indices (channels s) = [(Axis.X, ix); (Axis.Y, iy); (Axis.Z, iz)] ->
    (k < fuel)%nat ->
    stops_in_round v delay (handle s) ix iy iz tr k ->
    exists s',
      _wait_for_stopping true v fuel delay s tr
      = Run (Ret tt) s' (round_start delay (handle s) ix iy iz tr (S k))
      /\ same_stage s s'.
Proof.
  induction fuel as [|fuel IH]; intros k s tr ix iy iz Hcon Hidx Hk [Hbefore Hstop];
    [lia|].
  rewrite wait_unfold. cbn zeta.
  destruct k as [|k].
  - destruct Hstop as (kx & ky & kz & Hp & Hx & Hy & Hz).
    rewrite round_start_O in Hp.
    destruct (round_polled v delay s tr ix iy iz kx ky kz Hcon Hidx Hp)
      as (b & s' & -> & Hs' & Hb).
    cbn [out obj log]. destruct b; [|tauto].
    exists s'. split; [|assumption]. rewrite round_start_S, round_start_O. reflexivity.
  - destruct (Hbefore 0%nat ltac:(lia)) as (kx & ky & kz & Hp & Hmoving).
    rewrite round_start_O in Hp.
    destruct (round_polled v delay s tr ix iy iz kx ky kz Hcon Hidx Hp)
      as (b & s' & -> & Hs' & Hb).
    cbn [out obj log]. destruct b; [apply Hb in Hmoving; discriminate|].
    destruct (same_stage_fields s s' ix iy iz Hs' Hcon Hidx) as (Hcon' & Hh' & Hidx').
    destruct (IH k s' (tr ++ poll_round delay (handle s) ix iy iz)%list ix iy iz
                Hcon' Hidx' ltac:(lia)) as (s'' & Hwait & Hs'').
    { rewrite Hh'. split.
      - intros j Hj. rewrite <- round_start_S. apply Hbefore. lia.
      - now rewrite <- round_start_S. }
    rewrite Hh' in Hwait. exists s''. rewrite Hwait, <- round_start_S.
    split; [reflexivity|]. now apply (same_stage_trans s s' s'').
Qed.

(** A wait that returns has met such a round. *)
Lemma wait_returned v delay fuel :
  forall s tr ix iy iz,
    connected s = true ->
    indices (channels s) = [(Axis.X, ix); (Axis.Y, iy); (Axis.Z, iz)] ->
    out (_wait_for_stopping true v fuel delay s tr) = Ret tt ->
    exists k, (k < fuel)%nat /\ stops_in_round v delay (handle s) ix iy iz tr k.
Proof.
  induction fuel as [|fuel IH]; intros s tr ix iy iz Hcon Hidx; [discriminate|].
  rewrite wait_unfold. cbn zeta. intros Hout.
  destruct (round_reads v delay s tr ix iy iz Hcon Hidx) as (kx & ky & kz & Hp).
  { now destruct (out (round true v delay s tr)) as [[|]|e|]. }
  destruct (round_polled v delay s tr ix iy iz kx ky kz Hcon Hidx Hp)
    as (b & s' & Hround & Hs' & Hb).
  rewrite Hround in Hout. cbn [out obj log] in Hout.
  destruct b.
  - exists 0%nat. split; [lia|]. split; [intros j Hj; lia|].
    exists kx, ky, kz. rewrite round_start_O. split; [assumption|].
    assert (Hnone : ~ (reports_moving v kx \/ reports_moving v ky
                       \/ reports_moving v kz))
      by (intros H; apply Hb in H; discriminate).
    tauto.
  - destruct (same_stage_fields s s' ix iy iz Hs' Hcon Hidx) as (Hcon' & Hh' & Hidx').
    destruct (IH s' _ ix iy iz Hcon' Hidx' Hout) as (k & Hk & Hbefore & Hstop).
    rewrite Hh' in Hbefore, Hstop.
    exists (S k). split; [lia|]. split.
    + intros [|j] Hj.
      * exists kx, ky, kz. rewrite round_start_O. split; [assumption|]. now apply Hb.
      * rewrite round_start_S. apply Hbefore. lia.
    + now rewrite round_start_S.
Qed.

(** While every poll observes a channel that reports the flag, the wait
    is still running: it has no timeout. *)
Lemma wait_moving v delay fuel :
  forall s tr ix iy iz,
    connected s = true ->
    indices (channels s) = [(Axis.X, ix); (Axis.Y, iy); (Axis.Z, iz)] ->
    (forall j, (j < fuel)%nat ->
       observes_moving v delay (handle s) ix iy iz
                       (round_start delay (handle s) ix iy iz tr j)) ->
    exists s',
      _wait_for_stopping true v fuel delay s tr
      = Run Running s' (round_start delay (handle s) ix iy iz tr fuel)
      /\ same_stage s s'.
Proof.
  induction fuel as [|fuel IH]; intros s tr ix iy iz Hcon Hidx Hmoving.
  - exists s. rewrite round_start_O. split; [reflexivity|apply same_stage_refl].
  - rewrite wait_unfold. cbn zeta.
    destruct (Hmoving 0%nat ltac:(lia)) as (kx & ky & kz & Hp & Hsome).
    rewrite round_start_O in Hp.
    destruct (round_polled v delay s tr ix iy iz kx ky kz Hcon Hidx Hp)
      as (b & s' & -> & Hs' & Hb).
    cbn [out obj log]. destruct b; [apply Hb in Hsome; discriminate|].
    destruct (same_stage_fields s s' ix iy iz Hs' Hcon Hidx) as (Hcon' & Hh' & Hidx').
    destruct (IH s' (tr ++ poll_round delay (handle s) ix iy iz)%list ix iy iz
                Hcon' Hidx') as (s'' & Hwait & Hs'').
    { intros j Hj. rewrite Hh', <- round_start_S. apply Hmoving. lia. }
    rewrite Hh' in Hwait. exists s''. rewrite Hwait, <- round_start_S.
    split; [reflexivity|]. now apply (same_stage_trans s s' s'').
Qed.

(** What a move without the wait keeps. *)
Lemma move_absolute_keeps loaded v fuel x y z s tr :
  same_stage s (obj (move_absolute loaded v fuel x y z false s tr)).
Proof.
  pose proof (proj1 (moves_then_wait_keep loaded v _ _ _ fuel false
                       (move_if_given_kept v Axis.X x) (move_if_given_kept v Axis.Y y)
                       (move_if_given_kept v Axis.Z z)) eq_refl s) as Hkeeps.
  now destruct (Hkeeps s tr (same_stage_refl s)) as [_ [Hs _]].
Qed.

Lemma move_relative_keeps loaded v fuel x y z s tr :
  same_stage s (obj (move_relative loaded v fuel x y z false s tr)).
Proof.
  assert (Hmove : forall key x,
             keeps_stage (on_channel key (fun h =>
               _Channel.move v h x (PyMoveMode ctl.CL_RELATIVE)))).
  { intros key x0 s0. apply on_channel_kept; intros; apply hoare_move. }
  pose proof (proj1 (moves_then_wait_keep loaded v _ _ _ fuel false
                       (Hmove Axis.X x) (Hmove Axis.Y y) (Hmove Axis.Z z))
                    eq_refl s) as Hkeeps.
  now destruct (Hkeeps s tr (same_stage_refl s)) as [_ [Hs _]].
Qed.

(** A move with the wait that returns: the wait met, after the calls of
    the move, a round that observes no channel reporting the flag. *)
Lemma move_then_stops v fuel s (r0 r : run t unit) ix iy iz :
  connected s = true ->
  indices (channels s) = [(Axis.X, ix); (Axis.Y, iy); (Axis.Z, iz)] ->
  same_stage s (obj r0) ->
  r = match out r0 with
      | Ret _ => _wait_for_stopping true v fuel default_delay (obj r0) (log r0)
      | _ => r0
      end ->
  out r = Ret tt ->
  exists k, (k < fuel)%nat
            /\ stops_in_round v default_delay (handle s) ix iy iz (log r0) k.
Proof.
  intros Hcon Hidx Hs -> Hout.
  destruct (same_stage_fields s (obj r0) ix iy iz Hs Hcon Hidx) as (Hcon' & Hh' & Hidx').
  destruct (out r0) as [[]|e|] eqn:Hr0.
  - rewrite <- Hh'. now apply wait_returned.
  - rewrite Hr0 in Hout. discriminate.
  - rewrite Hr0 in Hout. discriminate.
Qed.

(** C10: with [wait_for_stopping], a move is the move without it followed,
    when that returns, by the loop.  The loop returns within [fuel] rounds
    exactly when one of its first [fuel] polls observes [is_stopped] to be
    true, with the stage and the trace that poll leaves; so it returns at
    all exactly when some poll does.  While the polls observe a moving
    stage the loop is still running, whatever the number of rounds: it has
    no timeout.  Every round sleeps before it polls: the first call of the
    loop is [time.sleep], and its other calls are sleeps and status
    reads.  In what the controller answers, on a connected stage with the
    channels of X, Y and Z: the loop returns within [fuel] rounds exactly
    when some round [k < fuel] is the first one whose poll, the state
    codes of X, of Y and of Z read after the sleep, finds no code with a
    bit of ACTIVELY_MOVING set, every poll before it having found one; it
    has then made the calls of [k + 1] whole rounds.  While every poll
    finds such a code, the loop is still running after any number of
    rounds.  A move with the wait returns only if, after the calls of the
    move, the loop met such a round. *)
Theorem wait_for_stopping_polls :
  forall loaded v delay s t,
    (forall fuel s' t',
        _wait_for_stopping loaded v fuel delay s t = Run (Ret tt) s' t'
        <-> exists k, (k < fuel)%nat
                      /\ nth_poll loaded v delay k s t = Some (Run (Ret true) s' t'))
    /\ ((exists fuel, out (_wait_for_stopping loaded v fuel delay s t) = Ret tt)
        <-> (exists k r, nth_poll loaded v delay k s t = Some r /\ out r = Ret true))
    /\ (forall fuel,
           (forall k, (k < fuel)%nat ->
              exists r, nth_poll loaded v delay k s t = Some r /\ out r = Ret false) ->
           out (_wait_for_stopping loaded v fuel delay s t) = Running)
    /\ (forall fuel, exists rest,
           log (_wait_for_stopping loaded v (S fuel) delay s t)
           = (t ++ ctl.call_sleep delay :: rest)%list
           /\ Forall poll_call rest)
    /\ (forall fuel x y z,
           move_absolute loaded v fuel x y z true s t
           = let r0 := move_absolute loaded v fuel x y z false s t in
             match out r0 with
             | Ret _ => _wait_for_stopping loaded v fuel default_delay (obj r0) (log r0)
             | _ => r0
             end)
    /\ (forall fuel x y z,
           move_relative loaded v fuel x y z true s t
           = let r0 := move_relative loaded v fuel x y z false s t in
             match out r0 with
             | Ret _ => _wait_for_stopping loaded v fuel default_delay (obj r0) (log r0)
             | _ => r0
             end)
    /\ (forall fuel x y z s' t',
           move_absolute loaded v fuel x y z true s t = Run (Ret tt) s' t' ->
           let r0 := move_absolute loaded v fuel x y z false s t in
           exists k, (k < fuel)%nat
                     /\ nth_poll loaded v default_delay k (obj r0) (log r0)
                        = Some (Run (Ret true) s' t'))
    /\ (forall fuel x y z s' t',
           move_relative loaded v fuel x y z true s t = Run (Ret tt) s' t' ->
           let r0 := move_relative loaded v fuel x y z false s t in
           exists k, (k < fuel)%nat
                     /\ nth_poll loaded v default_delay k (obj r0) (log r0)
                        = Some (Run (Ret true) s' t'))
    /\ (forall ix iy iz,
           loaded = true -> connected s = true ->
           indices (channels s) = [(Axis.X, ix); (Axis.Y, iy); (Axis.Z, iz)] ->
           let h := handle s in
           (forall fuel,
               out (_wait_for_stopping loaded v fuel delay s t) = Ret tt
               <-> exists k, (k < fuel)%nat
                             /\ stops_in_round v delay h ix iy iz t k)
           /\ ((exists fuel, out (_wait_for_stopping loaded v fuel delay s t) = Ret tt)
               <-> exists k, stops_in_round v delay h ix iy iz t k)
           /\ (forall fuel k,
                  (k < fuel)%nat -> stops_in_round v delay h ix iy iz t k ->
                  log (_wait_for_stopping loaded v fuel delay s t)
                  = round_start delay h ix iy iz t (S k))
           /\ (forall fuel,
                  (forall j, (j < fuel)%nat ->
                     observes_moving v delay h ix iy iz
                                     (round_start delay h ix iy iz t j)) ->
                  out (_wait_for_stopping loaded v fuel delay s t) = Running
                  /\ log (_wait_for_stopping loaded v fuel delay s t)
                     = round_start delay h ix iy iz t fuel)
           /\ (forall fuel x y z,
                  out (move_absolute loaded v fuel x y z true s t) = Ret tt ->
                  exists k, (k < fuel)%nat
                            /\ stops_in_round v default_delay h ix iy iz
                                 (log (move_absolute loaded v fuel x y z false s t)) k)
           /\ (forall fuel x y z,
                  out (move_relative loaded v fuel x y z true s t) = Ret tt ->
                  exists k, (k < fuel)%nat
                            /\ stops_in_round v default_delay h ix iy iz
                                 (log (move_relative loaded v fuel x y z false s t)) k)).
Proof.
  intros loaded v delay s t.
  assert (Hreturns : forall fuel s' t',
             _wait_for_stopping loaded v fuel delay s t = Run (Ret tt) s' t'
             <-> exists k, (k < fuel)%nat
                           /\ nth_poll loaded v delay k s t
                              = Some (Run (Ret true) s' t'))
    by (intros; apply wait_returns_iff).
  split; [exact Hreturns|].
  split.
  { split.
    - intros (fuel & Hout).
      destruct (_wait_for_stopping loaded v fuel delay s t)
        as [[[]|e|] s' t'] eqn:Hwait; try discriminate.
      apply wait_returns_iff in Hwait as (k & _ & Hpoll).
      now exists k, (Run (Ret true) s' t').
    - intros (k & [o s' t'] & Hpoll & Hout). cbn in Hout. subst o.
      exists (S k).
      assert (H : _wait_for_stopping loaded v (S k) delay s t = Run (Ret tt) s' t').
      { apply wait_returns_iff. exists k. split; [lia|assumption]. }
      now rewrite H. }
  split; [intros fuel H; now apply wait_keeps_running|].
  split; [intros fuel; apply wait_sleeps_first|].
  split; [intros; apply move_absolute_then_wait|].
  split; [intros; apply move_relative_then_wait|].
  split.
  { intros fuel x y z s' t'. rewrite move_absolute_then_wait. cbn zeta.
    destruct (move_absolute loaded v fuel x y z false s t) as [[[]|e|] s0 t0];
      cbn [out obj log]; try discriminate.
    intros H. now apply wait_returns_iff. }
  split.
  { intros fuel x y z s' t'. rewrite move_relative_then_wait. cbn zeta.
    destruct (move_relative loaded v fuel x y z false s t) as [[[]|e|] s0 t0];
      cbn [out obj log]; try discriminate.
    intros H. now apply wait_returns_iff. }
  intros ix iy iz -> Hcon Hidx h.
  assert (Hiff : forall fuel,
             out (_wait_for_stopping true v fuel delay s t) = Ret tt
             <-> exists k, (k < fuel)%nat /\ stops_in_round v delay h ix iy iz t k).
  { intros fuel. split.
    - now apply wait_returned.
    - intros (k & Hk & Hstops).
      destruct (wait_stops v delay fuel k s t ix iy iz Hcon Hidx Hk Hstops)
        as (s' & -> & _).
      reflexivity. }
  split; [exact Hiff|].
  split.
  { split.
    - intros (fuel & Hout). apply Hiff in Hout as (k & _ & Hstops). now exists k.
    - intros (k & Hstops). exists (S k). apply Hiff. exists k. split; [lia|assumption]. }
  split.
  { intros fuel k Hk Hstops.
    now destruct (wait_stops v delay fuel k s t ix iy iz Hcon Hidx Hk Hstops)
      as (s' & -> & _). }
  split.
  { intros fuel Hmoving.
    now destruct (wait_moving v delay fuel s t ix iy iz Hcon Hidx Hmoving)
      as (s' & -> & _). }
  split.
  - intros fuel x y z.
    apply (move_then_stops v fuel s (move_absolute true v fuel x y z false s t));
      try assumption; [apply move_absolute_keeps|apply move_absolute_then_wait].
  - intros fuel x y z.
    apply (move_then_stops v fuel s (move_relative true v fuel x y z false s t));
      try assumption; [apply move_relative_keeps|apply move_relative_then_wait].
Qed.

Lemma wait_for_stopping_polls_witness :
  let v := bench 1 (fun _ => "SL...S1SS")
                 (fun tr idx => if (idx =? 2) && (Z.of_nat (length tr) <? 6)
                                then 1 else 0) in
  let w := _wait_for_stopping true v 2 default_delay LOC1_connected [] in
  connected LOC1_connected = true
  /\ indices (channels LOC1_connected) = [(Axis.X, 0); (Axis.Y, 1); (Axis.Z, 2)]
  /\ stops_in_round v default_delay (Some 1) 0 1 2 [] 1
  /\ out w = Ret tt
  /\ log w = round_start default_delay (Some 1) 0 1 2 [] 2.
Proof.
  intros v w.
  assert (Hcon : connected LOC1_connected = true) by reflexivity.
  assert (Hidx : indices (channels LOC1_connected)
                 = [(Axis.X, 0); (Axis.Y, 1); (Axis.Z, 2)]) by reflexivity.
  assert (Hnone : ~ reports_moving v 0).
  { intros (value & _ & Hbit). now rewrite Z.land_0_l in Hbit. }
  assert (Hstops : stops_in_round v default_delay (Some 1) 0 1 2 [] 1).
  { split.
    - intros j Hj. replace j with 0%nat by lia.
      exists 0, 0, 1. split; [repeat split|].
      right. right. exists 1. split; [now left|discriminate].
    - exists 0, 0, 0. split; [repeat split|]. now repeat split. }
  destruct (wait_for_stopping_polls true v default_delay LOC1_connected [])
    as (_ & _ & _ & _ & _ & _ & _ & _ & Hcodes).
  destruct (Hcodes 0 1 2 eq_refl Hcon Hidx) as (Hiff & _ & Hlog & _).
  split; [exact Hcon|]. split; [exact Hidx|]. split; [exact Hstops|].
  split.
  - apply Hiff. exists 1%nat. split; [lia|exact Hstops].
  - apply (Hlog 2%nat 1%nat); [lia|exact Hstops].
Defined.
